(** * fx_rate_app: the exchange-rate server

    A shallow embedding of [src/app/exchange_rate_server.py], the
    properties its specification states about it, and further properties
    of the cache, the fetch, the series builder and the handlers that the
    code shows.

    The server keeps one piece of state, the dictionary
    [exchange_rate_cache], and talks to the outside through the clock
    ([datetime.now()]), the network ([requests.get]) and the random number
    generator ([random.random()]).  The embedding threads a [World] that
    holds the cache together with the three oracles; every function of the
    source that touches any of them is a computation in the state monad
    [M].  What the Python runtime itself provides (floating-point
    arithmetic, [str.upper], [int()], [float()], [round], [strftime],
    [str(e)]) is collected in the interface [Python]; the file gives two
    implementations of it, binary64 and exact rationals.  The [print]
    calls of the source write to the log only and are left out. *)

From Stdlib Require Import ZArith QArith String Ascii List Floats Lia Lqa.
From stdpp Require Import base option list gmap strings pretty sorting.

Set Warnings "-inexact-float,-register-all".
Set Default Proof Using "Type*".

Local Open Scope string_scope.
Local Open Scope list_scope.
Local Open Scope Z_scope.

(** ** The Python runtime *)

(** Exceptions the modelled code can meet, with what [str(e)] needs to
    know about them. *)
Inductive PyExc :=
  | TypeError (message : string)
  | AttributeError (object_type : string) (attribute : string)
  | KeyError (key : string)
  | OverflowError (what : string)
  | ZeroDivisionError
  | ValueError (what : string)
  | UnboundLocalError (variable : string).

Class Python (float : Type) := {
  (** The literals of [float] ([float_lit m e] is the literal [m]e[e],
      so [6.99] is [float_lit 699 (-2)]) and its operators. *)
  float_lit : Z → Z → float;
  fadd : float → float → float;
  fsub : float → float → float;
  fmul : float → float → float;
  fdiv : float → float → float;
  feqb : float → float → bool;
  fleb : float → float → bool;
  (** [float(n)] of an [int]; [None] is [OverflowError]. *)
  float_of_int : Z → option float;
  (** [a / b] of two [int]s, [b] not zero. *)
  int_truediv : Z → Z → float;
  (** [round(x, 4)] of a [float]. *)
  round4 : float → float;
  (** [float(s)] and [int(s)] of a [str]; [None] is [ValueError]. *)
  float_of_str : string → option float;
  int_of_str : string → option Z;
  str_upper : string → string;
  (** [dt.strftime(fmt)]; a [datetime] is its number of microseconds
      since 0001-01-01 00:00:00. *)
  strftime : string → Z → string;
  (** [f"{x:,.2f}"]. *)
  format_money : float → string;
  str_exc : PyExc → string
}.

(** ** Two runtimes

    [binary64] computes with IEEE 754 double precision, as CPython does;
    [rational] computes exactly.  Both read and print numbers and dates
    through the same functions on exact values.  The text is ASCII:
    [str.upper] maps [a] to [z], and [int()] and [float()] read the
    numerals of Python's grammar that are written with ASCII digits. *)

Module Runtime.

(** Rounding of [num / den], [den] positive, to the nearest integer,
    ties to even. *)
Definition round_half_even (num den : Z) : Z :=
  let q := num `div` den in
  let r := num `mod` den in
  if 2 * r <? den then q
  else if den <? 2 * r then q + 1
  else if Z.even q then q else q + 1.

Definition digit_of (c : ascii) : option Z :=
  let n := Z.of_N (N_of_ascii c) in
  if (48 <=? n) && (n <=? 57) then Some (n - 48) else None.

(** The white space that [int()] and [float()] drop at both ends: tab to
    carriage return, the four separators and the space. *)
Definition is_space (c : ascii) : bool :=
  let n := N_of_ascii c in
  ((9 <=? n) && (n <=? 13) || (28 <=? n) && (n <=? 32))%N.

Fixpoint lstrip (s : string) : string :=
  match s with
  | String c rest => if is_space c then lstrip rest else s
  | EmptyString => s
  end.

Fixpoint rstrip (s : string) : string :=
  match s with
  | String c rest =>
      match rstrip rest with
      | EmptyString => if is_space c then EmptyString else String c EmptyString
      | kept => String c kept
      end
  | EmptyString => s
  end.

Definition strip (s : string) : string := rstrip (lstrip s).

(** Digits read from the left, with single underscores allowed between
    two digits: the number read and how many digits. *)
Fixpoint read_digits (s : string) (acc : Z) (count : nat) : option (Z * nat) :=
  match s with
  | EmptyString => Some (acc, count)
  | String c rest =>
      match digit_of c with
      | Some d => read_digits rest (10 * acc + d) (S count)
      | None =>
          if Ascii.eqb c "_" then
            match count, rest with
            | S _, String next _ =>
                match digit_of next with
                | Some _ => read_digits rest acc count
                | None => None
                end
            | _, _ => None
            end
          else None
      end
  end.

(** The text before the first character that [mark] accepts, and the
    text after it. *)
Fixpoint split_at (mark : ascii → bool) (s : string) : string * option string :=
  match s with
  | EmptyString => (EmptyString, None)
  | String c rest =>
      if mark c then (EmptyString, Some rest)
      else let '(a, b) := split_at mark rest in (String c a, b)
  end.

Definition split_sign (s : string) : bool * string :=
  match s with
  | String c rest =>
      if Ascii.eqb c "-" then (true, rest)
      else if Ascii.eqb c "+" then (false, rest)
      else (false, s)
  | EmptyString => (false, s)
  end.

(** An optional sign and digits. *)
Definition read_signed (s : string) : option Z :=
  let '(negative, body) := split_sign s in
  match read_digits body 0 0 with
  | Some (n, S _) => Some (if negative then - n else n)
  | _ => None
  end.

(** [int(s)] in base ten. *)
Definition read_int (s : string) : option Z := read_signed (strip s).

Definition lower_ascii (c : ascii) : ascii :=
  let n := N_of_ascii c in
  if (65 <=? n)%N && (n <=? 90)%N then ascii_of_N (n + 32) else c.

Fixpoint lower (s : string) : string :=
  match s with
  | EmptyString => EmptyString
  | String c rest => String (lower_ascii c) (lower rest)
  end.

(** What [float()] reads: a sign and a fraction of two integers, an
    infinity, or not a number. *)
Inductive Numeral :=
  | Ratio (negative : bool) (num den : Z)
  | Infinite (negative : bool)
  | NotANumber.

(** [float(s)]: white space is dropped at both ends; then an optional
    sign, and [inf], [infinity] or [nan] in any case, or digits with an
    optional fraction and an optional exponent. *)
Definition read_float (s : string) : option Numeral :=
  let '(negative, body) := split_sign (strip s) in
  let word := lower body in
  if String.eqb word "inf" || String.eqb word "infinity" then
    Some (Infinite negative)
  else if String.eqb word "nan" then Some NotANumber
  else
    let '(mantissa, exponent) :=
      split_at (λ c, Ascii.eqb c "e" || Ascii.eqb c "E") body in
    let '(whole, fraction) := split_at (λ c, Ascii.eqb c ".") mantissa in
    match read_digits whole 0 0,
          read_digits (default EmptyString fraction) 0 0,
          match exponent with Some e => read_signed e | None => Some 0 end with
    | Some (w, nw), Some (f, nf), Some e =>
        match nw, nf with
        | O, O => None
        | _, _ =>
            let num := w * 10 ^ Z.of_nat nf + f in
            let den := 10 ^ Z.of_nat nf in
            Some (if 0 <=? e then Ratio negative (num * 10 ^ e) den
                  else Ratio negative num (den * 10 ^ (- e)))
        end
    | _, _, _ => None
    end.

Definition upper_ascii (c : ascii) : ascii :=
  let n := N_of_ascii c in
  if (97 <=? n)%N && (n <=? 122)%N then ascii_of_N (n - 32) else c.

(** [str.upper] on ASCII text *)
Fixpoint upper (s : string) : string :=
  match s with
  | EmptyString => EmptyString
  | String c rest => String (upper_ascii c) (upper rest)
  end.

(** [n] in decimal, padded with zeros to [width] digits. *)
Definition zero_padded (width : nat) (n : Z) : string :=
  let digits := pretty n in
  String.concat "" (replicate (width - String.length digits) "0") +:+ digits.

(** Year, month and day of the day that is [days] days after
    0001-01-01, in the proleptic Gregorian calendar. *)
Definition civil_of_days (days : Z) : Z * Z * Z :=
  let z := days + 306 in
  let era := z `div` 146097 in
  let doe := z `mod` 146097 in
  let yoe := (doe - doe `div` 1460 + doe `div` 36524 - doe `div` 146096) `div` 365 in
  let doy := doe - (365 * yoe + yoe `div` 4 - yoe `div` 100) in
  let mp := (5 * doy + 2) `div` 153 in
  let d := doy - (153 * mp + 2) `div` 5 + 1 in
  let m := if mp <? 10 then mp + 3 else mp - 9 in
  let y := yoe + era * 400 in
  (if m <=? 2 then y + 1 else y, m, d).

(** [strftime] with the directives [%Y %m %d %H %M %S].  The year is
    printed with at least four digits: CPython pads it itself where the
    C library does not. *)
Fixpoint format_time (fmt : string) (dt : Z) : string :=
  match fmt with
  | String "%" (String c rest) =>
      let seconds := dt `div` 1000000 in
      let '(y, m, d) := civil_of_days (seconds `div` 86400) in
      let field :=
        if Ascii.eqb c "Y" then zero_padded 4 y
        else if Ascii.eqb c "m" then zero_padded 2 m
        else if Ascii.eqb c "d" then zero_padded 2 d
        else if Ascii.eqb c "H" then zero_padded 2 ((seconds `mod` 86400) `div` 3600)
        else if Ascii.eqb c "M" then zero_padded 2 ((seconds `mod` 3600) `div` 60)
        else if Ascii.eqb c "S" then zero_padded 2 (seconds `mod` 60)
        else String "%" (String c EmptyString) in
      field +:+ format_time rest dt
  | String c rest => String c (format_time rest dt)
  | EmptyString => EmptyString
  end.

(** Digits in groups of three, separated by commas. *)
Fixpoint group_thousands (fuel : nat) (n : Z) : string :=
  match fuel with
  | O => pretty n
  | S fuel' =>
      if n <? 1000 then pretty n
      else group_thousands fuel' (n `div` 1000) +:+ "," +:+ zero_padded 3 (n `mod` 1000)
  end.

(** [f"{x:,.2f}"] of the exact value [num / den]. *)
Definition money (negative : bool) (num den : Z) : string :=
  let cents := round_half_even num den in
  (if negative then "-" else "") +:+
  group_thousands (Z.to_nat (Z.log2 (cents + 1))) (cents `div` 100)
  +:+ "." +:+ zero_padded 2 (cents `mod` 100).

Definition exception_text (e : PyExc) : string :=
  match e with
  | TypeError message => message
  | AttributeError object_type attribute =>
      "'" +:+ object_type +:+ "' object has no attribute '" +:+ attribute +:+ "'"
  | KeyError key => "'" +:+ key +:+ "'"
  | OverflowError what => what
  | ZeroDivisionError => "division by zero"
  | ValueError what => what
  | UnboundLocalError variable =>
      "cannot access local variable '" +:+ variable
      +:+ "' where it is not associated with a value"
  end.

(** *** IEEE 754 double precision *)

Definition exact_of_Z (z : Z) : spec_float :=
  match z with
  | Z0 => S754_zero false
  | Zpos p => S754_finite false p 0
  | Zneg p => S754_finite true p 0
  end.

(** The double nearest to [num / den], ties to even. *)
Definition nearest (num den : Z) : PrimFloat.float :=
  SF2Prim (SFdiv prec emax (exact_of_Z num) (exact_of_Z den)).

(** A finite double as sign, numerator and denominator. *)
Definition fraction_of (x : PrimFloat.float) : option (bool * Z * Z) :=
  match Prim2SF x with
  | S754_zero s => Some (s, 0, 1)
  | S754_finite s m e =>
      Some (s, Zpos m * 2 ^ Z.max e 0, 2 ^ Z.max (- e) 0)
  | _ => None
  end.

Definition signed (negative : bool) (x : PrimFloat.float) : PrimFloat.float :=
  if negative then PrimFloat.opp x else x.

Definition binary64 : Python PrimFloat.float := {|
  float_lit m e := if e <? 0 then nearest m (10 ^ (- e)) else nearest (m * 10 ^ e) 1;
  fadd := PrimFloat.add;
  fsub := PrimFloat.sub;
  fmul := PrimFloat.mul;
  fdiv := PrimFloat.div;
  feqb := PrimFloat.eqb;
  fleb := PrimFloat.leb;
  float_of_int n :=
    let x := nearest n 1 in
    if PrimFloat.is_infinity x then None else Some x;
  int_truediv a b := nearest a b;
  round4 x :=
    match fraction_of x with
    | Some (s, num, den) =>
        signed s (nearest (round_half_even (num * 10000) den) 10000)
    | None => x
    end;
  float_of_str s :=
    match read_float s with
    | Some (Ratio negative num den) => Some (signed negative (nearest num den))
    | Some (Infinite negative) => Some (signed negative PrimFloat.infinity)
    | Some NotANumber => Some PrimFloat.nan
    | None => None
    end;
  int_of_str := read_int;
  str_upper := upper;
  strftime := format_time;
  format_money x :=
    match fraction_of x with
    | Some (s, num, den) => money s (num * 100) den
    | None => if PrimFloat.is_nan x then "nan"
              else if PrimFloat.ltb x 0 then "-inf" else "inf"
    end;
  str_exc := exception_text
|}.

(** *** Exact rationals

    There is no infinity and no NaN among them: [float()] reads finite
    numerals only. *)

Definition Qround4 (x : Q) : Q :=
  Qmake (round_half_even (Qnum x * 10000) (Zpos (Qden x))) 10000.

Definition rational : Python Q := {|
  float_lit m e :=
    if e <? 0 then Qmake m (Z.to_pos (10 ^ (- e))) else inject_Z (m * 10 ^ e);
  fadd := Qplus;
  fsub := Qminus;
  fmul := Qmult;
  fdiv := Qdiv;
  feqb := Qeq_bool;
  fleb := Qle_bool;
  float_of_int n := Some (inject_Z n);
  int_truediv a b := Qdiv (inject_Z a) (inject_Z b);
  round4 := Qround4;
  float_of_str s :=
    match read_float s with
    | Some (Ratio negative num den) =>
        Some (Qmake (if negative then - num else num) (Z.to_pos den))
    | _ => None
    end;
  int_of_str := read_int;
  str_upper := upper;
  strftime := format_time;
  format_money x :=
    money (Qnum x <? 0) (Z.abs (Qnum x) * 100) (Zpos (Qden x));
  str_exc := exception_text
|}.

End Runtime.

(** ** The value of a double

    What the bounds of the simulated series need of binary64: the value
    of a finite double, as an integer. *)

(** [m * 2 ^ e], in units of [2 ^ -2200]: an integer for every exponent
    that the sums, the differences and the products of two doubles
    reach. *)
Definition scaled (m e : Z) : Z := m * 2 ^ (e + 2200).

(** The value of a double that is finite; 0 for the others. *)
Definition value (x : spec_float) : Z :=
  match x with
  | S754_finite s m e => if s then - scaled (Zpos m) e else scaled (Zpos m) e
  | _ => 0
  end.

Definition finite_or_zero (x : spec_float) : bool :=
  match x with
  | S754_zero _ | S754_finite _ _ _ => true
  | _ => false
  end.

(** The record that shifting [M] by [k] places to the right leaves: the
    quotient, and no lost place when [2 ^ k] divides [M]. *)
Definition shifted (M k : Z) (mrs : shr_record) : Prop :=
  shr_m mrs = M / 2 ^ k ∧
  (M mod 2 ^ k = 0 → loc_of_shr_record mrs = loc_Exact).

(** The number of places that rounding drops from [m * 2 ^ e]. *)
Definition dropped (m e : Z) : Z :=
  Z.max (fexp prec emax (Zdigits2 m + e) - e) 0.

(** * The server *)

Section Server.
Context {float : Type} `{!Python float}.

(** ** Python values *)

(** What [json.loads] produces, which is also what [jsonify] takes.  A
    [PDict] lists the items of a [dict] in insertion order; a Python
    [dict] binds a key once, and the list stands for the [dict] that
    binds each key to its first entry in the list. *)
Inductive pyval :=
  | PNone
  | PBool (b : bool)
  | PInt (n : Z)
  | PFloat (x : float)
  | PStr (s : string)
  | PList (l : list pyval)
  | PDict (d : list (string * pyval)).

Definition type_name (v : pyval) : string :=
  match v with
  | PNone => "NoneType"
  | PBool _ => "bool"
  | PInt _ => "int"
  | PFloat _ => "float"
  | PStr _ => "str"
  | PList _ => "list"
  | PDict _ => "dict"
  end.

(** [v is not None] *)
Definition is_not_None (v : pyval) : bool :=
  match v with PNone => false | _ => true end.

(** [bool(v)], the test of [if v:] *)
Definition truthy (v : pyval) : bool :=
  match v with
  | PNone => false
  | PBool b => b
  | PInt n => negb (n =? 0)
  | PFloat x => negb (feqb x (float_lit 0 0))
  | PStr s => negb (String.eqb s "")
  | PList l => match l with [] => false | _ => true end
  | PDict d => match d with [] => false | _ => true end
  end.

(** [v != 0] *)
Definition ne_zero (v : pyval) : bool :=
  match v with
  | PBool b => b
  | PInt n => negb (n =? 0)
  | PFloat x => negb (feqb x (float_lit 0 0))
  | _ => true
  end.

(** [1 / v] *)
Definition one_over (v : pyval) : PyExc + pyval :=
  match v with
  | PBool b => if b then inr (PFloat (int_truediv 1 1)) else inl ZeroDivisionError
  | PInt n => if n =? 0 then inl ZeroDivisionError else inr (PFloat (int_truediv 1 n))
  | PFloat x =>
      if feqb x (float_lit 0 0) then inl ZeroDivisionError
      else inr (PFloat (fdiv (float_lit 1 0) x))
  | _ => inl (TypeError ("unsupported operand type(s) for /: 'int' and '"
                         +:+ type_name v +:+ "'"))
  end.

(** [amount * v] for a [float] [amount]: a [float] when it is defined. *)
Definition float_times (amount : float) (v : pyval) : PyExc + float :=
  match v with
  | PBool b => inr (fmul amount (float_lit (if b then 1 else 0) 0))
  | PInt n =>
      match float_of_int n with
      | Some y => inr (fmul amount y)
      | None => inl (OverflowError "int too large to convert to float")
      end
  | PFloat y => inr (fmul amount y)
  | PStr _ | PList _ =>
      inl (TypeError "can't multiply sequence by non-int of type 'float'")
  | _ => inl (TypeError ("unsupported operand type(s) for *: 'float' and '"
                         +:+ type_name v +:+ "'"))
  end.

(** [round(v, 4)]: a [float] is rounded, an [int] is returned as it is. *)
Definition py_round4 (v : pyval) : PyExc + pyval :=
  match v with
  | PBool b => inr (PInt (if b then 1 else 0))
  | PInt n => inr (PInt n)
  | PFloat x => inr (PFloat (round4 x))
  | _ => inl (TypeError ("type " +:+ type_name v
                         +:+ " doesn't define __round__ method"))
  end.

(** *** Dictionaries *)

Fixpoint assoc_get {V} (d : list (string * V)) (k : string) : option V :=
  match d with
  | [] => None
  | (k', v) :: d' => if String.eqb k' k then Some v else assoc_get d' k
  end.

(** [d.get(k)] on the items of a [dict] *)
Definition items_get (d : list (string * pyval)) (k : string) : option pyval :=
  assoc_get d k.

(** [d.items()]: one item per key *)
Fixpoint items (d : list (string * pyval)) : list (string * pyval) :=
  match d with
  | [] => []
  | (k, v) :: d' => (k, v) :: filter (λ kv, negb (String.eqb kv.1 k)) (items d')
  end.

(** [v.get(k, default)]; anything but a [dict] has no [get]. *)
Definition py_get (v : pyval) (k : string) (dflt : pyval) : PyExc + pyval :=
  match v with
  | PDict d => inr (default dflt (items_get d k))
  | _ => inl (AttributeError (type_name v) "get")
  end.

(** *** Strings *)

(** [template.format(name=value, ...)] for a template whose replacement fields
    are plain names, as the URL templates of the source are. *)
Fixpoint str_format (fields : list (string * string)) (template : string)
    (field : option string) : PyExc + string :=
  match template with
  | EmptyString =>
      match field with
      | None => inr ""
      | Some _ => inl (ValueError "expected '}' before end of string")
      end
  | String c rest =>
      match field with
      | None =>
          if Ascii.eqb c "{"
          then str_format fields rest (Some "")
          else match str_format fields rest None with
               | inr s => inr (String c s)
               | inl e => inl e
               end
      | Some name =>
          if Ascii.eqb c "}"
          then match assoc_get fields name with
               | Some v =>
                   match str_format fields rest None with
                   | inr s => inr (v +:+ s)
                   | inl e => inl e
                   end
               | None => inl (KeyError name)
               end
          else str_format fields rest (Some (name +:+ String c ""))
      end
  end.

(** [needle in haystack] for two [str]s *)
Fixpoint is_substring (needle haystack : string) : bool :=
  String.prefix needle haystack ||
  match haystack with
  | EmptyString => false
  | String _ rest => is_substring needle rest
  end.


(** ** Configuration *)

Record ApiConfig := {
  api_name : string;
  api_url : string;
  api_requires_key : bool;
  api_rate_limit : Z;
  api_timeout : Z
}.

(** The providers, in the order they are tried. *)
Definition EXCHANGE_RATE_APIS : list ApiConfig := [
  {| api_name := "ExchangeRate-API";
     api_url := "https://api.exchangerate-api.com/v4/latest/{base}";
     api_requires_key := false; api_rate_limit := 1500; api_timeout := 10 |};
  {| api_name := "Frankfurter";
     api_url := "https://api.frankfurter.app/latest?from={base}&to={target}";
     api_requires_key := false; api_rate_limit := 1000; api_timeout := 10 |};
  {| api_name := "OpenExchangeRates";
     api_url := "https://open.er-api.com/v6/latest/{base}";
     api_requires_key := false; api_rate_limit := 1500; api_timeout := 10 |}
].

Record CurrencyInfo := { currency_name : string; currency_flag : string }.

(** The currency registry. *)
Definition CURRENCY_DATA : list (string * CurrencyInfo) := [
  ("USD", {| currency_name := "United States Dollar"; currency_flag := "🇺🇸" |});
  ("EUR", {| currency_name := "Euro"; currency_flag := "🇪🇺" |});
  ("GBP", {| currency_name := "British Pound"; currency_flag := "🇬🇧" |});
  ("JPY", {| currency_name := "Japanese Yen"; currency_flag := "🇯🇵" |});
  ("CNY", {| currency_name := "Chinese Yuan"; currency_flag := "🇨🇳" |});
  ("CAD", {| currency_name := "Canadian Dollar"; currency_flag := "🇨🇦" |});
  ("AUD", {| currency_name := "Australian Dollar"; currency_flag := "🇦🇺" |});
  ("CHF", {| currency_name := "Swiss Franc"; currency_flag := "🇨🇭" |});
  ("HKD", {| currency_name := "Hong Kong Dollar"; currency_flag := "🇭🇰" |});
  ("SGD", {| currency_name := "Singapore Dollar"; currency_flag := "🇸🇬" |});
  ("KRW", {| currency_name := "South Korean Won"; currency_flag := "🇰🇷" |});
  ("INR", {| currency_name := "Indian Rupee"; currency_flag := "🇮🇳" |});
  ("RUB", {| currency_name := "Russian Ruble"; currency_flag := "🇷🇺" |});
  ("BRL", {| currency_name := "Brazilian Real"; currency_flag := "🇧🇷" |});
  ("MXN", {| currency_name := "Mexican Peso"; currency_flag := "🇲🇽" |});
  ("AED", {| currency_name := "UAE Dirham"; currency_flag := "🇦🇪" |});
  ("TRY", {| currency_name := "Turkish Lira"; currency_flag := "🇹🇷" |});
  ("ZAR", {| currency_name := "South African Rand"; currency_flag := "🇿🇦" |});
  ("SEK", {| currency_name := "Swedish Krona"; currency_flag := "🇸🇪" |});
  ("NZD", {| currency_name := "New Zealand Dollar"; currency_flag := "🇳🇿" |})
].

(** [code in CURRENCY_DATA] *)
Definition in_CURRENCY_DATA (code : string) : bool :=
  bool_decide (is_Some (assoc_get CURRENCY_DATA code)).

(** Seconds of cache life. *)
Definition CACHE_DURATION : Z := 300.

(** ** Dates and times

    A [datetime] is the number of microseconds since 0001-01-01 00:00:00;
    a [timedelta] is a number of microseconds. *)

Definition timedelta_seconds (s : Z) : Z := s * 1000000.
Definition timedelta_days (d : Z) : Z := d * 86400000000.

(** One past [datetime.max], 9999-12-31 23:59:59.999999. *)
Definition datetime_end : Z := 3652059 * 86400000000.

(** [dt - timedelta(days=d)]: [timedelta] takes at most 999999999 days
    either way, read through a C [int], and the result has to be a
    [datetime]. *)
Definition datetime_minus_days (dt d : Z) : PyExc + Z :=
  if bool_decide (-999999999 ≤ d ≤ 999999999) then
    let r := dt - timedelta_days d in
    if bool_decide (0 ≤ r < datetime_end) then inr r
    else inl (OverflowError "date value out of range")
  else if bool_decide (- 2 ^ 31 ≤ d < 2 ^ 31) then
    inl (OverflowError ("days=" +:+ pretty d
                        +:+ "; must have magnitude <= 999999999"))
  else inl (OverflowError "Python int too large to convert to C int").

(** ** The world of a running server *)

(** An entry of [exchange_rate_cache]. *)
Record CacheEntry := {
  cache_rate : pyval;
  cache_source : string;
  cache_timestamp : Z
}.

(** What [response.json()] does. *)
Inductive JsonBody :=
  | Json (data : pyval)
  (** [json.JSONDecodeError] *)
  | InvalidJson
  (** the decode error of [requests], which is a [RequestException] too *)
  | InvalidJsonRequests (message : string).

(** What [requests.get(url, timeout=...)] does. *)
Inductive HttpOutcome :=
  | Timeout
  | ConnectionError
  | RequestException (message : string)
  | OtherException (message : string)
  | Response (status_code : Z) (body : JsonBody).

Record World := {
  (** the module-level dictionary *)
  exchange_rate_cache : gmap string CacheEntry;
  (** [datetime.now()]: the successive readings, and how many were taken *)
  clock : nat → Z;
  ticks : nat;
  (** [requests.get]: what the n-th request gets for a URL and a timeout,
      and the URLs requested so far *)
  network : nat → string → Z → HttpOutcome;
  sent : list string;
  (** [random.random()]: the successive draws, and how many were taken *)
  dice : nat → float;
  rolls : nat
}.

Definition M (A : Type) : Type := World → A * World.

#[global] Instance M_ret : MRet M := λ A a w, (a, w).
#[global] Instance M_bind : MBind M :=
  λ A B f m w, let '(a, w') := m w in f a w'.

(** [datetime.now()] *)
Definition now : M Z := λ w,
  (clock w (ticks w),
   {| exchange_rate_cache := exchange_rate_cache w;
      clock := clock w; ticks := S (ticks w);
      network := network w; sent := sent w;
      dice := dice w; rolls := rolls w |}).

(** [requests.get(url, timeout=timeout)] *)
Definition requests_get (url : string) (timeout : Z) : M HttpOutcome := λ w,
  (network w (length (sent w)) url timeout,
   {| exchange_rate_cache := exchange_rate_cache w;
      clock := clock w; ticks := ticks w;
      network := network w; sent := sent w ++ [url];
      dice := dice w; rolls := rolls w |}).

(** [random.random()] *)
Definition random_random : M float := λ w,
  (dice w (rolls w),
   {| exchange_rate_cache := exchange_rate_cache w;
      clock := clock w; ticks := ticks w;
      network := network w; sent := sent w;
      dice := dice w; rolls := S (rolls w) |}).

(** [random.uniform(a, b)], which is [a + (b - a) * random()] *)
Definition random_uniform (a b : float) : M float :=
  u ← random_random; mret (fadd a (fmul (fsub b a) u)).

Definition read_cache : M (gmap string CacheEntry) := λ w,
  (exchange_rate_cache w, w).

Definition write_cache (c : gmap string CacheEntry) : M unit := λ w,
  (tt,
   {| exchange_rate_cache := c;
      clock := clock w; ticks := ticks w;
      network := network w; sent := sent w;
      dice := dice w; rolls := rolls w |}).

(** ** The rate cache *)

Definition cache_key (base_currency target_currency : string) : string :=
  base_currency +:+ "_" +:+ target_currency.

Definition get_cached_rate (base_currency target_currency : string)
    : M (pyval * pyval) :=
  cache ← read_cache;
  match cache !! cache_key base_currency target_currency with
  | Some cached_data =>
      t ← now;
      if bool_decide (t - cache_timestamp cached_data < timedelta_seconds CACHE_DURATION)
      then mret (cache_rate cached_data, PStr (cache_source cached_data))
      else mret (PNone, PNone)
  | None => mret (PNone, PNone)
  end.

Definition set_cached_rate (base_currency target_currency : string)
    (rate : pyval) (source : string) : M unit :=
  cache ← read_cache;
  t ← now;
  write_cache (<[cache_key base_currency target_currency :=
                   {| cache_rate := rate; cache_source := source;
                      cache_timestamp := t |}]> cache).

Definition clear_cache_store : M unit := write_cache ∅.

(** ** The upstream fetcher *)

(** The dictionary a successful fetch returns. *)
Record ApiResult := {
  result_rate : pyval;
  result_date : pyval;
  result_source : string
}.

(** The URL of a provider, by its name.  A name outside the three would
    leave [url] unassigned; no configured provider has one. *)
Definition api_request_url (api_config : ApiConfig)
    (base_currency target_currency : string) : PyExc + string :=
  if String.eqb (api_name api_config) "ExchangeRate-API" then
    str_format [("base", base_currency)] (api_url api_config) None
  else if String.eqb (api_name api_config) "Frankfurter" then
    str_format [("base", base_currency); ("target", target_currency)]
      (api_url api_config) None
  else if String.eqb (api_name api_config) "OpenExchangeRates" then
    str_format [("base", base_currency)] (api_url api_config) None
  else inl (UnboundLocalError "url").

(** [data.get('rates', {}).get(target_currency)] *)
Definition rates_get (data : pyval) (target_currency : string) : PyExc + pyval :=
  match py_get data "rates" (PDict []) with
  | inr rates => py_get rates target_currency PNone
  | inl e => inl e
  end.

(** The rate in a provider's answer, by the provider's name. *)
Definition api_extract_rate (api_config : ApiConfig) (data : pyval)
    (target_currency : string) : PyExc + pyval :=
  if String.eqb (api_name api_config) "ExchangeRate-API" then
    rates_get data target_currency
  else if String.eqb (api_name api_config) "Frankfurter" then
    rates_get data target_currency
  else if String.eqb (api_name api_config) "OpenExchangeRates" then
    rates_get data target_currency
  else inl (UnboundLocalError "rate").

(** One turn of the loop over the providers: the body of the [try] with
    its [except] clauses.  [inr] is the [return] of the loop, [inl] the
    line appended to [errors]. *)
Definition try_api (api_config : ApiConfig)
    (base_currency target_currency : string) : M (string + ApiResult) :=
  let unknown e := api_name api_config +:+ ": 未知错误 - " +:+ str_exc e in
  match api_request_url api_config base_currency target_currency with
  | inl e => mret (inl (unknown e))
  | inr url =>
      response ← requests_get url (api_timeout api_config);
      match response with
      | Timeout => mret (inl (api_name api_config +:+ ": 请求超时"))
      | ConnectionError => mret (inl (api_name api_config +:+ ": 连接错误"))
      | RequestException message =>
          mret (inl (api_name api_config +:+ ": " +:+ message))
      | OtherException message =>
          mret (inl (api_name api_config +:+ ": 未知错误 - " +:+ message))
      | Response status_code body =>
          if status_code =? 200 then
            match body with
            | InvalidJsonRequests message =>
                mret (inl (api_name api_config +:+ ": " +:+ message))
            | InvalidJson => mret (inl (api_name api_config +:+ ": 响应格式错误"))
            | Json data =>
                match api_extract_rate api_config data target_currency with
                | inl e => mret (inl (unknown e))
                | inr rate =>
                    if truthy rate then
                      t ← now;
                      match py_get data "date" (PStr (strftime "%Y-%m-%d" t)) with
                      | inl e => mret (inl (unknown e))
                      | inr date =>
                          mret (inr {| result_rate := rate;
                                       result_date := date;
                                       result_source := api_name api_config |})
                      end
                    else mret (inl (api_name api_config +:+ ": 未找到汇率数据"))
                end
            end
          else mret (inl (api_name api_config +:+ ": HTTP " +:+ pretty status_code))
      end
  end.

(** The loop [for api_config in EXCHANGE_RATE_APIS], with the list
    [errors] it fills. *)
Fixpoint try_apis (apis : list ApiConfig) (base_currency target_currency : string)
    (errors : list string) : M (option ApiResult * list string) :=
  match apis with
  | [] => mret (None, errors)
  | api_config :: rest =>
      r ← try_api api_config base_currency target_currency;
      match r with
      | inr result => mret (Some result, errors)
      | inl error => try_apis rest base_currency target_currency (errors ++ [error])
      end
  end.

Definition get_exchange_rate_from_api (base_currency target_currency : string)
    : M (option ApiResult) :=
  r ← try_apis EXCHANGE_RATE_APIS base_currency target_currency [];
  match r.1 with
  | Some result => mret (Some result)
  | None =>
      if String.eqb base_currency "USD" && String.eqb target_currency "CNY" then
        t ← now;
        mret (Some {| result_rate := PFloat (float_lit 699 (-2));
                      result_date := PStr (strftime "%Y-%m-%d" t);
                      result_source := "默认汇率(演示)" |})
      else mret None
  end.

(** ** The historical series builder *)

(** A point of a series: the dictionary with keys [date], [rate] and
    [timestamp]. *)
Record HistoricalPoint := {
  point_date : string;
  point_rate : pyval;
  point_timestamp : string
}.

(** The order of [history.sort(key=lambda x: x['date'])]: [str]s compare
    by code points, which is the order of their UTF-8 bytes. *)
Definition date_le (p q : HistoricalPoint) : Prop :=
  String.leb (point_date p) (point_date q) = true.

#[global] Instance date_le_dec : RelDecision date_le.
Proof. intros p q. unfold date_le. apply _. Defined.

(** One turn of [for date_str, rates in data['rates'].items()]: the point
    to append if [target_currency in rates], or the exception raised. *)
Definition history_entry (date_str : string) (rates : pyval)
    (target_currency : string) : PyExc + option HistoricalPoint :=
  match rates with
  | PDict r =>
      match items_get r target_currency with
      | Some v =>
          match py_round4 v with
          | inr x => inr (Some {| point_date := date_str;
                                  point_rate := x;
                                  point_timestamp := date_str +:+ " 12:00:00" |})
          | inl e => inl e
          end
      | None => inr None
      end
  | PList l =>
      if existsb (λ v, match v with
                       | PStr s => String.eqb s target_currency
                       | _ => false
                       end) l
      then inl (TypeError "list indices must be integers or slices, not str")
      else inr None
  | PStr s =>
      if is_substring target_currency s
      then inl (TypeError "string indices must be integers, not 'str'")
      else inr None
  | _ => inl (TypeError ("argument of type '" +:+ type_name rates
                         +:+ "' is not iterable"))
  end.

Fixpoint history_entries (its : list (string * pyval)) (target_currency : string)
    (history : list HistoricalPoint) : PyExc + list HistoricalPoint :=
  match its with
  | [] => inr history
  | (date_str, rates) :: rest =>
      match history_entry date_str rates target_currency with
      | inl e => inl e
      | inr (Some p) => history_entries rest target_currency (history ++ [p])
      | inr None => history_entries rest target_currency history
      end
  end.

(** The series in a provider's answer; [None] where the source returns
    [None], which it does on every exception too. *)
Definition parse_history (data : pyval) (target_currency : string)
    : option (list HistoricalPoint) :=
  match data with
  | PDict d =>
      match items_get d "rates" with
      | Some (PDict rates) =>
          match history_entries (items rates) target_currency [] with
          | inr history => Some (merge_sort date_le history)
          | inl _ => None
          end
      | _ => None
      end
  | _ => None
  end.

Definition get_historical_data_from_api (base_currency target_currency : string)
    (days : Z) : M (option (list HistoricalPoint)) :=
  end_date ← now;
  match datetime_minus_days end_date days with
  | inl _ => mret None
  | inr start_date =>
      let url := "https://api.frankfurter.app/"
                 +:+ strftime "%Y-%m-%d" start_date +:+ ".."
                 +:+ strftime "%Y-%m-%d" end_date
                 +:+ "?from=" +:+ base_currency +:+ "&to=" +:+ target_currency in
      response ← requests_get url 15;
      match response with
      | Response status_code body =>
          (* raise_for_status *)
          if bool_decide (400 ≤ status_code < 600) then mret None
          else match body with
               | Json data => mret (parse_history data target_currency)
               | _ => mret None
               end
      | _ => mret None
      end
  end.

(** [range(days, -1, -1)] *)
Definition range_down (days : Z) : list Z :=
  (λ k, days - Z.of_nat k) <$> seq 0 (Z.to_nat (days + 1)).

(** The loop of the simulated series, over the values of [i] left, with
    the running [base_rate] and the [history] built so far. *)
Fixpoint simulate (today : Z) (indices : list Z) (base_rate : float)
    (history : list HistoricalPoint) : M (PyExc + list HistoricalPoint) :=
  match indices with
  | [] => mret (inr history)
  | i :: rest =>
      match datetime_minus_days today i with
      | inl e => mret (inl e)
      | inr date =>
          u ← random_random;
          let variation := fmul (fsub u (float_lit 5 (-1))) (float_lit 5 (-2)) in
          let rate := fadd base_rate variation in
          simulate today rest rate
            (history ++ [{| point_date := strftime "%Y-%m-%d" date;
                            point_rate := PFloat (round4 rate);
                            point_timestamp := strftime "%Y-%m-%d %H:%M:%S" date |}])
      end
  end.

(** The second half of [generate_historical_data]: the simulated series. *)
Definition simulated_history (base_currency target_currency : string) (days : Z)
    : M (PyExc + list HistoricalPoint) :=
  base_rate ← (if String.eqb base_currency "USD" && String.eqb target_currency "CNY"
               then mret (float_lit 699 (-2))
               else random_uniform (float_lit 8 (-1)) (float_lit 12 (-1)));
  today ← now;
  simulate today (range_down days) base_rate [].

Definition generate_historical_data (base_currency target_currency : string)
    (days : Z) : M (PyExc + list HistoricalPoint) :=
  real_history ← get_historical_data_from_api base_currency target_currency days;
  match real_history with
  | Some (p :: l) => mret (inr (p :: l))
  | _ => simulated_history base_currency target_currency days
  end.

(** ** The request handlers *)

(** What a view function does: it returns a JSON object with a status,
    or an exception escapes it. *)
Inductive Outcome :=
  | Reply (status : Z) (json : list (string * pyval))
  | Raised (e : PyExc).

(** [request.args.get(key, default)] *)
Definition args_get (args : list (string * string)) (key default_value : string)
    : string :=
  default default_value (assoc_get args key).

(** [CURRENCY_DATA[code]["name"]] *)
Definition name_of (code : string) : PyExc + string :=
  match assoc_get CURRENCY_DATA code with
  | Some info => inr (currency_name info)
  | None => inl (KeyError code)
  end.

(** [1 / rate if rate != 0 else 0] *)
Definition inverse_of (rate : pyval) : PyExc + pyval :=
  if ne_zero rate then one_over rate else inr (PInt 0).

Definition unsupported (what : string) (code : string) : M Outcome :=
  t ← now;
  mret (Reply 400 [("success", PBool false);
                   ("error", PStr (what +:+ code));
                   ("timestamp", PStr (strftime "%Y-%m-%d %H:%M:%S" t))]).

Definition failure (status : Z) (message : string) : M Outcome :=
  t ← now;
  mret (Reply status [("success", PBool false);
                      ("error", PStr message);
                      ("timestamp", PStr (strftime "%Y-%m-%d %H:%M:%S" t))]).

(** The answer of the exchange-rate endpoint to an exception. *)
Definition server_error (message : string) : M Outcome :=
  t ← now;
  mret (Reply 500 [("success", PBool false);
                   ("error", PStr message);
                   ("details", PStr "请稍后重试或检查网络连接");
                   ("timestamp", PStr (strftime "%Y-%m-%d %H:%M:%S" t))]).

(** [GET /api/exchange_rate] *)
Definition get_exchange_rate (args : list (string * string)) : M Outcome :=
  let base_currency := str_upper (args_get args "base" "USD") in
  let target_currency := str_upper (args_get args "target" "CNY") in
  if negb (in_CURRENCY_DATA base_currency) then
    unsupported "不支持的基准货币: " base_currency
  else if negb (in_CURRENCY_DATA target_currency) then
    unsupported "不支持的目标货币: " target_currency
  else
    cached ← get_cached_rate base_currency target_currency;
    let '(cached_rate, cached_source) := cached in
    if is_not_None cached_rate then
      match inverse_of cached_rate, name_of base_currency, name_of target_currency with
      | inr inverse_rate, inr base_name, inr target_name =>
          t1 ← now;
          t2 ← now;
          mret (Reply 200 [("success", PBool true);
                           ("base_currency", PStr base_currency);
                           ("target_currency", PStr target_currency);
                           ("exchange_rate", cached_rate);
                           ("inverse_rate", inverse_rate);
                           ("base_name", PStr base_name);
                           ("target_name", PStr target_name);
                           ("last_updated", PStr (strftime "%Y-%m-%d" t1));
                           ("timestamp", PStr (strftime "%Y-%m-%d %H:%M:%S" t2));
                           ("source", cached_source);
                           ("cached", PBool true)])
      | inl e, _, _ => mret (Raised e)
      | _, inl e, _ => mret (Raised e)
      | _, _, inl e => mret (Raised e)
      end
    else
      api_result ← get_exchange_rate_from_api base_currency target_currency;
      match api_result with
      | None =>
          t ← now;
          mret (Reply 503 [("success", PBool false);
                           ("error", PStr "无法从任何汇率API获取数据");
                           ("suggestions",
                            PList [PStr "1. 检查网络连接";
                                   PStr "2. 等待几分钟后重试";
                                   PStr "3. 某些API可能有请求频率限制"]);
                           ("timestamp", PStr (strftime "%Y-%m-%d %H:%M:%S" t))])
      | Some api_result =>
          let rate := result_rate api_result in
          set_cached_rate base_currency target_currency rate (result_source api_result);;
          match inverse_of rate, name_of base_currency, name_of target_currency with
          | inr inverse_rate, inr base_name, inr target_name =>
              _ ← now;
              t ← now;
              mret (Reply 200 [("success", PBool true);
                               ("base_currency", PStr base_currency);
                               ("target_currency", PStr target_currency);
                               ("exchange_rate", rate);
                               ("inverse_rate", inverse_rate);
                               ("base_name", PStr base_name);
                               ("target_name", PStr target_name);
                               ("last_updated", result_date api_result);
                               ("timestamp", PStr (strftime "%Y-%m-%d %H:%M:%S" t));
                               ("source", PStr (result_source api_result));
                               ("cached", PBool false)])
          | inl e, _, _ => server_error ("服务器错误: " +:+ str_exc e)
          | _, inl e, _ => server_error ("服务器错误: " +:+ str_exc e)
          | _, _, inl e => server_error ("服务器错误: " +:+ str_exc e)
          end
      end.

(** A point as [jsonify] sees it. *)
Definition point_json (p : HistoricalPoint) : pyval :=
  PDict [("date", PStr (point_date p));
         ("rate", point_rate p);
         ("timestamp", PStr (point_timestamp p))].

(** [GET /api/historical] *)
Definition get_historical_data (args : list (string * string)) : M Outcome :=
  let base_currency := str_upper (args_get args "base" "USD") in
  let target_currency := str_upper (args_get args "target" "CNY") in
  let days := args_get args "days" "30" in
  let days_int := default 30 (int_of_str days) in
  if negb (in_CURRENCY_DATA base_currency) then
    unsupported "不支持的基准货币: " base_currency
  else if negb (in_CURRENCY_DATA target_currency) then
    unsupported "不支持的目标货币: " target_currency
  else
    current_rate_data ← get_exchange_rate_from_api base_currency target_currency;
    let base_rate :=
      match current_rate_data with
      | None =>
          if String.eqb base_currency "USD" && String.eqb target_currency "CNY"
          then PFloat (float_lit 699 (-2)) else PFloat (float_lit 1 0)
      | Some current_rate_data => result_rate current_rate_data
      end in
    history ← generate_historical_data base_currency target_currency days_int;
    match history with
    | inr history =>
        t ← now;
        mret (Reply 200 [("success", PBool true);
                         ("base_currency", PStr base_currency);
                         ("target_currency", PStr target_currency);
                         ("current_rate", base_rate);
                         ("historical_data", PList (point_json <$> history));
                         ("days", PInt days_int);
                         ("timestamp", PStr (strftime "%Y-%m-%d %H:%M:%S" t))])
    | inl e => failure 500 ("获取历史数据失败: " +:+ str_exc e)
    end.

(** [GET /api/convert] *)
Definition convert_amount (args : list (string * string)) : M Outcome :=
  let base_currency := str_upper (args_get args "base" "USD") in
  let target_currency := str_upper (args_get args "target" "CNY") in
  match (match assoc_get args "amount" with
         | Some s => float_of_str s
         | None => Some (float_lit 1 0)
         end) with
  | None => failure 400 "金额必须为数字"
  | Some amount =>
      if fleb amount (float_lit 0 0) then failure 400 "金额必须大于0"
      else
        api_result ← get_exchange_rate_from_api base_currency target_currency;
        match api_result with
        | None => failure 503 "无法获取汇率数据"
        | Some api_result =>
            let rate := result_rate api_result in
            match float_times amount rate,
                  name_of base_currency, name_of target_currency with
            | inr converted_amount, inr base_name, inr target_name =>
                t ← now;
                mret (Reply 200
                  [("success", PBool true);
                   ("amount", PFloat amount);
                   ("converted_amount", PFloat converted_amount);
                   ("base_currency", PStr base_currency);
                   ("target_currency", PStr target_currency);
                   ("exchange_rate", rate);
                   ("base_name", PStr base_name);
                   ("target_name", PStr target_name);
                   ("formatted",
                    PStr (format_money amount +:+ " " +:+ base_currency +:+ " = "
                          +:+ format_money converted_amount +:+ " "
                          +:+ target_currency));
                   ("source", PStr (result_source api_result));
                   ("timestamp", PStr (strftime "%Y-%m-%d %H:%M:%S" t))])
            | inl e, _, _ => failure 500 ("转换失败: " +:+ str_exc e)
            | _, inl e, _ => failure 500 ("转换失败: " +:+ str_exc e)
            | _, _, inl e => failure 500 ("转换失败: " +:+ str_exc e)
            end
        end
  end.

(** [GET /api/clear_cache] *)
Definition clear_cache : M Outcome :=
  clear_cache_store;;
  t ← now;
  mret (Reply 200 [("success", PBool true);
                   ("message", PStr "汇率缓存已清除");
                   ("timestamp", PStr (strftime "%Y-%m-%d %H:%M:%S" t))]).

(** [GET /api/currencies] *)
Definition currency_json (info : CurrencyInfo) : pyval :=
  PDict [("name", PStr (currency_name info)); ("flag", PStr (currency_flag info))].

Definition get_currencies : M Outcome :=
  t ← now;
  mret (Reply 200 [("success", PBool true);
                   ("currencies",
                    PDict ((λ entry, (entry.1, currency_json entry.2)) <$> CURRENCY_DATA));
                   ("timestamp", PStr (strftime "%Y-%m-%d %H:%M:%S" t))]).

(** [dt.isoformat()]: the fraction of a second is printed unless it is
    zero. *)
Definition isoformat (dt : Z) : string :=
  strftime "%Y-%m-%dT%H:%M:%S" dt +:+
  (if dt `mod` 1000000 =? 0 then ""
   else "." +:+ Runtime.zero_padded 6 (dt `mod` 1000000)).

(** [GET /api/health] *)
Definition health_check : M Outcome :=
  t ← now;
  cache ← read_cache;
  mret (Reply 200 [("status", PStr "healthy");
                   ("service", PStr "Exchange Rate API");
                   ("version", PStr "2.0");
                   ("timestamp", PStr (isoformat t));
                   ("supported_currencies", PInt (Z.of_nat (length CURRENCY_DATA)));
                   ("cache_size", PInt (Z.of_nat (size cache)));
                   ("active_apis",
                    PList ((λ api, PStr (api_name api)) <$> EXCHANGE_RATE_APIS))]).

(** The handlers of the errors 404 and 500. *)
Definition not_found : M Outcome := failure 404 "请求的资源不存在".

Definition internal_error : M Outcome := failure 500 "服务器内部错误".

(** ** The routes

    A request to the server, by the route it matches: one of the JSON
    endpoints registered with [@app.route], or a path without a route,
    which the handler of 404 answers.  The index page, which renders a
    template and touches nothing of the world, is left out. *)
Inductive Request :=
  | GET_currencies
  | GET_exchange_rate (args : list (string * string))
  | GET_historical (args : list (string * string))
  | GET_convert (args : list (string * string))
  | GET_health
  | GET_clear_cache
  | GET_unknown (path : string).

Definition serve (request : Request) : M Outcome :=
  match request with
  | GET_currencies => get_currencies
  | GET_exchange_rate args => get_exchange_rate args
  | GET_historical args => get_historical_data args
  | GET_convert args => convert_amount args
  | GET_health => health_check
  | GET_clear_cache => clear_cache
  | GET_unknown _ => not_found
  end.

(** The server answering the requests of a list one after the other. *)
Fixpoint serve_all (requests : list Request) : M (list Outcome) :=
  match requests with
  | [] => mret []
  | request :: rest =>
      outcome ← serve request;
      outcomes ← serve_all rest;
      mret (outcome :: outcomes)
  end.

(** ** The vocabulary of the properties *)

(** What the fetch leaves alone: everything but the count of clock
    readings and the log of requests. *)
Definition frame (w w' : World) : Prop :=
  exchange_rate_cache w' = exchange_rate_cache w ∧
  clock w' = clock w ∧ network w' = network w ∧
  dice w' = dice w ∧ rolls w' = rolls w.

(** The rate that an answer of a provider yields, with the dictionary it
    was found in: the answer has status 200, its body is a JSON object,
    and the rate extracted from it counts as true. *)
Definition answer (response : HttpOutcome) (target_currency : string)
    : option (pyval * list (string * pyval)) :=
  match response with
  | Response status_code (Json (PDict d)) =>
      if status_code =? 200 then
        match rates_get (PDict d) target_currency with
        | inr rate => if truthy rate then Some (rate, d) else None
        | inl _ => None
        end
      else None
  | _ => None
  end.

(** The [k]-th request from now on is for [api_config], and gets no rate. *)
Definition provider_fails (w : World) (k : nat) (api_config : ApiConfig)
    (base_currency target_currency : string) : Prop :=
  ∃ url, api_request_url api_config base_currency target_currency = inr url ∧
    answer (network w (length (sent w) + k) url (api_timeout api_config))
      target_currency = None.

(** The [k]-th request from now on is for [api_config], and gets [rate]
    in the JSON object [d]. *)
Definition provider_answers (w : World) (k : nat) (api_config : ApiConfig)
    (base_currency target_currency : string)
    (rate : pyval) (d : list (string * pyval)) : Prop :=
  ∃ url, api_request_url api_config base_currency target_currency = inr url ∧
    answer (network w (length (sent w) + k) url (api_timeout api_config))
      target_currency = Some (rate, d).

(** The URLs requested when the providers [apis] are tried in turn. *)
Definition urls_of (apis : list ApiConfig) (base_currency target_currency : string)
    : list string :=
  omap (λ api_config,
          match api_request_url api_config base_currency target_currency with
          | inr url => Some url
          | inl _ => None
          end) apis.

(** Every configured provider, asked in turn, fails to yield a rate. *)
Definition all_providers_fail (w : World) (base_currency target_currency : string)
    : Prop :=
  ∀ k api_config, EXCHANGE_RATE_APIS !! k = Some api_config →
    provider_fails w k api_config base_currency target_currency.

Definition is_USD_CNY (base_currency target_currency : string) : bool :=
  String.eqb base_currency "USD" && String.eqb target_currency "CNY".

(** The errors of a single provider: each of them is an answer without a
    rate. *)
Definition provider_error (response : HttpOutcome) (target_currency : string) : Prop :=
  response = Timeout ∨ response = ConnectionError ∨
  (∃ message, response = RequestException message) ∨
  (∃ message, response = OtherException message) ∨
  (∃ status_code body, response = Response status_code body ∧ status_code ≠ 200) ∨
  response = Response 200 InvalidJson ∨
  (∃ message, response = Response 200 (InvalidJsonRequests message)) ∨
  (∃ data e, response = Response 200 (Json data) ∧
             rates_get data target_currency = inl e) ∨
  (∃ data, response = Response 200 (Json data) ∧
           rates_get data target_currency = inr PNone).

(** [float(request.args.get('amount', 1.0))] *)
Definition amount_of (args : list (string * string)) : option float :=
  match assoc_get args "amount" with
  | Some s => float_of_str s
  | None => Some (float_lit 1 0)
  end.

(** The world after [n] more draws. *)
Definition rolled (n : nat) (w : World) : World :=
  {| exchange_rate_cache := exchange_rate_cache w;
     clock := clock w; ticks := ticks w;
     network := network w; sent := sent w;
     dice := dice w; rolls := (n + rolls w)%nat |}.

(** The change of the [j]-th day: [(random.random() - 0.5) * 0.05] on
    the [j]-th draw from now on. *)
Definition variation (w : World) (j : nat) : float :=
  fmul (fsub (dice w (j + rolls w)%nat) (float_lit 5 (-1))) (float_lit 5 (-2)).

(** The running rate: each day's rate is the rate of the day before plus
    the change of the day. *)
Fixpoint random_walk (base_rate : float) (variations : list float) : list float :=
  match variations with
  | [] => []
  | v :: rest => let rate := fadd base_rate v in rate :: random_walk rate rest
  end.

(** The point of the day [i] days before [today], for a running rate. *)
Definition simulated_point (today : Z) (i : Z) (rate : float) : HistoricalPoint :=
  {| point_date := strftime "%Y-%m-%d" (today - timedelta_days i);
     point_rate := PFloat (round4 rate);
     point_timestamp := strftime "%Y-%m-%d %H:%M:%S" (today - timedelta_days i) |}.

(** The rate the simulated series starts from. *)
Definition seed_rate (base_currency target_currency : string) (w : World) : float :=
  if is_USD_CNY base_currency target_currency then float_lit 699 (-2)
  else fadd (float_lit 8 (-1))
         (fmul (fsub (float_lit 12 (-1)) (float_lit 8 (-1))) (dice w (rolls w))).

(** How many draws the start takes. *)
Definition seed_draws (base_currency target_currency : string) : nat :=
  if is_USD_CNY base_currency target_currency then 0 else 1.

(** Strictly earlier, by date string. *)
Definition date_lt (p q : HistoricalPoint) : Prop :=
  String.ltb (point_date p) (point_date q) = true.

(** A rate that [round(_, 4)] returned. *)
Definition rounded4 (v : pyval) : Prop := ∃ x, py_round4 x = inr v.

(** The entry of a date lists the target currency: it is an object with
    the currency as a key. *)
Definition lists_target (target_currency : string) (entry : string * pyval) : bool :=
  match entry.2 with
  | PDict r => bool_decide (is_Some (items_get r target_currency))
  | _ => false
  end.

(** The days of the simulated series, oldest first. *)
Definition days_back (today days : Z) : list Z :=
  (λ k : nat, today - timedelta_days (days - Z.of_nat k))
    <$> seq 0 (Z.to_nat (days + 1)).

(** A draw of [random.random()], which lies between 0 and 1. *)
Definition unit_draw (u : float) : Prop :=
  fleb (float_lit 0 0) u = true ∧ fleb u (float_lit 1 0) = true.

(** Between -0.025 and +0.025. *)
Definition small_change (v : float) : Prop :=
  fleb (float_lit (-25) (-3)) v = true ∧ fleb v (float_lit 25 (-3)) = true.

(** The rate for the target currency that an answer contains, present
    and not null. *)
Definition reported_rate (response : HttpOutcome) (target_currency : string)
    : option pyval :=
  match response with
  | Response status_code (Json data) =>
      if status_code =? 200 then
        match rates_get data target_currency with
        | inr rate => if is_not_None rate then Some rate else None
        | inl _ => None
        end
      else None
  | _ => None
  end.

(** A computation that neither looks at the cache nor changes it: on a
    world with another cache it does the same, and leaves that cache. *)
Definition cache_oblivious {A} (m : M A) : Prop :=
  ∀ c w, m (write_cache c w).2 = ((m w).1, (write_cache c (m w).2).2).

(** A code without the separator of the cache keys. *)
Fixpoint plain_code (code : string) : bool :=
  match code with
  | EmptyString => true
  | String c rest => negb (Ascii.eqb c "_") && plain_code rest
  end.

(** The cache keys of the pairs of supported currencies. *)
Definition supported_keys : list string :=
  base_currency ← CURRENCY_DATA.*1;
  target_currency ← CURRENCY_DATA.*1;
  [cache_key base_currency target_currency].

(** The quote of the fetch when no provider yields a rate, for USD to
    CNY on the day of the reading [t] of the clock. *)
Definition default_quote (t : Z) : ApiResult :=
  {| result_rate := PFloat (float_lit 699 (-2));
     result_date := PStr (strftime "%Y-%m-%d" t);
     result_source := "默认汇率(演示)" |}.

(** The quote of the fetch from the answer [d] of the provider
    [api_config] with the rate [rate]. *)
Definition provider_quote (api_config : ApiConfig) (rate : pyval)
    (d : list (string * pyval)) (t : Z) : ApiResult :=
  {| result_rate := rate;
     result_date := default (PStr (strftime "%Y-%m-%d" t)) (items_get d "date");
     result_source := api_name api_config |}.

(** The [k]-th provider is the first to answer with a rate. *)
Definition first_answer (w : World) (k : nat) (api_config : ApiConfig)
    (base_currency target_currency : string)
    (rate : pyval) (d : list (string * pyval)) : Prop :=
  EXCHANGE_RATE_APIS !! k = Some api_config ∧
  (∀ j api_config', (j < k)%nat → EXCHANGE_RATE_APIS !! j = Some api_config' →
     provider_fails w j api_config' base_currency target_currency) ∧
  provider_answers w k api_config base_currency target_currency rate d.

(** The envelope of a JSON answer: a timestamp, and either status 200
    with [success] true and no error, or one of the error statuses with
    [success] false and an error message. *)
Definition envelope (status : Z) (json : list (string * pyval)) : Prop :=
  (∃ timestamp, assoc_get json "timestamp" = Some (PStr timestamp)) ∧
  ((status = 200 ∧ assoc_get json "success" = Some (PBool true) ∧
    assoc_get json "error" = None) ∨
   ((status = 400 ∨ status = 404 ∨ status = 500 ∨ status = 503) ∧
    assoc_get json "success" = Some (PBool false) ∧
    ∃ message, assoc_get json "error" = Some (PStr message))).

(** The answer that refuses a currency code. *)
Definition refusal (what code : string) (t : Z) : Outcome :=
  Reply 400 [("success", PBool false);
             ("error", PStr (what +:+ code));
             ("timestamp", PStr (strftime "%Y-%m-%d %H:%M:%S" t))].

(** An entry of a date that the loop over the dates cannot use: it is
    null, a boolean or a number; or an object whose rate for the target
    currency is null, a string, an array or an object; or an array or a
    string that contains the target currency. *)
Definition unusable_entry (target_currency : string) (entry : pyval) : Prop :=
  match entry with
  | PNone | PBool _ | PInt _ | PFloat _ => True
  | PDict r =>
      match items_get r target_currency with
      | Some (PNone | PStr _ | PList _ | PDict _) => True
      | _ => False
      end
  | PList l => PStr target_currency ∈ l
  | PStr s => is_substring target_currency s = true
  end.

(** From [w] to [w'] at most [n] requests were sent, and none of the
    requests sent before was forgotten. *)
Definition sends_at_most (n : nat) (w w' : World) : Prop :=
  ∃ more, sent w' = sent w ++ more ∧ (length more ≤ n)%nat.

End Server.

(** * Worlds to run requests in *)

(** 2026-11-03 12:00:00 *)
Definition noon : Z := 739922 * 86400000000 + 43200000000.

(** A server just started: an empty cache, a clock that advances by a
    second at each reading, and draws that are all 0.5. *)
Definition started (net : nat → string → Z → @HttpOutcome PrimFloat.float)
    : @World PrimFloat.float :=
  {| exchange_rate_cache := ∅;
     clock := λ n, noon + Z.of_nat n * 1000000; ticks := 0;
     network := net; sent := [];
     dice := λ _, 0.5%float; rolls := 0 |}.

(** No provider can be reached. *)
Definition offline : nat → string → Z → @HttpOutcome PrimFloat.float :=
  λ _ _ _, ConnectionError.

(** The first provider reports a rate of 0, the second a rate of 7.1. *)
Definition zero_then_rate : nat → string → Z → @HttpOutcome PrimFloat.float :=
  λ _ url _,
    if String.eqb url "https://api.exchangerate-api.com/v4/latest/USD" then
      Response 200 (Json (PDict [("rates", PDict [("CNY", PInt 0)])]))
    else if String.eqb url "https://api.frankfurter.app/latest?from=USD&to=CNY" then
      Response 200 (Json (PDict [("date", PStr "2026-11-02");
                                 ("rates", PDict [("CNY", PFloat 7.1%float)])]))
    else Timeout.

(** The first provider times out, the second reports a rate of 7.1. *)
Definition timeout_then_rate : nat → string → Z → @HttpOutcome PrimFloat.float :=
  λ _ url _,
    if String.eqb url "https://api.frankfurter.app/latest?from=USD&to=CNY" then
      Response 200 (Json (PDict [("date", PStr "2026-11-02");
                                 ("rates", PDict [("CNY", PFloat 7.1%float)])]))
    else Timeout.

(** Only the range endpoint answers, with the rate of a single day. *)
Definition one_day_of_history : nat → string → Z → @HttpOutcome PrimFloat.float :=
  λ _ url _,
    if String.prefix "https://api.frankfurter.app/2026-" url then
      Response 200
        (Json (PDict [("base", PStr "USD");
                      ("rates", PDict [("2026-11-02",
                                        PDict [("CNY", PFloat 7.12345%float)])])]))
    else ConnectionError.

(** Only the first provider answers, with a rate of 7.1 and no date. *)
Definition first_answers : nat → string → Z → @HttpOutcome PrimFloat.float :=
  λ _ url _,
    if String.eqb url "https://api.exchangerate-api.com/v4/latest/USD" then
      Response 200 (Json (PDict [("base", PStr "USD");
                                 ("rates", PDict [("CNY", PFloat 7.1%float)])]))
    else Timeout.

(** Every provider answers with a rate of 7.1, whatever it is asked. *)
Definition always_answers : nat → string → Z → @HttpOutcome PrimFloat.float :=
  λ _ _ _,
    Response 200 (Json (PDict [("rates", PDict [("CNY", PFloat 7.1%float)])])).

(** The answer to a first request for USD to CNY when the first provider
    answers. *)
Definition fresh_reply : list (string * @pyval PrimFloat.float) :=
  match (@get_exchange_rate _ Runtime.binary64 [] (started first_answers)).1 with
  | Reply _ json => json
  | Raised _ => []
  end.

(** A server whose cache holds, since the second before, the rate 0.0
    for USD to CNY, and its answer to a request for this pair. *)
Definition zero_in_cache : @World PrimFloat.float :=
  (set_cached_rate "USD" "CNY" (PFloat 0%float) "manual" (started offline)).2.

Definition cached_zero_reply : list (string * @pyval PrimFloat.float) :=
  match (@get_exchange_rate _ Runtime.binary64 [] zero_in_cache).1 with
  | Reply _ json => json
  | Raised _ => []
  end.

(** Draws that differ: 0.25, 0.75, 0.1 and 1, and 0 from then on. *)
Definition draws (n : nat) : PrimFloat.float :=
  match n with
  | 0%nat => 0.25%float
  | 1%nat => 0.75%float
  | 2%nat => 0.1%float
  | 3%nat => 1%float
  | _ => 0%float
  end.

(** A server just started that no provider answers, with these draws. *)
Definition rolling : @World PrimFloat.float :=
  {| exchange_rate_cache := ∅;
     clock := λ n, noon + Z.of_nat n * 1000000; ticks := 0;
     network := offline; sent := [];
     dice := draws; rolls := 0 |}.

(** Every provider reports the rate as a string. *)
Definition string_rate : nat → string → Z → @HttpOutcome PrimFloat.float :=
  λ _ _ _, Response 200 (Json (PDict [("rates", PDict [("CNY", PStr "7.1")])])).

(** The answer to a first request for USD to CNY when the providers
    report the rate as a string. *)
Definition string_rate_reply : list (string * @pyval PrimFloat.float) :=
  match (@get_exchange_rate _ Runtime.binary64 [] (started string_rate)).1 with
  | Reply _ json => json
  | Raised _ => []
  end.

(** A series with a rate for one day and null for the next. *)
Definition series_with_null : @pyval PrimFloat.float :=
  PDict [("base", PStr "USD");
         ("rates", PDict [("2026-11-01", PDict [("CNY", PFloat 7.1%float)]);
                          ("2026-11-02", PDict [("CNY", PNone)])])].

(** Only the range endpoint, which is asked with a timeout of 15
    seconds, answers, with that series. *)
Definition null_in_series : nat → string → Z → @HttpOutcome PrimFloat.float :=
  λ _ _ timeout,
    if timeout =? 15 then Response 200 (Json series_with_null) else ConnectionError.

(** The answer to a second request for USD to CNY, after a first one
    that the first provider answered. *)
Definition second_reply : list (string * @pyval PrimFloat.float) :=
  match (@get_exchange_rate _ Runtime.binary64 []
           (@serve_all _ Runtime.binary64 [GET_exchange_rate []]
              (started first_answers)).2).1 with
  | Reply _ json => json
  | Raised _ => []
  end.

(** * Properties *)

Section Properties.
Context {float : Type} `{!Python float}.

(** In this section every type and function is at the section's [float]. *)
#[local] Abbreviation pyval := (@pyval float) (only parsing).
#[local] Abbreviation CacheEntry := (@CacheEntry float) (only parsing).
#[local] Abbreviation JsonBody := (@JsonBody float) (only parsing).
#[local] Abbreviation HttpOutcome := (@HttpOutcome float) (only parsing).
#[local] Abbreviation World := (@World float) (only parsing).
#[local] Abbreviation M := (@M float) (only parsing).
#[local] Abbreviation ApiResult := (@ApiResult float) (only parsing).
#[local] Abbreviation HistoricalPoint := (@HistoricalPoint float) (only parsing).
#[local] Abbreviation Outcome := (@Outcome float) (only parsing).
#[local] Abbreviation type_name := (@type_name float) (only parsing).
#[local] Abbreviation is_not_None := (@is_not_None float) (only parsing).
#[local] Abbreviation items_get := (@items_get float) (only parsing).
#[local] Abbreviation items := (@items float) (only parsing).
#[local] Abbreviation py_get := (@py_get float) (only parsing).
#[local] Abbreviation now := (@now float) (only parsing).
#[local] Abbreviation requests_get := (@requests_get float) (only parsing).
#[local] Abbreviation random_random := (@random_random float) (only parsing).
#[local] Abbreviation read_cache := (@read_cache float) (only parsing).
#[local] Abbreviation write_cache := (@write_cache float) (only parsing).
#[local] Abbreviation get_cached_rate := (@get_cached_rate float) (only parsing).
#[local] Abbreviation set_cached_rate := (@set_cached_rate float) (only parsing).
#[local] Abbreviation clear_cache_store := (@clear_cache_store float) (only parsing).
#[local] Abbreviation rates_get := (@rates_get float) (only parsing).
#[local] Abbreviation api_extract_rate := (@api_extract_rate float) (only parsing).
#[local] Abbreviation date_le := (@date_le float) (only parsing).
#[local] Abbreviation point_json := (@point_json float) (only parsing).
#[local] Abbreviation frame := (@frame float) (only parsing).
#[local] Abbreviation provider_error := (@provider_error float) (only parsing).
#[local] Abbreviation rolled := (@rolled float) (only parsing).
#[local] Abbreviation date_lt := (@date_lt float) (only parsing).
#[local] Abbreviation reported_rate := (@reported_rate float) (only parsing).
#[local] Abbreviation currency_json := (@currency_json float) (only parsing).

(** ** Running computations *)

Lemma run_bind {A B} (m : M A) (f : A → M B) (w : World) :
  (m ≫= f) w = f (m w).1 (m w).2.
Proof. unfold mbind, M_bind. by destruct (m w). Qed.

(** ** The rate cache *)

(** C4. [get_cached_rate] returns the stored rate and source exactly when
    the cache holds an entry under the key of the pair and the reading of
    the clock taken by the read is less than 300 seconds after the
    entry's timestamp; otherwise it returns [(None, None)]; and in every
    case it leaves the cache as it was, an expired entry included. *)
Theorem get_cached_rate_spec (base_currency target_currency : string) (w : World) :
  let r := (get_cached_rate base_currency target_currency w).1 in
  let w' := (get_cached_rate base_currency target_currency w).2 in
  let fresh e := clock w (ticks w) - cache_timestamp e < timedelta_seconds 300 in
  match exchange_rate_cache w !! cache_key base_currency target_currency with
  | Some e =>
      (fresh e ∧ r = (cache_rate e, PStr (cache_source e))) ∨
      (¬ fresh e ∧ r = (PNone, PNone))
  | None => r = (PNone, PNone)
  end ∧
  exchange_rate_cache w' = exchange_rate_cache w.
Proof.
  unfold get_cached_rate. rewrite run_bind. cbn [read_cache fst snd].
  destruct (exchange_rate_cache w !! _) as [e|] eqn:He; [|done].
  rewrite run_bind. cbn [now fst snd].
  unfold CACHE_DURATION. case_bool_decide; cbn; split; auto.
Qed.

(** ** The upstream fetcher *)

Lemma frame_refl w : frame w w.
Proof. by repeat split. Qed.

Lemma frame_trans w1 w2 w3 : frame w1 w2 → frame w2 w3 → frame w1 w3.
Proof.
  intros (?&?&?&?&?) (?&?&?&?&?). repeat split; congruence.
Qed.

Lemma api_extract_rate_named api_config base_currency target_currency url data :
  api_request_url api_config base_currency target_currency = inr url →
  api_extract_rate api_config data target_currency = rates_get data target_currency.
Proof.
  unfold api_request_url, api_extract_rate.
  repeat case_match; congruence.
Qed.

Lemma rates_get_dict data target_currency rate :
  rates_get data target_currency = inr rate → ∃ d, data = PDict d.
Proof.
  unfold rates_get, py_get. destruct data; try discriminate. eauto.
Qed.

Lemma try_api_answers api_config base_currency target_currency w rate d :
  provider_answers w 0 api_config base_currency target_currency rate d →
  ∃ url w',
    api_request_url api_config base_currency target_currency = inr url ∧
    try_api api_config base_currency target_currency w =
      (inr {| result_rate := rate;
              result_date := default (PStr (strftime "%Y-%m-%d" (clock w (ticks w))))
                               (items_get d "date");
              result_source := api_name api_config |}, w') ∧
    frame w w' ∧ sent w' = sent w ++ [url] ∧ ticks w' = S (ticks w).
Proof.
  intros (url & Hurl & Hans). exists url.
  unfold try_api. rewrite Hurl, run_bind. cbn [requests_get fst snd].
  rewrite Nat.add_0_r in Hans.
  destruct (network w _ url _) as [| | | |status body]; try discriminate.
  unfold answer in Hans.
  destruct body as [data| |]; try discriminate.
  destruct data; try discriminate.
  destruct (status =? 200); try discriminate.
  rewrite (api_extract_rate_named _ _ _ _ _ Hurl).
  destruct (rates_get _ _) as [|rate']; try discriminate.
  destruct (truthy rate') eqn:Ht; try discriminate.
  injection Hans as -> ->.
  rewrite run_bind. cbn.
  eexists. split; [done|]. split; [reflexivity|]. by repeat split.
Qed.

Lemma try_api_fails api_config base_currency target_currency w :
  provider_fails w 0 api_config base_currency target_currency →
  ∃ url error w',
    api_request_url api_config base_currency target_currency = inr url ∧
    try_api api_config base_currency target_currency w = (inl error, w') ∧
    frame w w' ∧ sent w' = sent w ++ [url] ∧ ticks w' = ticks w.
Proof.
  intros (url & Hurl & Hans). exists url.
  unfold try_api. rewrite Hurl, run_bind. cbn [requests_get fst snd].
  rewrite Nat.add_0_r in Hans.
  destruct (network w _ url _) as [| | | |status body];
    try (eexists _, _; split; [done|]; split; [reflexivity|]; by repeat split).
  unfold answer in Hans.
  destruct (status =? 200) eqn:Hs;
    [|eexists _, _; split; [done|]; split; [reflexivity|]; by repeat split].
  destruct body as [data| |];
    try (eexists _, _; split; [done|]; split; [reflexivity|]; by repeat split).
  rewrite (api_extract_rate_named _ _ _ _ _ Hurl).
  destruct (rates_get data _) as [e|rate] eqn:Hr;
    [eexists _, _; split; [done|]; split; [reflexivity|]; by repeat split|].
  destruct (rates_get_dict _ _ _ Hr) as [d ->]. rewrite Hr in Hans.
  destruct (truthy rate); [discriminate|].
  eexists _, _; split; [done|]; split; [reflexivity|]; by repeat split.
Qed.

Lemma urls_of_cons api_config apis base_currency target_currency url :
  api_request_url api_config base_currency target_currency = inr url →
  urls_of (api_config :: apis) base_currency target_currency
    = url :: urls_of apis base_currency target_currency.
Proof. intros Hurl. unfold urls_of. simpl. by rewrite Hurl. Qed.

Lemma provider_fails_shift w w' url k api_config base_currency target_currency :
  frame w w' → sent w' = sent w ++ [url] →
  provider_fails w (S k) api_config base_currency target_currency →
  provider_fails w' k api_config base_currency target_currency.
Proof.
  intros (_&_&Hnet&_) Hsent (u & Hu & Ha). exists u. split; [done|].
  rewrite Hnet, Hsent, length_app. cbn [length].
  by replace (length (sent w) + 1 + k)%nat with (length (sent w) + S k)%nat by lia.
Qed.

Lemma provider_answers_shift w w' url k api_config base_currency target_currency rate d :
  frame w w' → sent w' = sent w ++ [url] →
  provider_answers w (S k) api_config base_currency target_currency rate d →
  provider_answers w' k api_config base_currency target_currency rate d.
Proof.
  intros (_&_&Hnet&_) Hsent (u & Hu & Ha). exists u. split; [done|].
  rewrite Hnet, Hsent, length_app. cbn [length].
  by replace (length (sent w) + 1 + k)%nat with (length (sent w) + S k)%nat by lia.
Qed.

(** When every provider of [apis] fails, the loop tries them all, appends
    one diagnostic for each, and ends without a result. *)
Lemma try_apis_all_fail apis base_currency target_currency errors w :
  (∀ k api_config, apis !! k = Some api_config →
     provider_fails w k api_config base_currency target_currency) →
  ∃ errors' w',
    try_apis apis base_currency target_currency errors w
      = ((None, errors ++ errors'), w') ∧
    length errors' = length apis ∧
    frame w w' ∧ ticks w' = ticks w ∧
    sent w' = sent w ++ urls_of apis base_currency target_currency.
Proof.
  revert errors w. induction apis as [|api_config rest IH]; intros errors w Hall.
  - exists [], w. rewrite !app_nil_r. by repeat split.
  - destruct (try_api_fails api_config base_currency target_currency w)
      as (url & error & w1 & Hurl & Hrun & Hframe & Hsent & Hticks);
      [exact (Hall 0%nat api_config eq_refl)|].
    destruct (IH (errors ++ [error]) w1) as (errors' & w' & Hrest & Hlen & Hframe' & Hticks' & Hsent').
    { intros k a Hk. eapply provider_fails_shift; [done..|]. by apply (Hall (S k)). }
    exists (error :: errors'), w'.
    cbn [try_apis]. rewrite run_bind, Hrun. cbn [fst snd].
    rewrite Hrest, <- app_assoc. split; [done|].
    split; [cbn; lia|]. split; [by eapply frame_trans|]. split; [congruence|].
    rewrite (urls_of_cons _ _ _ _ _ Hurl), Hsent', Hsent, <- app_assoc. done.
Qed.

(** When the providers before the [k]-th fail and the [k]-th answers with
    a rate, the loop returns that rate, the date the answer reports (or
    today's), and the name of that provider; it has appended one
    diagnostic for each provider before, and has requested nothing from
    the providers after. *)
Lemma try_apis_first_answer apis base_currency target_currency errors w
    k api_config rate d :
  apis !! k = Some api_config →
  (∀ j api_config', (j < k)%nat → apis !! j = Some api_config' →
     provider_fails w j api_config' base_currency target_currency) →
  provider_answers w k api_config base_currency target_currency rate d →
  ∃ errors' w',
    try_apis apis base_currency target_currency errors w
      = ((Some {| result_rate := rate;
                  result_date :=
                    default (PStr (strftime "%Y-%m-%d" (clock w (ticks w))))
                      (items_get d "date");
                  result_source := api_name api_config |},
          errors ++ errors'), w') ∧
    length errors' = k ∧
    frame w w' ∧ ticks w' = S (ticks w) ∧
    sent w' = sent w ++ urls_of (take (S k) apis) base_currency target_currency.
Proof.
  revert errors w k. induction apis as [|a rest IH]; intros errors w k Hk Hbefore Hans;
    [done|].
  destruct k as [|k].
  - injection Hk as ->.
    destruct (try_api_answers api_config base_currency target_currency w rate d Hans)
      as (url & w' & Hurl & Hrun & Hframe & Hsent & Hticks).
    exists [], w'. cbn [try_apis]. rewrite run_bind, Hrun. cbn [fst snd].
    rewrite app_nil_r. split; [done|]. split; [done|]. split; [done|]. split; [done|].
    cbn [take]. by rewrite (urls_of_cons _ _ _ _ _ Hurl).
  - cbn in Hk.
    destruct (try_api_fails a base_currency target_currency w)
      as (url & error & w1 & Hurl & Hrun & Hframe & Hsent & Hticks);
      [apply (Hbefore 0%nat a); [lia|done]|].
    destruct (IH (errors ++ [error]) w1 k Hk) as (errors' & w' & Hrest & Hlen & Hframe' & Hticks' & Hsent').
    { intros j a' Hj Ha'. eapply provider_fails_shift; [done..|].
      apply (Hbefore (S j)); [lia|done]. }
    { by eapply provider_answers_shift. }
    exists (error :: errors'), w'.
    cbn [try_apis]. rewrite run_bind, Hrun. cbn [fst snd].
    pose proof Hframe as (Hc & Hclock & Hrest').
    rewrite Hrest, <- app_assoc, Hclock, Hticks. split; [done|].
    split; [cbn; lia|]. split; [by eapply frame_trans|].
    split; [congruence|].
    cbn [take]. rewrite (urls_of_cons _ _ _ _ _ Hurl), Hsent', Hsent, <- app_assoc. done.
Qed.

Lemma all_providers_fail_frame w w' base_currency target_currency :
  frame w w' → sent w' = sent w →
  all_providers_fail w base_currency target_currency →
  all_providers_fail w' base_currency target_currency.
Proof.
  intros (_&_&Hnet&_) Hsent Hall k a Hk.
  destruct (Hall k a Hk) as (url & Hurl & Ha). exists url.
  by rewrite Hnet, Hsent.
Qed.

Lemma is_USD_CNY_true base_currency target_currency :
  is_USD_CNY base_currency target_currency = true ↔
  base_currency = "USD" ∧ target_currency = "CNY".
Proof.
  unfold is_USD_CNY. rewrite andb_true_iff, !String.eqb_eq. done.
Qed.

(** The fetch when every provider fails: the fixed quote for USD to CNY,
    and nothing for any other pair, after all providers were asked. *)
Lemma fetch_all_fail base_currency target_currency w :
  all_providers_fail w base_currency target_currency →
  ∃ w',
    get_exchange_rate_from_api base_currency target_currency w
      = (if is_USD_CNY base_currency target_currency
         then Some {| result_rate := PFloat (float_lit 699 (-2));
                      result_date := PStr (strftime "%Y-%m-%d" (clock w (ticks w)));
                      result_source := "默认汇率(演示)" |}
         else None, w') ∧
    frame w w' ∧
    sent w' = sent w ++ urls_of EXCHANGE_RATE_APIS base_currency target_currency.
Proof.
  intros Hall.
  destruct (try_apis_all_fail EXCHANGE_RATE_APIS base_currency target_currency [] w Hall)
    as (errors & w1 & Hrun & _ & Hframe & Hticks & Hsent).
  unfold get_exchange_rate_from_api. rewrite run_bind, Hrun. cbn [fst snd].
  fold (is_USD_CNY base_currency target_currency).
  destruct (is_USD_CNY _ _).
  - rewrite run_bind. cbn [now fst snd].
    destruct Hframe as (? & Hclock & ? & ? & ?). rewrite Hclock, Hticks.
    eexists. split; [reflexivity|]. by repeat split.
  - exists w1. split; [reflexivity|]. by split.
Qed.

(** The fetch when a provider answers after the ones before it failed. *)
Lemma fetch_first_answer base_currency target_currency w k api_config rate d :
  EXCHANGE_RATE_APIS !! k = Some api_config →
  (∀ j api_config', (j < k)%nat → EXCHANGE_RATE_APIS !! j = Some api_config' →
     provider_fails w j api_config' base_currency target_currency) →
  provider_answers w k api_config base_currency target_currency rate d →
  ∃ w',
    get_exchange_rate_from_api base_currency target_currency w
      = (Some {| result_rate := rate;
                 result_date :=
                   default (PStr (strftime "%Y-%m-%d" (clock w (ticks w))))
                     (items_get d "date");
                 result_source := api_name api_config |}, w') ∧
    frame w w' ∧
    sent w' = sent w ++ urls_of (take (S k) EXCHANGE_RATE_APIS)
                          base_currency target_currency.
Proof.
  intros Hk Hbefore Hans.
  destruct (try_apis_first_answer EXCHANGE_RATE_APIS base_currency target_currency
              [] w k api_config rate d Hk Hbefore Hans)
    as (errors & w' & Hrun & _ & Hframe & _ & Hsent).
  unfold get_exchange_rate_from_api. rewrite run_bind, Hrun. cbn [fst snd].
  exists w'. split; [reflexivity|]. by split.
Qed.

(** The fetch never touches the cache, the oracles or the dice. *)
Lemma try_api_frame api_config base_currency target_currency w :
  frame w (try_api api_config base_currency target_currency w).2.
Proof.
  unfold try_api. destruct (api_request_url _ _ _); [apply frame_refl|].
  rewrite run_bind. cbn [requests_get fst snd].
  destruct (network w _ _ _) as [| | | |status body]; try by repeat split.
  destruct (status =? 200); [|by repeat split].
  destruct body; try by repeat split.
  destruct (api_extract_rate _ _ _); [by repeat split|].
  destruct (truthy _); [|by repeat split].
  rewrite run_bind. cbn [now fst snd].
  destruct (py_get _ _ _); by repeat split.
Qed.

Lemma try_apis_frame apis base_currency target_currency errors w :
  frame w (try_apis apis base_currency target_currency errors w).2.
Proof.
  revert errors w. induction apis as [|a rest IH]; intros errors w;
    [apply frame_refl|].
  cbn [try_apis]. rewrite run_bind.
  pose proof (try_api_frame a base_currency target_currency w) as Hf.
  destruct (try_api a base_currency target_currency w) as [[error|result] w1];
    cbn [fst snd] in *; [|done].
  eapply frame_trans; [done|apply IH].
Qed.

Lemma fetch_frame base_currency target_currency w :
  frame w (get_exchange_rate_from_api base_currency target_currency w).2.
Proof.
  unfold get_exchange_rate_from_api. rewrite run_bind.
  pose proof (try_apis_frame EXCHANGE_RATE_APIS base_currency target_currency [] w) as Hf.
  destruct (try_apis _ _ _ _ w) as [[[result|] errors] w1]; cbn [fst snd] in *; [done|].
  destruct (_ && _); [|done].
  rewrite run_bind. eapply frame_trans; [done|]. by repeat split.
Qed.

Lemma append_empty_r (s : string) : s +:+ "" = s.
Proof.
  induction s as [|c s IH]; [done|].
  change (String c (s +:+ "") = String c s). by rewrite IH.
Qed.

(** The three URLs, in the order of the configuration. *)
Lemma urls_of_EXCHANGE_RATE_APIS base_currency target_currency :
  urls_of EXCHANGE_RATE_APIS base_currency target_currency =
    ["https://api.exchangerate-api.com/v4/latest/" +:+ base_currency;
     "https://api.frankfurter.app/latest?from=" +:+ base_currency
       +:+ "&to=" +:+ target_currency;
     "https://open.er-api.com/v6/latest/" +:+ base_currency].
Proof.
  trans ["https://api.exchangerate-api.com/v4/latest/" +:+ base_currency +:+ "";
         "https://api.frankfurter.app/latest?from=" +:+ base_currency
           +:+ "&to=" +:+ target_currency +:+ "";
         "https://open.er-api.com/v6/latest/" +:+ base_currency +:+ ""].
  - reflexivity.
  - by rewrite !append_empty_r.
Qed.

Lemma provider_error_no_answer response target_currency :
  provider_error response target_currency → answer response target_currency = None.
Proof.
  intros [->|[->|[[m ->]|[[m ->]|[(s & b & -> & Hs)|[->|[[m ->]|[(data & e & -> & He)|(data & -> & He)]]]]]]]];
    try done.
  - unfold answer. destruct b as [[]| |]; try done. by destruct (Z.eqb_spec s 200).
  - unfold answer. destruct data; try done. by rewrite He.
  - unfold answer. destruct data; try done. by rewrite He.
Qed.

(** C1, as the code has it.  The providers are tried in the order
    ExchangeRate-API, Frankfurter, OpenExchangeRates.  When the providers
    before the [k]-th each fail in any way (time out, fail to connect,
    answer with a status other than 200, with malformed JSON or without a
    rate) and the [k]-th answers with status 200 and a rate for the target
    currency that Python counts as true, the fetch returns that rate, the
    date the answer reports (today's date if it reports none) and the name
    of the [k]-th provider; one diagnostic was recorded for each provider
    before it, and no request went to the providers after it. *)
Theorem fetch_returns_first_true_rate (base_currency target_currency : string)
    (w : World) (k : nat) (api_config : ApiConfig)
    (rate : pyval) (d : list (string * pyval)) :
  EXCHANGE_RATE_APIS !! k = Some api_config →
  (∀ j api_config', (j < k)%nat → EXCHANGE_RATE_APIS !! j = Some api_config' →
     provider_fails w j api_config' base_currency target_currency) →
  provider_answers w k api_config base_currency target_currency rate d →
  api_name <$> EXCHANGE_RATE_APIS = ["ExchangeRate-API"; "Frankfurter"; "OpenExchangeRates"] ∧
  (∀ response, provider_error response target_currency →
     answer response target_currency = None) ∧
  truthy rate = true ∧
  let result := {| result_rate := rate;
                   result_date :=
                     default (PStr (strftime "%Y-%m-%d" (clock w (ticks w))))
                       (items_get d "date");
                   result_source := api_name api_config |} in
  (get_exchange_rate_from_api base_currency target_currency w).1 = Some result ∧
  (∃ errors,
     (try_apis EXCHANGE_RATE_APIS base_currency target_currency [] w).1
       = (Some result, errors) ∧ length errors = k) ∧
  sent (get_exchange_rate_from_api base_currency target_currency w).2
    = sent w ++ take (S k)
        ["https://api.exchangerate-api.com/v4/latest/" +:+ base_currency;
         "https://api.frankfurter.app/latest?from=" +:+ base_currency
           +:+ "&to=" +:+ target_currency;
         "https://open.er-api.com/v6/latest/" +:+ base_currency].
Proof.
  intros Hk Hbefore Hans.
  split; [done|]. split; [intros response; apply provider_error_no_answer|].
  split.
  { destruct Hans as (url & _ & Ha). unfold answer in Ha.
    repeat case_match; try discriminate. by injection Ha as <- _. }
  intros result.
  destruct (fetch_first_answer _ _ _ _ _ _ _ Hk Hbefore Hans) as (w' & Hfetch & _ & Hsent).
  destruct (try_apis_first_answer _ _ _ [] _ _ _ _ _ Hk Hbefore Hans)
    as (errors & w1 & Hrun & Hlen & _).
  rewrite Hfetch. cbn [fst snd]. split; [done|].
  split; [exists errors; by rewrite Hrun|].
  rewrite Hsent. f_equal.
  rewrite <- urls_of_EXCHANGE_RATE_APIS.
  destruct k as [|[|[|k]]]; try done.
  all: unfold urls_of, EXCHANGE_RATE_APIS, api_request_url; cbn; done.
Qed.

Lemma get_cached_rate_frame base_currency target_currency w :
  frame w (get_cached_rate base_currency target_currency w).2 ∧
  sent (get_cached_rate base_currency target_currency w).2 = sent w.
Proof.
  unfold get_cached_rate. rewrite run_bind. cbn [read_cache fst snd].
  destruct (exchange_rate_cache w !! _); [|by repeat split].
  rewrite run_bind. cbn [now fst snd]. case_bool_decide; by repeat split.
Qed.

(** ** The exchange-rate endpoint *)

(** C2. When every provider fails to yield a rate: for USD to CNY the
    fetch returns the quote with rate 6.99 and the source
    "默认汇率(演示)" (default rate, demo); for any other pair the fetch
    returns nothing, and the exchange-rate endpoint, which runs the fetch
    for a supported pair that the cache does not serve, then answers with
    status 503 and [success] false. *)
Theorem all_providers_fail_fallback (base_currency target_currency : string)
    (w : World) :
  all_providers_fail w base_currency target_currency →
  (base_currency = "USD" ∧ target_currency = "CNY" →
     ∃ result,
       (get_exchange_rate_from_api base_currency target_currency w).1 = Some result ∧
       result_rate result = PFloat (float_lit 699 (-2)) ∧
       result_source result = "默认汇率(演示)") ∧
  (¬ (base_currency = "USD" ∧ target_currency = "CNY") →
     (get_exchange_rate_from_api base_currency target_currency w).1 = None ∧
     ∀ args,
       str_upper (args_get args "base" "USD") = base_currency →
       str_upper (args_get args "target" "CNY") = target_currency →
       in_CURRENCY_DATA base_currency = true →
       in_CURRENCY_DATA target_currency = true →
       (get_cached_rate base_currency target_currency w).1.1 = PNone →
       ∃ json,
         (get_exchange_rate args w).1 = Reply 503 json ∧
         assoc_get json "success" = Some (PBool false)).
Proof.
  intros Hall.
  destruct (fetch_all_fail _ _ _ Hall) as (w' & Hfetch & _).
  split.
  - intros Hpair. apply is_USD_CNY_true in Hpair.
    rewrite Hfetch, Hpair. eexists. by repeat split.
  - intros Hpair. rewrite <- is_USD_CNY_true in Hpair.
    apply not_true_is_false in Hpair.
    split; [by rewrite Hfetch, Hpair|].
    intros args Hb Ht Hbase Htarget Hmiss.
    unfold get_exchange_rate. rewrite Hb, Ht, Hbase, Htarget. cbn [negb].
    rewrite run_bind.
    destruct (get_cached_rate_frame base_currency target_currency w) as [Hframe Hsent].
    destruct (get_cached_rate base_currency target_currency w) as [[cached_rate cached_source] w0].
    cbn [fst snd] in *. subst cached_rate. cbn [is_not_None].
    destruct (fetch_all_fail base_currency target_currency w0) as (w1 & Hfetch0 & _);
      [by eapply all_providers_fail_frame|].
    rewrite run_bind, Hfetch0, Hpair. cbn [fst snd].
    rewrite run_bind. cbn [now fst snd]. eexists. split; [reflexivity|done].
Qed.

Lemma inverse_of_spec rate inverse_rate :
  inverse_of rate = inr inverse_rate →
  (ne_zero rate = true → one_over rate = inr inverse_rate) ∧
  (ne_zero rate = false → inverse_rate = PInt 0).
Proof.
  unfold inverse_of. destruct (ne_zero rate); intros Hi; split; try done.
  by injection Hi.
Qed.

Lemma unsupported_fails what code w status json :
  (unsupported what code w).1 = Reply status json →
  status = 400 ∧ assoc_get json "success" = Some (PBool false) ∧
  assoc_get json "error" = Some (PStr (what +:+ code)).
Proof.
  unfold unsupported. rewrite run_bind. cbn [now fst snd].
  intros [= <- <-]. done.
Qed.


Lemma server_error_fails message w status json :
  (server_error message w).1 = Reply status json →
  status = 500 ∧ assoc_get json "success" = Some (PBool false).
Proof.
  unfold server_error. rewrite run_bind. cbn [now fst snd].
  intros [= <- <-]. done.
Qed.

(** What [1 / rate if rate != 0 else 0] is for each type of rate: the
    quotient of the floats for a float, the true division of the
    integers for an [int] or a [bool], and the integer 0 for a zero of any
    of the three; no other type gives a value. *)
Lemma inverse_of_cases rate inverse_rate :
  inverse_of rate = inr inverse_rate →
  match rate with
  | PFloat x =>
      inverse_rate = if feqb x (float_lit 0 0) then PInt 0
                     else PFloat (fdiv (float_lit 1 0) x)
  | PInt n => inverse_rate = if n =? 0 then PInt 0 else PFloat (int_truediv 1 n)
  | PBool b => inverse_rate = if b then PFloat (int_truediv 1 1) else PInt 0
  | _ => False
  end.
Proof.
  unfold inverse_of.
  destruct rate as [|b|n|x|s|l|d]; cbn [ne_zero one_over]; try done.
  - destruct b; by intros [= <-].
  - destruct (n =? 0); cbn [negb]; by intros [= <-].
  - destruct (feqb x (float_lit 0 0)); cbn [negb]; by intros [= <-].
Qed.

(** C8. In every answer of the exchange-rate endpoint with [success]
    true, served from the cache or freshly fetched, [exchange_rate] is a
    float, an [int] or a [bool], and [inverse_rate] is the float
    [1.0 / exchange_rate] for a float that is not zero, the true division
    [1 / exchange_rate] for an [int] or a [bool] that is not zero, and the
    integer [0] when [exchange_rate] is zero. *)
Theorem inverse_rate_spec (args : list (string * string)) (w : World)
    (status : Z) (json : list (string * pyval)) :
  (get_exchange_rate args w).1 = Reply status json →
  assoc_get json "success" = Some (PBool true) →
  ∃ exchange_rate inverse_rate,
    assoc_get json "exchange_rate" = Some exchange_rate ∧
    assoc_get json "inverse_rate" = Some inverse_rate ∧
    match exchange_rate with
    | PFloat x =>
        inverse_rate = if feqb x (float_lit 0 0) then PInt 0
                       else PFloat (fdiv (float_lit 1 0) x)
    | PInt n =>
        inverse_rate = if n =? 0 then PInt 0 else PFloat (int_truediv 1 n)
    | PBool b =>
        inverse_rate = if b then PFloat (int_truediv 1 1) else PInt 0
    | _ => False
    end ∧
    (ne_zero exchange_rate = true → one_over exchange_rate = inr inverse_rate) ∧
    (ne_zero exchange_rate = false → inverse_rate = PInt 0) ∧
    (assoc_get json "cached" = Some (PBool true) ∨
     assoc_get json "cached" = Some (PBool false)).
Proof.
  unfold get_exchange_rate.
  set (base_currency := str_upper _). set (target_currency := str_upper _).
  destruct (in_CURRENCY_DATA base_currency); cbn [negb].
  2:{ intros Hr Hs. apply unsupported_fails in Hr as (_ & Hr & _). congruence. }
  destruct (in_CURRENCY_DATA target_currency); cbn [negb].
  2:{ intros Hr Hs. apply unsupported_fails in Hr as (_ & Hr & _). congruence. }
  rewrite run_bind.
  destruct (get_cached_rate base_currency target_currency w)
    as [[cached_rate cached_source] w0]. cbn [fst snd].
  destruct (is_not_None cached_rate).
  - destruct (inverse_of cached_rate) as [e|inverse_rate] eqn:Hinv; [done|].
    destruct (name_of base_currency); [done|].
    destruct (name_of target_currency); [done|].
    rewrite !run_bind. cbn [now fst snd]. intros [= <- <-] _.
    pose proof (inverse_of_cases _ _ Hinv) as Hcases.
    apply inverse_of_spec in Hinv as [? ?].
    exists cached_rate, inverse_rate. repeat split; auto.
  - rewrite run_bind.
    destruct (get_exchange_rate_from_api base_currency target_currency w0)
      as [[api_result|] w1]; cbn [fst snd].
    2:{ rewrite run_bind. cbn [now fst snd]. intros [= <- <-] Hs. done. }
    rewrite run_bind.
    destruct (set_cached_rate _ _ _ _ w1) as [[] w2]. cbn [fst snd].
    destruct (inverse_of (result_rate api_result)) as [e|inverse_rate] eqn:Hinv.
    { intros Hr Hs. apply server_error_fails in Hr as [_ Hr]. congruence. }
    destruct (name_of base_currency).
    { intros Hr Hs. apply server_error_fails in Hr as [_ Hr]. congruence. }
    destruct (name_of target_currency).
    { intros Hr Hs. apply server_error_fails in Hr as [_ Hr]. congruence. }
    rewrite !run_bind. cbn [now fst snd]. intros [= <- <-] _.
    pose proof (inverse_of_cases _ _ Hinv) as Hcases.
    apply inverse_of_spec in Hinv as [? ?].
    exists (result_rate api_result), inverse_rate. repeat split; auto.
Qed.

(** *** The cache across two requests *)

Lemma inverse_of_not_None rate inverse_rate :
  inverse_of rate = inr inverse_rate → is_not_None rate = true.
Proof. by destruct rate. Qed.

Lemma set_cached_rate_cache base_currency target_currency rate source w :
  exchange_rate_cache (set_cached_rate base_currency target_currency rate source w).2
    = <[cache_key base_currency target_currency :=
          {| cache_rate := rate; cache_source := source;
             cache_timestamp := clock w (ticks w) |}]> (exchange_rate_cache w).
Proof. done. Qed.

Lemma set_cached_rate_sent base_currency target_currency rate source w :
  sent (set_cached_rate base_currency target_currency rate source w).2 = sent w.
Proof. done. Qed.

Lemma failure_sent status message w : sent (failure status message w).2 = sent w.
Proof. done. Qed.

Lemma server_error_sent message w : sent (server_error message w).2 = sent w.
Proof. done. Qed.

Lemma try_api_sends api_config base_currency target_currency url w :
  api_request_url api_config base_currency target_currency = inr url →
  sent (try_api api_config base_currency target_currency w).2 = sent w ++ [url].
Proof.
  intros Hurl. unfold try_api. rewrite Hurl, run_bind. cbn [requests_get fst snd].
  destruct (network w _ _ _) as [| | | |status body]; try done.
  destruct (status =? 200); [|done].
  destruct body; try done.
  destruct (api_extract_rate _ _ _); [done|].
  destruct (truthy _); [|done].
  rewrite run_bind. cbn [now fst snd]. by destruct (py_get _ _ _).
Qed.

Lemma try_api_sent_grows api_config base_currency target_currency w :
  ∃ more, sent (try_api api_config base_currency target_currency w).2 = sent w ++ more.
Proof.
  destruct (api_request_url api_config base_currency target_currency) as [e|url] eqn:Hurl.
  - exists []. unfold try_api. rewrite Hurl. by rewrite app_nil_r.
  - exists [url]. by apply try_api_sends.
Qed.

Lemma try_apis_sent_grows apis base_currency target_currency errors w :
  ∃ more,
    sent (try_apis apis base_currency target_currency errors w).2 = sent w ++ more.
Proof.
  revert errors w. induction apis as [|a rest IH]; intros errors w.
  - exists []. by rewrite app_nil_r.
  - cbn [try_apis]. rewrite run_bind.
    destruct (try_api_sent_grows a base_currency target_currency w) as [m1 H1].
    destruct (try_api a base_currency target_currency w) as [[error|result] w1];
      cbn [fst snd] in *; [|by exists m1].
    destruct (IH (errors ++ [error]) w1) as [m2 H2].
    exists (m1 ++ m2). by rewrite H2, H1, app_assoc.
Qed.

Lemma try_apis_cons api_config rest base_currency target_currency errors w :
  try_apis (api_config :: rest) base_currency target_currency errors w =
    match (try_api api_config base_currency target_currency w).1 with
    | inr result =>
        ((Some result, errors), (try_api api_config base_currency target_currency w).2)
    | inl error =>
        try_apis rest base_currency target_currency (errors ++ [error])
          (try_api api_config base_currency target_currency w).2
    end.
Proof.
  cbn [try_apis]. rewrite run_bind.
  by destruct (try_api api_config base_currency target_currency w) as [[error|result] w1].
Qed.

Lemma first_url base_currency target_currency :
  api_request_url
    {| api_name := "ExchangeRate-API";
       api_url := "https://api.exchangerate-api.com/v4/latest/{base}";
       api_requires_key := false; api_rate_limit := 1500; api_timeout := 10 |}
    base_currency target_currency
  = inr ("https://api.exchangerate-api.com/v4/latest/" +:+ base_currency).
Proof.
  trans (inr (A:=PyExc)
           ("https://api.exchangerate-api.com/v4/latest/" +:+ base_currency +:+ ""));
    [reflexivity|by rewrite append_empty_r].
Qed.

(** A fetch always asks the first provider. *)
Lemma fetch_asks_first_provider base_currency target_currency w :
  ∃ more,
    sent (get_exchange_rate_from_api base_currency target_currency w).2
      = sent w ++ ("https://api.exchangerate-api.com/v4/latest/" +:+ base_currency)
                  :: more.
Proof.
  unfold get_exchange_rate_from_api. rewrite run_bind.
  assert (∃ more,
    sent (try_apis EXCHANGE_RATE_APIS base_currency target_currency [] w).2
      = sent w ++ ("https://api.exchangerate-api.com/v4/latest/" +:+ base_currency)
                  :: more) as [more Hmore].
  { unfold EXCHANGE_RATE_APIS. rewrite try_apis_cons.
    pose proof (try_api_sends _ _ _ _ w (first_url base_currency target_currency)) as H1.
    destruct (try_api _ base_currency target_currency w) as [[error|result] w1];
      cbn [fst snd] in *.
    - match goal with |- context [try_apis ?l _ _ ?e w1] =>
        destruct (try_apis_sent_grows l base_currency target_currency e w1) as [m2 H2]
      end.
      exists m2. by rewrite H2, H1, <- app_assoc.
    - exists []. by rewrite H1. }
  destruct (try_apis _ _ _ _ w) as [[[result|] errors] w1]; cbn [fst snd] in *;
    [by exists more|].
  destruct (_ && _); [|by exists more].
  rewrite run_bind. cbn [now fst snd]. by exists more.
Qed.

(** What an answer with [cached] false tells about the request: the pair
    is supported, the rate has an inverse, and the cache now holds the
    rate under the key of the pair, stamped with a reading of the clock
    taken during the request. *)
Lemma fresh_answer_inv args w status json :
  (get_exchange_rate args w).1 = Reply status json →
  assoc_get json "success" = Some (PBool true) →
  assoc_get json "cached" = Some (PBool false) →
  let base_currency := str_upper (args_get args "base" "USD") in
  let target_currency := str_upper (args_get args "target" "CNY") in
  in_CURRENCY_DATA base_currency = true ∧
  in_CURRENCY_DATA target_currency = true ∧
  ∃ rate source n inverse_rate base_name target_name,
    assoc_get json "exchange_rate" = Some rate ∧
    inverse_of rate = inr inverse_rate ∧
    name_of base_currency = inr base_name ∧
    name_of target_currency = inr target_name ∧
    (ticks w ≤ n)%nat ∧
    exchange_rate_cache (get_exchange_rate args w).2
      = <[cache_key base_currency target_currency :=
            {| cache_rate := rate; cache_source := source;
               cache_timestamp := clock w n |}]> (exchange_rate_cache w).
Proof.
  intros Hrun Hs Hc base_currency target_currency. revert Hrun.
  unfold get_exchange_rate.
  fold base_currency target_currency.
  destruct (in_CURRENCY_DATA base_currency); cbn [negb].
  2:{ intros Hr. apply unsupported_fails in Hr as (_ & Hr & _). congruence. }
  destruct (in_CURRENCY_DATA target_currency); cbn [negb].
  2:{ intros Hr. apply unsupported_fails in Hr as (_ & Hr & _). congruence. }
  rewrite run_bind.
  pose proof (get_cached_rate_frame base_currency target_currency w) as [Hf0 _].
  assert (ticks w ≤ ticks (get_cached_rate base_currency target_currency w).2)%nat as Ht0.
  { unfold get_cached_rate. rewrite run_bind. cbn [read_cache fst snd].
    destruct (_ !! _); [|done]. rewrite run_bind. cbn [now fst snd].
    case_bool_decide; unfold mret, M_ret; cbn [fst snd ticks]; lia. }
  destruct (get_cached_rate base_currency target_currency w)
    as [[cached_rate cached_source] w0]. cbn [fst snd] in *.
  destruct (is_not_None cached_rate).
  { destruct (inverse_of cached_rate); [done|].
    destruct (name_of base_currency); [done|].
    destruct (name_of target_currency); [done|].
    rewrite !run_bind. cbn [now fst snd]. intros [= <- <-]. done. }
  rewrite run_bind.
  pose proof (fetch_frame base_currency target_currency w0) as Hf1.
  assert (ticks w0 ≤ ticks (get_exchange_rate_from_api base_currency target_currency w0).2)%nat
    as Ht1.
  { unfold get_exchange_rate_from_api. rewrite run_bind.
    assert (∀ apis errors v,
      (ticks v ≤ ticks (try_apis apis base_currency target_currency errors v).2)%nat) as Hgrow.
    { induction apis as [|a rest IH]; intros errors v; [done|].
      rewrite try_apis_cons.
      assert (ticks v ≤ ticks (try_api a base_currency target_currency v).2)%nat as Ha.
      { unfold try_api. destruct (api_request_url _ _ _); [done|].
        rewrite run_bind. cbn [requests_get fst snd].
        destruct (network v _ _ _) as [| | | |st body]; try done.
        destruct (st =? 200); [|done]. destruct body; try done.
        destruct (api_extract_rate _ _ _); [done|]. destruct (truthy _); [|done].
        rewrite run_bind. cbn [now fst snd].
        destruct (py_get _ _ _); unfold mret, M_ret; cbn [fst snd ticks]; lia. }
      destruct (try_api a base_currency target_currency v) as [[error|result] v1];
        cbn [fst snd] in *; [|done].
      etrans; [exact Ha|apply IH]. }
    specialize (Hgrow EXCHANGE_RATE_APIS [] w0).
    destruct (try_apis _ _ _ _ w0) as [[[result|] errors] v1]; cbn [fst snd] in *;
      [done|].
    destruct (_ && _); [|done]. rewrite run_bind. cbn [now fst snd].
    unfold mret, M_ret; cbn [fst snd ticks]; lia. }
  destruct (get_exchange_rate_from_api base_currency target_currency w0)
    as [[api_result|] w1]; cbn [fst snd] in *.
  2:{ rewrite run_bind. cbn [now fst snd]. intros [= <- <-]. done. }
  rewrite run_bind.
  pose proof (set_cached_rate_cache base_currency target_currency
                (result_rate api_result) (result_source api_result) w1) as Hput.
  destruct (set_cached_rate _ _ _ _ w1) as [[] w2]. cbn [fst snd] in *.
  destruct (inverse_of (result_rate api_result)) as [e|inverse_rate] eqn:Hinv.
  { intros Hr. apply server_error_fails in Hr as [_ Hr]. congruence. }
  destruct (name_of base_currency) as [|base_name].
  { intros Hr. apply server_error_fails in Hr as [_ Hr]. congruence. }
  destruct (name_of target_currency) as [|target_name].
  { intros Hr. apply server_error_fails in Hr as [_ Hr]. congruence. }
  rewrite !run_bind. cbn [now fst snd]. intros [= <- <-].
  split; [done|]. split; [done|].
  exists (result_rate api_result), (result_source api_result), (ticks w1),
    inverse_rate, base_name, target_name.
  destruct Hf0 as (Hc0 & Hk0 & _). destruct Hf1 as (Hc1 & Hk1 & _).
  do 4 (split; [done|]). split; [lia|].
  rewrite Hput, Hc1, Hc0, Hk1, Hk0. done.
Qed.

Lemma failure_not_cached status' message w status json :
  (failure status' message w).1 = Reply status json →
  assoc_get json "cached" = None.
Proof.
  unfold failure. rewrite run_bind. cbn [now fst snd].
  intros [= <- <-]. done.
Qed.

Lemma server_error_not_cached message w status json :
  (server_error message w).1 = Reply status json →
  assoc_get json "cached" = None.
Proof.
  unfold server_error. rewrite run_bind. cbn [now fst snd].
  intros [= <- <-]. done.
Qed.

Lemma get_cached_rate_hit base_currency target_currency w e :
  exchange_rate_cache w !! cache_key base_currency target_currency = Some e →
  clock w (ticks w) - cache_timestamp e < timedelta_seconds 300 →
  get_cached_rate base_currency target_currency w
    = ((cache_rate e, PStr (cache_source e)), (now w).2).
Proof.
  intros He Hfresh. unfold get_cached_rate. rewrite run_bind.
  cbn [read_cache fst snd]. rewrite He, run_bind. cbn [now fst snd].
  unfold CACHE_DURATION. by rewrite bool_decide_eq_true_2.
Qed.

Lemma get_cached_rate_stale base_currency target_currency w e :
  exchange_rate_cache w !! cache_key base_currency target_currency = Some e →
  timedelta_seconds 300 ≤ clock w (ticks w) - cache_timestamp e →
  get_cached_rate base_currency target_currency w = ((PNone, PNone), (now w).2).
Proof.
  intros He Hstale. unfold get_cached_rate. rewrite run_bind.
  cbn [read_cache fst snd]. rewrite He, run_bind. cbn [now fst snd].
  unfold CACHE_DURATION. rewrite bool_decide_eq_false_2; [done|lia].
Qed.

(** C5. The cache put overwrites whatever entry the pair had with the
    new rate, stamped with the reading of the clock at the put.  After an
    answer of the exchange-rate endpoint that was fetched and not served
    from the cache, the cache holds the rate of that answer; a following
    request for the same pair on that cache, whose reading of the clock is
    less than 300 seconds after the stamp, is answered with the same rate
    and [cached] true, without any request to a provider; once 300
    seconds have passed, the request is not answered from the cache, and
    a fresh fetch asks the first provider. *)
Theorem cached_after_fetch :
  (∀ base_currency target_currency rate source w,
     exchange_rate_cache
       (set_cached_rate base_currency target_currency rate source w).2
       !! cache_key base_currency target_currency
     = Some {| cache_rate := rate; cache_source := source;
               cache_timestamp := clock w (ticks w) |}) ∧
  (∀ args w status json,
     (get_exchange_rate args w).1 = Reply status json →
     assoc_get json "success" = Some (PBool true) →
     assoc_get json "cached" = Some (PBool false) →
     let base_currency := str_upper (args_get args "base" "USD") in
     let target_currency := str_upper (args_get args "target" "CNY") in
     ∃ e n,
       exchange_rate_cache (get_exchange_rate args w).2
         !! cache_key base_currency target_currency = Some e ∧
       (ticks w ≤ n)%nat ∧ cache_timestamp e = clock w n ∧
       assoc_get json "exchange_rate" = Some (cache_rate e) ∧
       ∀ args' w',
         str_upper (args_get args' "base" "USD") = base_currency →
         str_upper (args_get args' "target" "CNY") = target_currency →
         exchange_rate_cache w' = exchange_rate_cache (get_exchange_rate args w).2 →
         (clock w' (ticks w') - cache_timestamp e < timedelta_seconds 300 →
            ∃ json',
              (get_exchange_rate args' w').1 = Reply 200 json' ∧
              assoc_get json' "success" = Some (PBool true) ∧
              assoc_get json' "exchange_rate" = Some (cache_rate e) ∧
              assoc_get json' "cached" = Some (PBool true) ∧
              sent (get_exchange_rate args' w').2 = sent w') ∧
         (timedelta_seconds 300 ≤ clock w' (ticks w') - cache_timestamp e →
            (∃ more,
               sent (get_exchange_rate args' w').2
                 = sent w' ++ ("https://api.exchangerate-api.com/v4/latest/"
                               +:+ base_currency) :: more) ∧
            ∀ status' json',
              (get_exchange_rate args' w').1 = Reply status' json' →
              assoc_get json' "cached" ≠ Some (PBool true))).
Proof.
  split.
  { intros. rewrite set_cached_rate_cache. apply lookup_insert_eq. }
  intros args w status json Hrun Hs Hc base_currency target_currency.
  destruct (fresh_answer_inv args w status json Hrun Hs Hc)
    as (Hbase & Htarget & rate & source & n & inverse_rate & base_name & target_name
        & Hrate & Hinv & Hbn & Htn & Hn & Hcache).
  fold base_currency target_currency in Hbase, Htarget, Hbn, Htn, Hcache.
  eexists _, n. split; [rewrite Hcache; apply lookup_insert_eq|].
  cbn [cache_timestamp cache_rate]. do 3 (split; [done|]).
  intros args' w' Hb Ht Hsame.
  assert (exchange_rate_cache w' !! cache_key base_currency target_currency
          = Some {| cache_rate := rate; cache_source := source;
                    cache_timestamp := clock w n |}) as Hlook.
  { rewrite Hsame, Hcache. apply lookup_insert_eq. }
  unfold get_exchange_rate. rewrite Hb, Ht, Hbase, Htarget. cbn [negb].
  rewrite !run_bind. split.
  - intros Hfresh. rewrite (get_cached_rate_hit _ _ _ _ Hlook Hfresh).
    cbn [fst snd cache_rate cache_source].
    rewrite (inverse_of_not_None _ _ Hinv), Hinv, Hbn, Htn.
    rewrite !run_bind. cbn [now fst snd].
    eexists. split; [reflexivity|]. by repeat split.
  - intros Hstale. rewrite (get_cached_rate_stale _ _ _ _ Hlook Hstale).
    cbn [fst snd is_not_None].
    rewrite !run_bind.
    match goal with |- context [get_exchange_rate_from_api _ _ ?v] =>
      destruct (fetch_asks_first_provider base_currency target_currency v) as [more Hmore];
      change (sent v) with (sent w') in Hmore;
      destruct (get_exchange_rate_from_api base_currency target_currency v)
        as [[api_result|] w1]
    end; cbn [fst snd] in *.
    + rewrite !run_bind.
      pose proof (set_cached_rate_sent base_currency target_currency
                    (result_rate api_result) (result_source api_result) w1) as Hput.
      destruct (set_cached_rate _ _ _ _ w1) as [[] w2]. cbn [fst snd] in *.
      assert (∀ e, (∃ more0,
                 sent (server_error ("服务器错误: " +:+ str_exc e) w2).2
                   = sent w' ++ ("https://api.exchangerate-api.com/v4/latest/"
                                 +:+ base_currency) :: more0) ∧
               ∀ status' json',
                 (server_error ("服务器错误: " +:+ str_exc e) w2).1 = Reply status' json' →
                 assoc_get json' "cached" ≠ Some (PBool true)) as Hfail.
      { intros e. split; [exists more; by rewrite server_error_sent, Hput|].
        intros st j Hr. apply server_error_not_cached in Hr. congruence. }
      destruct (inverse_of (result_rate api_result)); [apply Hfail|].
      destruct (name_of base_currency); [apply Hfail|].
      destruct (name_of target_currency); [apply Hfail|].
      rewrite !run_bind. cbn [now fst snd].
      split; [exists more; cbn; congruence|].
      intros st j [= <- <-]. done.
    + rewrite !run_bind. cbn [now fst snd].
      split; [by exists more|].
      intros st j [= <- <-]. done.
Qed.

(** ** The conversion endpoint *)





(** ** The historical series builder *)

Lemma history_api_frame base_currency target_currency days w :
  frame w (get_historical_data_from_api base_currency target_currency days w).2.
Proof.
  unfold get_historical_data_from_api. rewrite run_bind. cbn [now fst snd].
  destruct (datetime_minus_days _ _); [by repeat split|].
  rewrite run_bind. cbn [requests_get fst snd].
  destruct (network _ _ _ _) as [| | | |status body]; try by repeat split.
  case_bool_decide; [by repeat split|].
  destruct body; by repeat split.
Qed.

Lemma random_walk_length base_rate variations :
  length (random_walk base_rate variations) = length variations.
Proof.
  revert base_rate. induction variations as [|v rest IH]; intros base_rate; [done|].
  cbn. by rewrite IH.
Qed.

Lemma datetime_minus_days_ok today i :
  0 ≤ i → timedelta_days i ≤ today → today < datetime_end →
  datetime_minus_days today i = inr (today - timedelta_days i).
Proof.
  intros Hi Hlo Hhi. unfold datetime_minus_days, timedelta_days, datetime_end in *.
  rewrite bool_decide_eq_true_2 by lia. by rewrite bool_decide_eq_true_2 by lia.
Qed.

Lemma variation_after_draw w n :
  variation (random_random w).2 <$> seq 0 n = variation w <$> seq 1 n.
Proof.
  rewrite <- fmap_S_seq, <- list_fmap_compose.
  apply list_fmap_ext. intros _ j _. unfold variation, compose. cbn.
  by replace (j + S (rolls w))%nat with (S (j + rolls w))%nat by lia.
Qed.

Lemma rolled_after_draw w n : rolled n (random_random w).2 = rolled (S n) w.
Proof. unfold rolled. cbn. f_equal. lia. Qed.

Lemma simulate_spec today indices base_rate history w :
  Forall (λ i, datetime_minus_days today i = inr (today - timedelta_days i)) indices →
  simulate today indices base_rate history w =
    (inr (history ++ zip_with (simulated_point today) indices
                       (random_walk base_rate
                          (variation w <$> seq 0 (length indices)))),
     rolled (length indices) w).
Proof.
  revert base_rate history w.
  induction indices as [|i rest IH]; intros base_rate history w Hok.
  - cbn. rewrite app_nil_r. by destruct w.
  - apply Forall_cons in Hok as [Hi Hrest].
    cbn [simulate]. rewrite Hi, run_bind.
    rewrite IH by done.
    rewrite variation_after_draw, rolled_after_draw, <- app_assoc.
    cbn [length seq fmap list_fmap random_walk zip_with app].
    reflexivity.
Qed.

Lemma range_down_length days : length (range_down days) = Z.to_nat (days + 1).
Proof. unfold range_down. by rewrite length_fmap, length_seq. Qed.

Lemma range_down_negative days : days < 0 → range_down days = [].
Proof.
  intros Hd. unfold range_down. by replace (Z.to_nat (days + 1)) with 0%nat by lia.
Qed.

Lemma range_down_lookup days k i :
  range_down days !! k = Some i → i = days - Z.of_nat k ∧ 0 ≤ i ≤ days.
Proof.
  unfold range_down. rewrite list_lookup_fmap.
  destruct (seq 0 (Z.to_nat (days + 1)) !! k) as [j|] eqn:Hj; [|done].
  apply lookup_seq in Hj as [-> Hk]. cbn. intros [= <-]. lia.
Qed.

Lemma range_down_in_range today days :
  (days < 0 ∨ (timedelta_days days ≤ today ∧ today < datetime_end)) →
  Forall (λ i, datetime_minus_days today i = inr (today - timedelta_days i))
    (range_down days).
Proof.
  intros [Hneg|[Hlo Hhi]]; [by rewrite range_down_negative|].
  apply Forall_lookup. intros k i Hk.
  apply range_down_lookup in Hk as [_ Hi].
  apply datetime_minus_days_ok; [lia| |done].
  unfold timedelta_days in *. lia.
Qed.

Lemma rolled_0 w : rolled 0 w = w.
Proof. by destruct w. Qed.

Lemma simulated_history_spec base_currency target_currency days w :
  let today := clock w (ticks w) in
  let w0 := rolled (seed_draws base_currency target_currency) w in
  Forall (λ i, datetime_minus_days today i = inr (today - timedelta_days i))
    (range_down days) →
  simulated_history base_currency target_currency days w =
    (inr (zip_with (simulated_point today) (range_down days)
            (random_walk (seed_rate base_currency target_currency w)
               (variation w0 <$> seq 0 (length (range_down days))))),
     rolled (length (range_down days)) (now w0).2).
Proof.
  intros today w0 Hok. unfold simulated_history.
  fold (is_USD_CNY base_currency target_currency).
  rewrite run_bind.
  assert ((if is_USD_CNY base_currency target_currency
           then mret (float_lit 699 (-2))
           else random_uniform (float_lit 8 (-1)) (float_lit 12 (-1))) w
          = (seed_rate base_currency target_currency w, w0)) as ->.
  { unfold seed_rate, w0, seed_draws.
    destruct (is_USD_CNY _ _); [by rewrite rolled_0|].
    unfold random_uniform. rewrite run_bind. done. }
  cbn [fst snd]. rewrite run_bind.
  replace (now w0).1 with today
    by (unfold w0, seed_draws; by destruct (is_USD_CNY _ _)).
  rewrite simulate_spec by done. done.
Qed.

(** The builder returns the answer of the provider when that is a series
    with at least one point, and the simulated series otherwise. *)
Lemma generate_historical_data_cases base_currency target_currency days w :
  let r := get_historical_data_from_api base_currency target_currency days w in
  (∃ p l, r.1 = Some (p :: l) ∧
          generate_historical_data base_currency target_currency days w
            = (inr (p :: l), r.2)) ∨
  ((r.1 = None ∨ r.1 = Some []) ∧
   generate_historical_data base_currency target_currency days w
     = simulated_history base_currency target_currency days r.2).
Proof.
  intros r. unfold generate_historical_data. rewrite run_bind. fold r.
  destruct r.1 as [[|p l]|]; [right|left|right]; eauto.
Qed.

Lemma history_api_ticks base_currency target_currency days w :
  ticks (get_historical_data_from_api base_currency target_currency days w).2
    = S (ticks w).
Proof.
  unfold get_historical_data_from_api. rewrite run_bind. cbn [now fst snd].
  destruct (datetime_minus_days _ _); [done|].
  rewrite run_bind. cbn [requests_get fst snd].
  destruct (network _ _ _ _) as [| | | |status body]; try done.
  case_bool_decide; [done|]. by destruct body.
Qed.

(** *** Readings of the clock *)

Lemma try_api_ticks api_config base_currency target_currency w :
  match (try_api api_config base_currency target_currency w).1 with
  | inr _ => ticks (try_api api_config base_currency target_currency w).2 = S (ticks w)
  | inl _ => ticks (try_api api_config base_currency target_currency w).2 = ticks w
  end.
Proof.
  unfold try_api. destruct (api_request_url _ _ _); [done|].
  rewrite run_bind. cbn [requests_get fst snd].
  destruct (network w _ _ _) as [| | | |status body]; [done..|].
  destruct (status =? 200); [|done].
  destruct body as [data| |]; [|done..].
  destruct (api_extract_rate _ _ _) as [|rate] eqn:Hrate; [done|].
  assert (∃ d, data = PDict d) as [d ->].
  { unfold api_extract_rate in Hrate.
    repeat case_match; try done; by eapply rates_get_dict. }
  destruct (truthy _); [|done].
  rewrite run_bind. reflexivity.
Qed.

Lemma try_apis_ticks apis base_currency target_currency errors w :
  match (try_apis apis base_currency target_currency errors w).1.1 with
  | Some _ =>
      ticks (try_apis apis base_currency target_currency errors w).2 = S (ticks w)
  | None => ticks (try_apis apis base_currency target_currency errors w).2 = ticks w
  end.
Proof.
  revert errors w. induction apis as [|a rest IH]; intros errors w; [done|].
  rewrite try_apis_cons.
  pose proof (try_api_ticks a base_currency target_currency w) as Ha.
  destruct (try_api a base_currency target_currency w) as [[error|result] w1];
    cbn [fst snd] in *; [|done].
  specialize (IH (errors ++ [error]) w1). rewrite Ha in IH. exact IH.
Qed.

(** A fetch reads the clock once at most. *)
Lemma fetch_ticks base_currency target_currency w :
  (ticks w ≤ ticks (get_exchange_rate_from_api base_currency target_currency w).2
   ≤ S (ticks w))%nat.
Proof.
  unfold get_exchange_rate_from_api. rewrite run_bind.
  pose proof (try_apis_ticks EXCHANGE_RATE_APIS base_currency target_currency [] w) as Hn.
  destruct (try_apis _ _ _ _ w) as [[[result|] errors] w1]; cbn [fst snd] in *.
  - unfold mret, M_ret. cbn [snd]. lia.
  - destruct (_ && _).
    + rewrite run_bind. cbn [now fst snd]. unfold mret, M_ret. cbn [snd ticks]. lia.
    + unfold mret, M_ret. cbn [snd]. lia.
Qed.

(** The builder returns a series whenever the dates it needs exist. *)
Lemma generate_historical_data_total base_currency target_currency days w :
  (days < 0 ∨
   (timedelta_days days ≤ clock w (S (ticks w)) ∧ clock w (S (ticks w)) < datetime_end)) →
  ∃ history,
    (generate_historical_data base_currency target_currency days w).1 = inr history.
Proof.
  intros Hdays.
  destruct (generate_historical_data_cases base_currency target_currency days w)
    as [(p & l & _ & ->)|[_ ->]]; [by eexists|].
  rewrite simulated_history_spec; [by eexists|].
  apply range_down_in_range.
  destruct Hdays as [?|Hn]; [by left|right].
  rewrite history_api_ticks.
  by destruct (history_api_frame base_currency target_currency days w) as (_ & -> & _).
Qed.

(** ** The historical endpoint *)

(** C10, as the code has it.  For a supported pair for which every
    provider fails, the historical endpoint answers with status 200 and
    [success] true, and reports 6.99 as the current rate for USD to CNY
    and the made-up rate 1.0 for every other pair, provided the series
    builder can compute its dates: [days] is negative, or the day [days]
    days before the readings of the clock that the request takes is a
    date. *)
Theorem historical_reports_default_rate (args : list (string * string)) (w : World) :
  let base_currency := str_upper (args_get args "base" "USD") in
  let target_currency := str_upper (args_get args "target" "CNY") in
  let days_int := default 30 (int_of_str (args_get args "days" "30")) in
  in_CURRENCY_DATA base_currency = true →
  in_CURRENCY_DATA target_currency = true →
  all_providers_fail w base_currency target_currency →
  (days_int < 0 ∨
   ∀ n, (n ≤ ticks w + 2)%nat →
     timedelta_days days_int ≤ clock w n ∧ clock w n < datetime_end) →
  ∃ json,
    (get_historical_data args w).1 = Reply 200 json ∧
    assoc_get json "success" = Some (PBool true) ∧
    assoc_get json "current_rate"
      = Some (PFloat (if is_USD_CNY base_currency target_currency
                      then float_lit 699 (-2) else float_lit 1 0)).
Proof.
  intros base_currency target_currency days_int Hbase Htarget Hall Hdays.
  unfold get_historical_data.
  fold base_currency target_currency days_int.
  rewrite Hbase, Htarget. cbn [negb].
  pose proof (fetch_ticks base_currency target_currency w) as Hticks.
  destruct (fetch_all_fail _ _ _ Hall) as (w1 & Hfetch & Hframe & _).
  rewrite Hfetch in Hticks. cbn [snd] in Hticks.
  rewrite run_bind, Hfetch. cbn [fst snd].
  destruct (generate_historical_data_total base_currency target_currency days_int w1)
    as [history Hh].
  { destruct Hdays as [?|Hn]; [by left|right].
    destruct Hframe as (_ & -> & _). apply Hn. lia. }
  rewrite run_bind, Hh, run_bind. cbn [now fst snd].
  eexists. split; [reflexivity|]. split; [done|].
  fold (is_USD_CNY base_currency target_currency).
  by destruct (is_USD_CNY base_currency target_currency).
Qed.

(** *** The order of date strings *)

Lemma ascii_compare_Lt_trans a b c :
  Ascii.compare a b = Lt → Ascii.compare b c = Lt → Ascii.compare a c = Lt.
Proof.
  unfold Ascii.compare. rewrite !N.compare_lt_iff. lia.
Qed.

Lemma string_compare_Lt_trans s1 s2 s3 :
  String.compare s1 s2 = Lt → String.compare s2 s3 = Lt → String.compare s1 s3 = Lt.
Proof.
  revert s2 s3. induction s1 as [|c1 s1 IH]; intros [|c2 s2] [|c3 s3]; try done.
  cbn [String.compare].
  destruct (Ascii.compare c1 c2) eqn:H12; try done;
    destruct (Ascii.compare c2 c3) eqn:H23; try done; intros H1 H2.
  - apply Ascii.compare_eq_iff in H12, H23. subst.
    rewrite (proj2 (N.compare_eq_iff _ _) eq_refl : Ascii.compare c3 c3 = Eq).
    by eapply IH.
  - apply Ascii.compare_eq_iff in H12. subst. by rewrite H23.
  - apply Ascii.compare_eq_iff in H23. subst. by rewrite H12.
  - by rewrite (ascii_compare_Lt_trans _ _ _ H12 H23).
Qed.

Lemma string_leb_cases s1 s2 :
  String.leb s1 s2 = true ↔ s1 = s2 ∨ String.ltb s1 s2 = true.
Proof.
  unfold String.leb, String.ltb.
  destruct (String.compare s1 s2) eqn:Hc.
  - apply String.compare_eq_iff in Hc. naive_solver.
  - naive_solver.
  - split; [done|]. intros [->|?]; [|done].
    assert (String.compare s2 s2 = Eq) as Heq; [|congruence].
    clear. induction s2 as [|c s IH]; [done|]. cbn.
    by rewrite (proj2 (N.compare_eq_iff _ _) eq_refl : Ascii.compare c c = Eq).
Qed.

Lemma string_ltb_trans s1 s2 s3 :
  String.ltb s1 s2 = true → String.ltb s2 s3 = true → String.ltb s1 s3 = true.
Proof.
  unfold String.ltb.
  destruct (String.compare s1 s2) eqn:H12; try done.
  destruct (String.compare s2 s3) eqn:H23; try done.
  by rewrite (string_compare_Lt_trans _ _ _ H12 H23).
Qed.

#[global] Instance date_le_trans : Transitive date_le.
Proof.
  intros p q r. unfold date_le. rewrite !string_leb_cases.
  intros [E1|H1] [E2|H2].
  - left. congruence.
  - right. by rewrite E1.
  - right. by rewrite <- E2.
  - right. by eapply string_ltb_trans.
Qed.

#[global] Instance date_le_total : Total date_le.
Proof. intros p q. apply String.leb_total. Qed.

Lemma sorted_distinct_dates history :
  StronglySorted date_le history → NoDup (point_date <$> history) →
  StronglySorted date_lt history.
Proof.
  induction 1 as [|p l Hl IH Hp]; [constructor|].
  rewrite fmap_cons, NoDup_cons. intros [Hnotin Hnodup].
  constructor; [by apply IH|].
  apply Forall_forall. intros q Hq.
  rewrite Forall_forall in Hp. specialize (Hp q Hq).
  apply string_leb_cases in Hp as [Heq|?]; [|done].
  apply (list_elem_of_fmap_2 point_date) in Hq. congruence.
Qed.

(** *** The series in a provider's answer *)

Lemma items_keys d : NoDup ((items d).*1).
Proof.
  induction d as [|[k v] d IH]; [constructor|].
  cbn [items]. rewrite fmap_cons, NoDup_cons. split.
  - intros Hin. apply list_elem_of_fmap in Hin as ([k' v'] & Hk & Hin).
    apply list_elem_of_filter in Hin as [Hne _]. cbn in Hk, Hne. subst k'.
    by rewrite String.eqb_refl in Hne.
  - eapply sublist_NoDup; [done|apply fmap_sublist, sublist_filter].
Qed.

Lemma history_entries_spec its target_currency history result :
  history_entries its target_currency history = inr result →
  ∃ points,
    result = history ++ points ∧
    point_date <$> points = (filter (lists_target target_currency) its).*1 ∧
    Forall (λ p, rounded4 (point_rate p)) points.
Proof.
  revert history. induction its as [|[date_str rates] its IH]; intros history.
  - intros [= <-]. exists []. by rewrite app_nil_r.
  - cbn [history_entries]. rewrite filter_cons.
    destruct (history_entry date_str rates target_currency) as [e|[p|]] eqn:Hentry;
      [done| |].
    + intros Hrest. apply IH in Hrest as (points & -> & Hdates & Hround).
      exists (p :: points). rewrite <- app_assoc. split; [done|].
      assert (point_date p = date_str ∧ rounded4 (point_rate p) ∧
              lists_target target_currency (date_str, rates) = true)
        as (Hd & Hr & Hlists).
      { unfold history_entry in Hentry. unfold lists_target. cbn [snd].
        destruct rates; try done; repeat case_match; try done.
        injection Hentry as <-. split; [done|]. split; [by eexists|].
        by apply bool_decide_eq_true. }
      rewrite decide_True by (by apply Is_true_true).
      split; [|by constructor].
      rewrite !fmap_cons, Hd, Hdates. done.
    + intros Hrest. apply IH in Hrest as (points & -> & Hdates & Hround).
      exists points. split; [done|]. split; [|done].
      assert (lists_target target_currency (date_str, rates) = false) as Hlists.
      { unfold history_entry in Hentry. unfold lists_target. cbn [snd].
        destruct rates; try done; repeat case_match; try done.
        all: apply bool_decide_eq_false; by intros [? ?]. }
      rewrite decide_False; [done|]. rewrite Hlists. by intros [].
Qed.

(** The series parsed from an answer has one point for each date whose
    entry lists the target currency, is in strictly ascending order of
    its date strings, and every rate in it was rounded. *)
Lemma parse_history_spec data target_currency history :
  parse_history data target_currency = Some history →
  StronglySorted date_lt history ∧
  Forall (λ p, rounded4 (point_rate p)) history ∧
  ∃ d rates,
    data = PDict d ∧ items_get d "rates" = Some (PDict rates) ∧
    point_date <$> history
      ≡ₚ (filter (lists_target target_currency) (items rates)).*1.
Proof.
  unfold parse_history. destruct data as [| | | | | |d]; try done.
  destruct (items_get d "rates") as [[| | | | | |rates]|] eqn:Hrates; try done.
  destruct (history_entries _ _ _) as [e|unsorted] eqn:Hentries; [done|].
  intros [= <-].
  apply history_entries_spec in Hentries as (points & -> & Hdates & Hround).
  cbn [app] in *.
  pose proof (merge_sort_Permutation date_le points) as Hperm.
  split; [|split].
  - apply sorted_distinct_dates; [apply StronglySorted_merge_sort; apply _|].
    rewrite Hperm, Hdates.
    eapply sublist_NoDup; [apply items_keys|].
    apply fmap_sublist, sublist_filter.
  - by rewrite Hperm.
  - exists d, rates. do 2 (split; [done|]). by rewrite Hperm, Hdates.
Qed.

Lemma history_api_some base_currency target_currency days w history :
  (get_historical_data_from_api base_currency target_currency days w).1 = Some history →
  ∃ url status_code data,
    network w (length (sent w)) url 15 = Response status_code (Json data) ∧
    ¬ (400 ≤ status_code < 600) ∧
    parse_history data target_currency = Some history.
Proof.
  unfold get_historical_data_from_api. rewrite run_bind. cbn [now fst snd].
  destruct (datetime_minus_days _ _); [done|].
  rewrite run_bind. cbn [requests_get fst snd sent network].
  match goal with |- context [network w _ ?u 15] => set (url := u) end.
  destruct (network w _ url 15) as [| | | |status body] eqn:Hnet; try done.
  case_bool_decide; [done|]. destruct body as [data| |]; try done.
  intros Hh. by exists url, status, data.
Qed.

Lemma simulated_dates today indices rates :
  length indices = length rates →
  point_date <$> zip_with (simulated_point today) indices rates
    = (λ i, strftime "%Y-%m-%d" (today - timedelta_days i)) <$> indices.
Proof.
  revert rates. induction indices as [|i indices IH]; intros [|r rates]; try done.
  intros [= Hlen]. cbn. f_equal. by apply IH.
Qed.

Lemma simulated_rates today indices rates :
  length indices = length rates →
  point_rate <$> zip_with (simulated_point today) indices rates
    = (λ rate, PFloat (round4 rate)) <$> rates.
Proof.
  revert rates. induction indices as [|i indices IH]; intros [|r rates]; try done.
  intros [= Hlen]. cbn. f_equal. by apply IH.
Qed.

Lemma simulated_rounded today indices rates :
  Forall (λ p, rounded4 (point_rate p)) (zip_with (simulated_point today) indices rates).
Proof.
  revert rates. induction indices as [|i indices IH]; intros [|r rates];
    try by constructor.
  cbn. constructor; [|apply IH]. by exists (PFloat r).
Qed.

Lemma increasing_sorted (f : nat → Z) (start n : nat) :
  (∀ i j, (i < j)%nat → f i < f j) → StronglySorted Z.lt (f <$> seq start n).
Proof.
  intros Hf. revert start. induction n as [|n IH]; intros start; [constructor|].
  cbn. constructor; [apply IH|].
  apply Forall_fmap, Forall_forall. intros j Hj.
  apply elem_of_seq in Hj. apply Hf. lia.
Qed.

Lemma range_down_days_back today days :
  (λ i, today - timedelta_days i) <$> range_down days = days_back today days.
Proof. unfold range_down, days_back. by rewrite <- list_fmap_compose. Qed.

(** C6, as the code has it.  For [days] not negative: when the provider
    answers with a series of at least one point, the builder returns that
    series, which has one point for each date of the answer that lists
    the target currency (not [days + 1] points in general), in strictly
    ascending order of the date strings, every rate rounded to 4 places;
    otherwise, and when the day [days] days before today is a date, the
    builder returns exactly [days + 1] simulated points, dated day by day
    from [days] days before today to today in strictly ascending order,
    every rate rounded to 4 places. *)
Theorem historical_series_shape (base_currency target_currency : string)
    (days : Z) (w : World) :
  0 ≤ days →
  let primary := (get_historical_data_from_api base_currency target_currency days w).1 in
  let result := (generate_historical_data base_currency target_currency days w).1 in
  let today := clock w (S (ticks w)) in
  (∀ p l, primary = Some (p :: l) →
     result = inr (p :: l) ∧
     StronglySorted date_lt (p :: l) ∧
     Forall (λ q, rounded4 (point_rate q)) (p :: l) ∧
     ∃ url status_code data d rates,
       network w (length (sent w)) url 15 = Response status_code (Json data) ∧
       parse_history data target_currency = Some (p :: l) ∧
       data = PDict d ∧ items_get d "rates" = Some (PDict rates) ∧
       point_date <$> p :: l
         ≡ₚ (filter (lists_target target_currency) (items rates)).*1) ∧
  (primary = None ∨ primary = Some [] →
   timedelta_days days ≤ today → today < datetime_end →
     ∃ history,
       result = inr history ∧
       Z.of_nat (length history) = days + 1 ∧
       point_date <$> history = strftime "%Y-%m-%d" <$> days_back today days ∧
       StronglySorted Z.lt (days_back today days) ∧
       last (days_back today days) = Some today ∧
       Forall (λ q, rounded4 (point_rate q)) history).
Proof.
  intros Hdays primary result today. split.
  - intros p l Hp.
    destruct (generate_historical_data_cases base_currency target_currency days w)
      as [(p' & l' & Hp' & Hgen)|[[Hnone|Hnil] _]];
      unfold primary in *; try congruence.
    assert (p' :: l' = p :: l) as Heq by congruence.
    unfold result. rewrite Hgen, Heq. split; [done|].
    destruct (history_api_some _ _ _ _ _ Hp) as (url & status & data & Hnet & _ & Hparse).
    destruct (parse_history_spec _ _ _ Hparse) as (Hsorted & Hround & d & rates & Hd & Hr & Hlen).
    do 2 (split; [done|]). by exists url, status, data, d, rates.
  - intros Hprimary Hlo Hhi.
    destruct (generate_historical_data_cases base_currency target_currency days w)
      as [(p' & l' & Hp' & Hgen)|[_ Hgen]];
      unfold primary in *; [destruct Hprimary; congruence|].
    unfold result. rewrite Hgen.
    set (w1 := (get_historical_data_from_api base_currency target_currency days w).2).
    assert (clock w1 (ticks w1) = today) as Htoday.
    { unfold w1, today. rewrite history_api_ticks.
      by destruct (history_api_frame base_currency target_currency days w) as (_ & -> & _). }
    rewrite simulated_history_spec
      by (rewrite Htoday; apply range_down_in_range; by right).
    rewrite Htoday. cbn [fst]. eexists. split; [reflexivity|].
    assert (length (random_walk (seed_rate base_currency target_currency w1)
              (variation (rolled (seed_draws base_currency target_currency) w1)
                 <$> seq 0 (length (range_down days))))
            = length (range_down days)) as Hlen
      by (by rewrite random_walk_length, length_fmap, length_seq).
    split; [|split; [|split; [|split]]].
    + rewrite length_zip_with, Hlen, range_down_length. lia.
    + rewrite simulated_dates by done.
      rewrite <- range_down_days_back, <- list_fmap_compose. done.
    + apply increasing_sorted. intros i j Hij. unfold timedelta_days. lia.
    + unfold days_back.
      replace (Z.to_nat (days + 1)) with (S (Z.to_nat days)) by lia.
      rewrite seq_S, fmap_snoc, last_snoc. f_equal.
      unfold timedelta_days. lia.
    + apply simulated_rounded.
Qed.

(** ** Validation of the currency codes *)

(** The exchange-rate and the historical endpoints refuse a code outside
    the registry with status 400 and an error that names the code, and
    ask no provider. *)
Lemma unsupported_code_refused (args : list (string * string)) (w : World) :
  let base_currency := str_upper (args_get args "base" "USD") in
  let target_currency := str_upper (args_get args "target" "CNY") in
  in_CURRENCY_DATA base_currency = false ∨ in_CURRENCY_DATA target_currency = false →
  ∀ handler, handler = get_exchange_rate ∨ handler = get_historical_data →
  ∃ json what code,
    (handler args w).1 = Reply 400 json ∧
    assoc_get json "success" = Some (PBool false) ∧
    assoc_get json "error" = Some (PStr (what +:+ code)) ∧
    (code = base_currency ∨ code = target_currency) ∧
    in_CURRENCY_DATA code = false ∧
    sent (handler args w).2 = sent w.
Proof.
  intros base_currency target_currency Hbad handler [-> | ->].
  - unfold get_exchange_rate. fold base_currency target_currency.
    destruct (in_CURRENCY_DATA base_currency) eqn:Hb; cbn [negb].
    + destruct Hbad as [?|Ht]; [done|]. rewrite Ht. cbn [negb].
      unfold unsupported. rewrite run_bind. cbn [now fst snd].
      eexists _, _, target_currency. split; [reflexivity|]. by repeat split; auto.
    + unfold unsupported. rewrite run_bind. cbn [now fst snd].
      eexists _, _, base_currency. split; [reflexivity|]. by repeat split; auto.
  - unfold get_historical_data. fold base_currency target_currency.
    destruct (in_CURRENCY_DATA base_currency) eqn:Hb; cbn [negb].
    + destruct Hbad as [?|Ht]; [done|]. rewrite Ht. cbn [negb].
      unfold unsupported. rewrite run_bind. cbn [now fst snd].
      eexists _, _, target_currency. split; [reflexivity|]. by repeat split; auto.
    + unfold unsupported. rewrite run_bind. cbn [now fst snd].
      eexists _, _, base_currency. split; [reflexivity|]. by repeat split; auto.
Qed.

(** *** Days before the first date *)

Lemma range_down_cons days :
  0 ≤ days → range_down days = days :: range_down (days - 1).
Proof.
  intros Hd. unfold range_down.
  replace (Z.to_nat (days + 1)) with (S (Z.to_nat days)) by lia.
  replace (Z.to_nat (days - 1 + 1)) with (Z.to_nat days) by lia.
  cbn [seq fmap list_fmap]. f_equal; [lia|].
  rewrite <- fmap_S_seq, <- list_fmap_compose.
  apply list_fmap_ext. intros _ k _. cbn. lia.
Qed.

Lemma datetime_minus_days_early dt days :
  dt < timedelta_days days → ∃ e, datetime_minus_days dt days = inl e.
Proof.
  intros Hearly. unfold datetime_minus_days.
  case_bool_decide; [|case_bool_decide; by eexists].
  rewrite bool_decide_eq_false_2 by lia. by eexists.
Qed.

(** When [days] days before the readings of the clock that a request
    takes is before the first date, the historical endpoint fails with
    status 500, whatever the providers answer. *)
Lemma historical_days_out_of_range (args : list (string * string)) (w : World) :
  let base_currency := str_upper (args_get args "base" "USD") in
  let target_currency := str_upper (args_get args "target" "CNY") in
  let days_int := default 30 (int_of_str (args_get args "days" "30")) in
  in_CURRENCY_DATA base_currency = true →
  in_CURRENCY_DATA target_currency = true →
  0 ≤ days_int →
  (∀ n, (n ≤ ticks w + 2)%nat → clock w n < timedelta_days days_int) →
  ∃ json,
    (get_historical_data args w).1 = Reply 500 json ∧
    assoc_get json "success" = Some (PBool false).
Proof.
  intros base_currency target_currency days_int Hbase Htarget Hdays Hearly.
  unfold get_historical_data. fold base_currency target_currency days_int.
  rewrite Hbase, Htarget. cbn [negb]. rewrite run_bind.
  pose proof (fetch_frame base_currency target_currency w) as (_ & Hclock & _).
  pose proof (fetch_ticks base_currency target_currency w) as Hticks.
  destruct (get_exchange_rate_from_api base_currency target_currency w)
    as [current_rate_data w1]. cbn [fst snd] in *.
  rewrite run_bind.
  assert (∃ e, (generate_historical_data base_currency target_currency days_int w1).1
               = inl e) as [e ->].
  { unfold generate_historical_data. rewrite run_bind.
    unfold get_historical_data_from_api at 1 2. rewrite !run_bind. cbn [now fst snd].
    destruct (datetime_minus_days_early (clock w1 (ticks w1)) days_int) as [e1 ->];
      [rewrite Hclock; apply Hearly; lia|].
    cbn [mret M_ret fst snd]. unfold simulated_history. rewrite run_bind.
    match goal with |- context [(if ?c then ?x else ?y) ?v] =>
      assert (clock ((if c then x else y) v).2 = clock w1 ∧
              ticks ((if c then x else y) v).2 = S (ticks w1)) as [Hc2 Ht2]
        by (by destruct c);
      destruct ((if c then x else y) v) as [base_rate w2]
    end. cbn [fst snd] in *.
    rewrite run_bind. cbn [now fst snd].
    rewrite (range_down_cons _ Hdays). cbn [simulate].
    destruct (datetime_minus_days_early (clock w2 (ticks w2)) days_int) as [e2 ->];
      [rewrite Hc2, Ht2, Hclock; apply Hearly; lia|].
    by eexists. }
  unfold failure. rewrite run_bind. cbn [now fst snd].
  eexists. split; [reflexivity|done].
Qed.

(** ** Computations that pass the cache by *)

Lemma oblivious_ret {A} (a : A) : cache_oblivious (mret a : M A).
Proof. by intros c w. Qed.

Lemma oblivious_bind {A B} (m : M A) (f : A → M B) :
  cache_oblivious m → (∀ a, cache_oblivious (f a)) → cache_oblivious (m ≫= f).
Proof.
  intros Hm Hf c w. rewrite !run_bind, Hm. cbn [fst snd]. by rewrite Hf.
Qed.

Lemma oblivious_now : cache_oblivious now.
Proof. by intros c w. Qed.

Lemma oblivious_requests_get url timeout : cache_oblivious (requests_get url timeout).
Proof. by intros c w. Qed.

Lemma oblivious_random_random : cache_oblivious random_random.
Proof. by intros c w. Qed.

Lemma oblivious_cache {A} (m : M A) w :
  cache_oblivious m → exchange_rate_cache (m w).2 = exchange_rate_cache w.
Proof.
  intros Hm. specialize (Hm (exchange_rate_cache w) w).
  replace (write_cache (exchange_rate_cache w) w).2 with w in Hm by (by destruct w).
  apply (f_equal (λ r, exchange_rate_cache r.2)) in Hm. exact Hm.
Qed.

Lemma oblivious_reply {A} (m : M A) c w :
  cache_oblivious m → (m (write_cache c w).2).1 = (m w).1.
Proof. intros Hm. by rewrite Hm. Qed.

Ltac oblivious :=
  repeat first
    [ apply oblivious_ret | apply oblivious_now | apply oblivious_requests_get
    | apply oblivious_random_random | assumption
    | apply oblivious_bind; [|intros ?]
    | progress case_match ].

Lemma oblivious_try_api api_config base_currency target_currency :
  cache_oblivious (try_api api_config base_currency target_currency).
Proof. unfold try_api. cbv zeta. oblivious. Qed.

Lemma oblivious_try_apis apis base_currency target_currency errors :
  cache_oblivious (try_apis apis base_currency target_currency errors).
Proof.
  revert errors. induction apis as [|a rest IH]; intros errors; cbn [try_apis].
  - apply oblivious_ret.
  - apply oblivious_bind; [apply oblivious_try_api|]. intros [error|result]; [apply IH|].
    apply oblivious_ret.
Qed.

Lemma oblivious_fetch base_currency target_currency :
  cache_oblivious (get_exchange_rate_from_api base_currency target_currency).
Proof.
  unfold get_exchange_rate_from_api.
  apply oblivious_bind; [apply oblivious_try_apis|]. intros r. oblivious.
Qed.

Lemma oblivious_history_api base_currency target_currency days :
  cache_oblivious (get_historical_data_from_api base_currency target_currency days).
Proof. unfold get_historical_data_from_api. oblivious. Qed.

Lemma oblivious_simulate today indices base_rate history :
  cache_oblivious (simulate today indices base_rate history).
Proof.
  revert base_rate history. induction indices as [|i rest IH]; intros base_rate history;
    cbn [simulate]; [apply oblivious_ret|].
  destruct (datetime_minus_days today i); [apply oblivious_ret|].
  apply oblivious_bind; [apply oblivious_random_random|]. intros u. apply IH.
Qed.

Lemma oblivious_generate base_currency target_currency days :
  cache_oblivious (generate_historical_data base_currency target_currency days).
Proof.
  unfold generate_historical_data.
  apply oblivious_bind; [apply oblivious_history_api|]. intros real_history.
  assert (cache_oblivious (simulated_history base_currency target_currency days)).
  { unfold simulated_history, random_uniform.
    apply oblivious_bind; [oblivious|]. intros base_rate.
    apply oblivious_bind; [oblivious|]. intros today. apply oblivious_simulate. }
  oblivious.
Qed.

Lemma oblivious_failure status message : cache_oblivious (failure status message).
Proof. unfold failure. oblivious. Qed.

Lemma oblivious_server_error message : cache_oblivious (server_error message).
Proof. unfold server_error. oblivious. Qed.

Lemma oblivious_unsupported what code : cache_oblivious (unsupported what code).
Proof. unfold unsupported. oblivious. Qed.

Lemma oblivious_get_historical_data args : cache_oblivious (get_historical_data args).
Proof.
  unfold get_historical_data. cbv zeta.
  destruct (in_CURRENCY_DATA (str_upper (args_get args "base" "USD"))); cbn [negb];
    [|apply oblivious_unsupported].
  destruct (in_CURRENCY_DATA (str_upper (args_get args "target" "CNY"))); cbn [negb];
    [|apply oblivious_unsupported].
  apply oblivious_bind; [apply oblivious_fetch|]. intros current_rate_data.
  apply oblivious_bind; [apply oblivious_generate|]. intros [e|history].
  - apply oblivious_failure.
  - oblivious.
Qed.

Lemma oblivious_convert_amount args : cache_oblivious (convert_amount args).
Proof.
  unfold convert_amount. cbv zeta.
  destruct (match assoc_get args "amount" with Some s => _ | None => _ end) as [amount|];
    [|apply oblivious_failure].
  destruct (fleb _ _); [apply oblivious_failure|].
  apply oblivious_bind; [apply oblivious_fetch|]. intros [api_result|];
    [|apply oblivious_failure].
  repeat case_match; try apply oblivious_failure. oblivious.
Qed.

Lemma oblivious_get_currencies : cache_oblivious get_currencies.
Proof. unfold get_currencies. oblivious. Qed.

Lemma oblivious_not_found : cache_oblivious not_found.
Proof. apply oblivious_failure. Qed.

(** ** Every outcome of the fetch *)

Lemma api_request_url_configured k api_config base_currency target_currency :
  EXCHANGE_RATE_APIS !! k = Some api_config →
  ∃ url, api_request_url api_config base_currency target_currency = inr url.
Proof.
  intros Hk. destruct k as [|[|[|k]]]; try done; injection Hk as <-;
    eexists; reflexivity.
Qed.

(** Asked in turn, either every provider fails or there is a first one
    that answers with a rate. *)
Lemma providers_fail_or_answer base_currency target_currency w :
  all_providers_fail w base_currency target_currency ∨
  ∃ k api_config rate d,
    first_answer w k api_config base_currency target_currency rate d.
Proof.
  assert (∀ n,
    (∀ k api_config, (k < n)%nat → EXCHANGE_RATE_APIS !! k = Some api_config →
       provider_fails w k api_config base_currency target_currency) ∨
    ∃ k api_config rate d,
      first_answer w k api_config base_currency target_currency rate d) as Hn.
  { induction n as [|n [IH|IH]]; [left; intros; lia| |by right].
    destruct (EXCHANGE_RATE_APIS !! n) as [api_config|] eqn:Hlook.
    - destruct (api_request_url_configured _ _ base_currency target_currency Hlook)
        as [url Hurl].
      destruct (answer (network w (length (sent w) + n) url (api_timeout api_config))
                  target_currency) as [[rate d]|] eqn:Hans.
      + right. exists n, api_config, rate, d. split; [done|]. split; [done|].
        by exists url.
      + left. intros k a Hk Ha. destruct (decide (k = n)) as [->|Hne].
        * assert (a = api_config) as -> by congruence. by exists url.
        * apply IH; [lia|done].
    - left. intros k a Hk Ha. destruct (decide (k = n)) as [->|Hne]; [congruence|].
      apply IH; [lia|done]. }
  destruct (Hn (length EXCHANGE_RATE_APIS)) as [Hall|Hfirst]; [left|by right].
  intros k api_config Hk. apply Hall; [|done]. by eapply lookup_lt_Some.
Qed.

(** What the fetch returns, in every world: the quote of the first
    provider that answers, or, when all fail, the default quote for USD to
    CNY and nothing for any other pair. *)
Lemma fetch_cases base_currency target_currency w :
  let fetched := get_exchange_rate_from_api base_currency target_currency w in
  (∃ k api_config rate d,
     first_answer w k api_config base_currency target_currency rate d ∧
     fetched.1 = Some (provider_quote api_config rate d (clock w (ticks w))) ∧
     sent fetched.2
       = sent w ++ urls_of (take (S k) EXCHANGE_RATE_APIS) base_currency target_currency) ∨
  (all_providers_fail w base_currency target_currency ∧
   fetched.1 = (if is_USD_CNY base_currency target_currency
                then Some (default_quote (clock w (ticks w))) else None) ∧
   sent fetched.2
     = sent w ++ urls_of EXCHANGE_RATE_APIS base_currency target_currency).
Proof.
  intros fetched. unfold fetched.
  destruct (providers_fail_or_answer base_currency target_currency w)
    as [Hall|(k & api_config & rate & d & Hfirst)].
  - right. split; [done|].
    destruct (fetch_all_fail _ _ _ Hall) as (w' & -> & _ & Hsent). cbn [fst snd].
    split; [|done]. by destruct (is_USD_CNY _ _).
  - left. exists k, api_config, rate, d. split; [done|].
    destruct Hfirst as (Hk & Hbefore & Hans).
    destruct (fetch_first_answer _ _ _ _ _ _ _ Hk Hbefore Hans) as (w' & -> & _ & Hsent).
    done.
Qed.

Lemma provider_answers_truthy w k api_config base_currency target_currency rate d :
  provider_answers w k api_config base_currency target_currency rate d →
  truthy rate = true.
Proof.
  intros (url & _ & Ha). unfold answer in Ha.
  repeat case_match; try discriminate. by injection Ha as <- _.
Qed.

Lemma truthy_not_None (rate : pyval) : truthy rate = true → is_not_None rate = true.
Proof. by destruct rate. Qed.

Lemma truthy_ne_zero (rate : pyval) : truthy rate = true → ne_zero rate = true.
Proof. by destruct rate. Qed.

(** A rate that the fetch returns is never [None]. *)
Lemma fetch_rate_not_None base_currency target_currency w result :
  (get_exchange_rate_from_api base_currency target_currency w).1 = Some result →
  is_not_None (result_rate result) = true.
Proof.
  intros Hfetch.
  destruct (fetch_cases base_currency target_currency w)
    as [(k & api_config & rate & d & (_ & _ & Hans) & Hrun & _)|(_ & Hrun & _)];
    rewrite Hfetch in Hrun.
  - injection Hrun as ->. apply truthy_not_None. by eapply provider_answers_truthy.
  - destruct (is_USD_CNY _ _); [|done]. by injection Hrun as ->.
Qed.

(** X1. Whatever the providers do, the fetch ends in one of three ways.  It
    returns the quote of a provider exactly when that provider is the
    first, in the configured order, to answer with a rate that counts as
    true; it returns the default quote only for USD to CNY and only when
    every provider failed; and it returns nothing only for another pair
    and only when every provider failed. *)
Theorem fetch_result_classified (base_currency target_currency : string) (w : World) :
  match (get_exchange_rate_from_api base_currency target_currency w).1 with
  | Some result =>
      (∃ k api_config rate d,
         first_answer w k api_config base_currency target_currency rate d ∧
         truthy rate = true ∧
         result = provider_quote api_config rate d (clock w (ticks w))) ∨
      (all_providers_fail w base_currency target_currency ∧
       (base_currency = "USD" ∧ target_currency = "CNY") ∧
       result = default_quote (clock w (ticks w)))
  | None =>
      all_providers_fail w base_currency target_currency ∧
      ¬ (base_currency = "USD" ∧ target_currency = "CNY")
  end.
Proof.
  destruct (fetch_cases base_currency target_currency w)
    as [(k & api_config & rate & d & Hfirst & -> & _)|(Hall & -> & _)].
  - left. exists k, api_config, rate, d. split; [done|]. split; [|done].
    destruct Hfirst as (_ & _ & Hans). by eapply provider_answers_truthy.
  - destruct (is_USD_CNY base_currency target_currency) eqn:Hpair.
    + right. by apply is_USD_CNY_true in Hpair.
    + split; [done|]. rewrite <- is_USD_CNY_true. congruence.
Qed.

(** X2. A fetch sends one, two or three requests: the URLs of the providers
    in the configured order, up to and including the first provider that
    answers with a rate, each asked once.  It stops short of the third
    provider only when it returns the quote of a provider.  It reads the
    clock once at most, and leaves the cache and the random numbers
    alone. *)
Theorem fetch_requests (base_currency target_currency : string) (w : World) :
  let fetched := get_exchange_rate_from_api base_currency target_currency w in
  let urls := ["https://api.exchangerate-api.com/v4/latest/" +:+ base_currency;
               "https://api.frankfurter.app/latest?from=" +:+ base_currency
                 +:+ "&to=" +:+ target_currency;
               "https://open.er-api.com/v6/latest/" +:+ base_currency] in
  (∃ n, (1 ≤ n ≤ 3)%nat ∧
     sent fetched.2 = sent w ++ take n urls ∧
     ((n < 3)%nat →
        ∃ api_config result,
          EXCHANGE_RATE_APIS !! (n - 1)%nat = Some api_config ∧
          fetched.1 = Some result ∧ result_source result = api_name api_config)) ∧
  (ticks w ≤ ticks fetched.2 ≤ S (ticks w))%nat ∧
  exchange_rate_cache fetched.2 = exchange_rate_cache w ∧
  rolls fetched.2 = rolls w.
Proof.
  intros fetched urls. subst fetched.
  pose proof (urls_of_EXCHANGE_RATE_APIS base_currency target_currency) as Hurls.
  fold urls in Hurls.
  split; [|split; [apply fetch_ticks|]].
  - destruct (fetch_cases base_currency target_currency w)
      as [(k & api_config & rate & d & (Hk & _) & -> & ->)|(_ & _ & ->)].
    + exists (S k). pose proof (lookup_lt_Some _ _ _ Hk) as Hlt.
      change (length EXCHANGE_RATE_APIS) with 3%nat in Hlt.
      split; [lia|]. split.
      * f_equal. rewrite <- Hurls.
        destruct k as [|[|[|k]]]; try done; lia.
      * intros _. exists api_config. eexists. replace (S k - 1)%nat with k by lia.
        by repeat split.
    + exists 3%nat. split; [lia|]. split; [by rewrite Hurls|]. lia.
  - by destruct (fetch_frame base_currency target_currency w) as (? & _ & _ & _ & ?).
Qed.

(** ** The paths of the exchange-rate endpoint *)

Lemma name_of_supported code :
  in_CURRENCY_DATA code = true → ∃ name, name_of code = inr name.
Proof.
  unfold in_CURRENCY_DATA, name_of. intros Hin.
  apply bool_decide_eq_true in Hin as [info Hinfo]. rewrite Hinfo. by eexists.
Qed.

Lemma get_cached_rate_ticks base_currency target_currency w :
  (ticks w ≤ ticks (get_cached_rate base_currency target_currency w).2 ≤ S (ticks w))%nat.
Proof.
  unfold get_cached_rate. rewrite run_bind. cbn [read_cache fst snd].
  destruct (_ !! _); [|unfold mret, M_ret; cbn [snd]; lia].
  rewrite run_bind. cbn [now fst snd].
  case_bool_decide; unfold mret, M_ret; cbn [fst snd ticks]; lia.
Qed.

(** The answer from the cache: the stored rate and source, today's date
    as [last_updated], no request to a provider, and the cache as it
    was.  A stored rate that has no inverse makes the handler raise. *)
Lemma get_exchange_rate_hit args w :
  let base_currency := str_upper (args_get args "base" "USD") in
  let target_currency := str_upper (args_get args "target" "CNY") in
  let looked := get_cached_rate base_currency target_currency w in
  let run := get_exchange_rate args w in
  in_CURRENCY_DATA base_currency = true →
  in_CURRENCY_DATA target_currency = true →
  is_not_None looked.1.1 = true →
  match inverse_of looked.1.1 with
  | inr inverse_rate =>
      ∃ json,
        run.1 = Reply 200 json ∧
        assoc_get json "success" = Some (PBool true) ∧
        assoc_get json "exchange_rate" = Some looked.1.1 ∧
        assoc_get json "inverse_rate" = Some inverse_rate ∧
        assoc_get json "last_updated"
          = Some (PStr (strftime "%Y-%m-%d" (clock w (ticks looked.2)))) ∧
        assoc_get json "source" = Some looked.1.2 ∧
        assoc_get json "cached" = Some (PBool true)
  | inl e => run.1 = Raised e
  end ∧
  exchange_rate_cache run.2 = exchange_rate_cache w ∧
  sent run.2 = sent w.
Proof.
  intros base_currency target_currency looked run Hbase Htarget Hsome.
  subst run looked.
  unfold get_exchange_rate. fold base_currency target_currency.
  rewrite Hbase, Htarget. cbn [negb]. rewrite run_bind.
  destruct (get_cached_rate_frame base_currency target_currency w) as [Hframe Hsent].
  destruct (get_cached_rate base_currency target_currency w)
    as [[cached_rate cached_source] w0]. cbn [fst snd] in *.
  rewrite Hsome.
  destruct (name_of_supported _ Hbase) as [base_name ->].
  destruct (name_of_supported _ Htarget) as [target_name ->].
  destruct Hframe as (Hcache & Hclock & _).
  destruct (inverse_of cached_rate) as [e|inverse_rate].
  - by destruct cached_rate.
  - rewrite !run_bind. cbn [now fst snd exchange_rate_cache sent].
    split; [|done]. eexists. split; [reflexivity|]. rewrite Hclock. by repeat split.
Qed.

(** The answer after a miss: the fetch is run on the world the read of
    the cache leaves; without a quote the answer is 503 and the cache
    is as it was; with a quote, its rate and source are stored under the
    key of the pair, and then the inverse is computed. *)
Lemma get_exchange_rate_miss args w :
  let base_currency := str_upper (args_get args "base" "USD") in
  let target_currency := str_upper (args_get args "target" "CNY") in
  let looked := get_cached_rate base_currency target_currency w in
  let fetched := get_exchange_rate_from_api base_currency target_currency looked.2 in
  let run := get_exchange_rate args w in
  in_CURRENCY_DATA base_currency = true →
  in_CURRENCY_DATA target_currency = true →
  is_not_None looked.1.1 = false →
  sent run.2 = sent fetched.2 ∧
  match fetched.1 with
  | None =>
      (∃ json, run.1 = Reply 503 json ∧ assoc_get json "success" = Some (PBool false) ∧
               assoc_get json "cached" = None) ∧
      exchange_rate_cache run.2 = exchange_rate_cache w
  | Some result =>
      exchange_rate_cache run.2
        = <[cache_key base_currency target_currency :=
              {| cache_rate := result_rate result;
                 cache_source := result_source result;
                 cache_timestamp := clock w (ticks fetched.2) |}]>
            (exchange_rate_cache w) ∧
      match inverse_of (result_rate result) with
      | inr inverse_rate =>
          ∃ json,
            run.1 = Reply 200 json ∧
            assoc_get json "success" = Some (PBool true) ∧
            assoc_get json "exchange_rate" = Some (result_rate result) ∧
            assoc_get json "inverse_rate" = Some inverse_rate ∧
            assoc_get json "last_updated" = Some (result_date result) ∧
            assoc_get json "source" = Some (PStr (result_source result)) ∧
            assoc_get json "cached" = Some (PBool false)
      | inl e =>
          ∃ json, run.1 = Reply 500 json ∧ assoc_get json "success" = Some (PBool false) ∧
                  assoc_get json "cached" = None
      end
  end.
Proof.
  intros base_currency target_currency looked fetched run Hbase Htarget Hnone.
  subst run fetched looked.
  unfold get_exchange_rate. fold base_currency target_currency.
  rewrite Hbase, Htarget. cbn [negb]. rewrite run_bind.
  destruct (get_cached_rate_frame base_currency target_currency w) as [Hframe0 _].
  pose proof (fetch_frame base_currency target_currency
                (get_cached_rate base_currency target_currency w).2) as Hframe1.
  destruct (get_cached_rate base_currency target_currency w)
    as [[cached_rate cached_source] w0]. cbn [fst snd] in *.
  rewrite Hnone, run_bind.
  destruct (get_exchange_rate_from_api base_currency target_currency w0)
    as [[result|] w1]; cbn [fst snd] in *.
  - destruct Hframe0 as (Hc0 & Hk0 & _). destruct Hframe1 as (Hc1 & Hk1 & _).
    rewrite run_bind.
    pose proof (set_cached_rate_cache base_currency target_currency
                  (result_rate result) (result_source result) w1) as Hput.
    pose proof (set_cached_rate_sent base_currency target_currency
                  (result_rate result) (result_source result) w1) as Hsent.
    destruct (set_cached_rate _ _ _ _ w1) as [[] w2]. cbn [fst snd] in *.
    destruct (name_of_supported _ Hbase) as [base_name ->].
    destruct (name_of_supported _ Htarget) as [target_name ->].
    rewrite Hc1, Hc0, Hk1, Hk0 in Hput.
    destruct (inverse_of (result_rate result)) as [e|inverse_rate].
    + unfold server_error. rewrite run_bind. cbn [now fst snd exchange_rate_cache sent].
      split; [done|]. split; [done|]. eexists. by repeat split.
    + rewrite !run_bind. cbn [now fst snd exchange_rate_cache sent].
      split; [done|]. split; [done|]. eexists. by repeat split.
  - rewrite run_bind. cbn [now fst snd]. unfold mret, M_ret.
    cbn [fst snd exchange_rate_cache sent].
    destruct Hframe0 as (Hc0 & _). destruct Hframe1 as (Hc1 & _).
    split; [done|]. split; [|congruence]. eexists. by repeat split.
Qed.

(** ** The keys of the cache *)

Lemma append_cons c s1 s2 : String c s1 +:+ s2 = String c (s1 +:+ s2).
Proof. reflexivity. Qed.

Lemma assoc_get_elem_of {V} (d : list (string * V)) k v :
  assoc_get d k = Some v → (k, v) ∈ d.
Proof.
  induction d as [|[k' v'] d IH]; [done|]. cbn [assoc_get].
  destruct (String.eqb_spec k' k) as [->|Hne].
  - intros [= ->]. apply list_elem_of_here.
  - intros Hd. apply list_elem_of_further. by apply IH.
Qed.

Lemma assoc_get_is_Some {V} (d : list (string * V)) k :
  is_Some (assoc_get d k) ↔ k ∈ d.*1.
Proof.
  induction d as [|[k' v'] d IH].
  - split; [by intros [? ?]|by intros ?%elem_of_nil].
  - cbn [assoc_get]. rewrite fmap_cons, elem_of_cons. cbn [fst].
    destruct (String.eqb_spec k' k) as [->|Hne].
    + split; [by left|by eexists].
    + rewrite IH. split; [by right|]. by intros [?|?].
Qed.

Lemma supported_elem_of code :
  in_CURRENCY_DATA code = true ↔ code ∈ CURRENCY_DATA.*1.
Proof.
  unfold in_CURRENCY_DATA. rewrite bool_decide_eq_true. apply assoc_get_is_Some.
Qed.

Lemma supported_plain code : in_CURRENCY_DATA code = true → plain_code code = true.
Proof.
  rewrite supported_elem_of.
  assert (Forall (λ c, plain_code c = true) CURRENCY_DATA.*1) as Hall
    by (by repeat constructor).
  rewrite Forall_forall in Hall. apply Hall.
Qed.

(** The keys of two pairs differ when the pairs differ and the base
    codes do not contain the separator. *)
Lemma cache_key_inj b1 t1 b2 t2 :
  plain_code b1 = true → plain_code b2 = true →
  cache_key b1 t1 = cache_key b2 t2 → b1 = b2 ∧ t1 = t2.
Proof.
  unfold cache_key. revert b2.
  induction b1 as [|c1 b1 IH]; intros [|c2 b2] H1 H2 Heq.
  - change (String "_" t1 = String "_" t2) in Heq. by injection Heq as ->.
  - change (String "_" t1 = String c2 (b2 +:+ "_" +:+ t2)) in Heq.
    injection Heq as <- _. done.
  - change (String c1 (b1 +:+ "_" +:+ t1) = String "_" t2) in Heq.
    injection Heq as -> _. done.
  - rewrite !append_cons in Heq. injection Heq as -> Heq.
    cbn [plain_code] in H1, H2. apply andb_true_iff in H1 as [_ H1], H2 as [_ H2].
    destruct (IH b2 H1 H2 Heq) as [-> ->]. done.
Qed.

(** X3. Storing the rate of one pair leaves the entries of every other pair
    alone: for supported base codes, whose keys cannot collide, what a
    read of another pair finds in the cache, and what it returns, is what
    it would have been without the put. *)
Theorem put_leaves_other_pairs (base1 target1 base2 target2 : string)
    (rate : pyval) (source : string) (w : World) :
  in_CURRENCY_DATA base1 = true →
  in_CURRENCY_DATA base2 = true →
  (base1, target1) ≠ (base2, target2) →
  let w' := (set_cached_rate base1 target1 rate source w).2 in
  cache_key base1 target1 ≠ cache_key base2 target2 ∧
  exchange_rate_cache w' !! cache_key base2 target2
    = exchange_rate_cache w !! cache_key base2 target2 ∧
  (get_cached_rate base2 target2 w').1 = (get_cached_rate base2 target2 (now w).2).1.
Proof.
  intros H1 H2 Hpairs w'.
  assert (cache_key base1 target1 ≠ cache_key base2 target2) as Hkeys.
  { intros Heq. apply cache_key_inj in Heq as [-> ->]; [done|by apply supported_plain..]. }
  assert (exchange_rate_cache w' !! cache_key base2 target2
          = exchange_rate_cache w !! cache_key base2 target2) as Hlook.
  { unfold w'. rewrite set_cached_rate_cache. by apply lookup_insert_ne. }
  do 2 (split; [done|]).
  unfold get_cached_rate. rewrite !run_bind. cbn [read_cache fst snd].
  rewrite Hlook. change (exchange_rate_cache (now w).2) with (exchange_rate_cache w).
  destruct (exchange_rate_cache w !! cache_key base2 target2); [|done].
  rewrite !run_bind. subst w'.
  change (now (set_cached_rate base1 target1 rate source w).2).1
    with (clock w (S (ticks w))).
  change (now (now w).2).1 with (clock w (S (ticks w))).
  by case_bool_decide.
Qed.

(** ** Clearing the cache *)

(** X4. Clearing the cache answers with success and leaves the cache empty:
    every read that follows misses, whatever the pair and the time, the
    health endpoint reports zero entries, and an exchange-rate request
    for a supported pair goes to the providers, the first one first, and
    is not answered from the cache. *)
Theorem clear_cache_empties (w : World) :
  let cleared := clear_cache w in
  (∃ json, cleared.1 = Reply 200 json ∧
           assoc_get json "success" = Some (PBool true)) ∧
  exchange_rate_cache cleared.2 = ∅ ∧
  sent cleared.2 = sent w ∧
  (∀ w', exchange_rate_cache w' = exchange_rate_cache cleared.2 →
     (∀ base_currency target_currency,
        (get_cached_rate base_currency target_currency w').1 = (PNone, PNone)) ∧
     (∃ json, (health_check w').1 = Reply 200 json ∧
              assoc_get json "cache_size" = Some (PInt 0)) ∧
     (∀ args,
        let base_currency := str_upper (args_get args "base" "USD") in
        let target_currency := str_upper (args_get args "target" "CNY") in
        in_CURRENCY_DATA base_currency = true →
        in_CURRENCY_DATA target_currency = true →
        (∃ more,
           sent (get_exchange_rate args w').2
             = sent w' ++ ("https://api.exchangerate-api.com/v4/latest/"
                           +:+ base_currency) :: more) ∧
        ∀ status json,
          (get_exchange_rate args w').1 = Reply status json →
          assoc_get json "cached" ≠ Some (PBool true))).
Proof.
  intros cleared. subst cleared.
  unfold clear_cache, clear_cache_store. rewrite !run_bind.
  cbn [write_cache now fst snd]. unfold mret, M_ret. cbn [fst snd exchange_rate_cache sent].
  split; [eexists; by split|]. do 2 (split; [done|]).
  intros w' Hempty.
  assert (∀ base_currency target_currency,
            get_cached_rate base_currency target_currency w' = ((PNone, PNone), w'))
    as Hmiss.
  { intros b t. unfold get_cached_rate. rewrite run_bind. cbn [read_cache fst snd].
    by rewrite Hempty, lookup_empty. }
  split; [intros b t; by rewrite Hmiss|]. split.
  { unfold health_check. rewrite !run_bind. cbn [now read_cache fst snd exchange_rate_cache].
    rewrite Hempty, map_size_empty. eexists. by split. }
  intros args.
  set (base_currency := str_upper (args_get args "base" "USD")).
  set (target_currency := str_upper (args_get args "target" "CNY")).
  intros Hbase Htarget.
  destruct (get_exchange_rate_miss args w' Hbase Htarget) as [Hsent Hreply];
    [fold base_currency target_currency; by rewrite Hmiss|].
  fold base_currency target_currency in Hsent, Hreply.
  rewrite Hmiss in Hsent, Hreply. cbn [fst snd] in Hsent, Hreply.
  split.
  - rewrite Hsent. apply fetch_asks_first_provider.
  - intros status json Hjson. rewrite Hjson in Hreply.
    destruct (get_exchange_rate_from_api base_currency target_currency w').1 as [result|].
    + destruct Hreply as [_ Hreply].
      destruct (inverse_of (result_rate result)).
      * destruct Hreply as (json' & [= -> ->] & _ & Hc). congruence.
      * destruct Hreply as (json' & [= -> ->] & _ & _ & _ & _ & _ & Hc). congruence.
    + destruct Hreply as [(json' & [= -> ->] & _ & Hc) _]. congruence.
Qed.

(** ** What the requests do to the cache *)

Lemma run_serve_all request rest (w : World) :
  serve_all (request :: rest) w =
    ((serve request w).1 :: (serve_all rest (serve request w).2).1,
     (serve_all rest (serve request w).2).2).
Proof.
  cbn [serve_all]. rewrite !run_bind.
  by destruct (serve_all rest (serve request w).2).
Qed.

(** A read that returns a rate found it in the cache, fresh. *)
Lemma get_cached_rate_some base_currency target_currency w :
  is_not_None (get_cached_rate base_currency target_currency w).1.1 = true →
  ∃ e, exchange_rate_cache w !! cache_key base_currency target_currency = Some e ∧
       (get_cached_rate base_currency target_currency w).1
         = (cache_rate e, PStr (cache_source e)) ∧
       clock w (ticks w) - cache_timestamp e < timedelta_seconds 300.
Proof.
  unfold get_cached_rate. rewrite run_bind. cbn [read_cache fst snd].
  destruct (exchange_rate_cache w !! _) as [e|]; [|done].
  rewrite run_bind. cbn [now fst snd]. unfold CACHE_DURATION.
  case_bool_decide; [|done]. intros _. by exists e.
Qed.

(** The exchange-rate endpoint leaves the cache as it was, or stores the
    quote of the fetch it ran under the key of the supported pair. *)
Lemma get_exchange_rate_cache args w :
  let base_currency := str_upper (args_get args "base" "USD") in
  let target_currency := str_upper (args_get args "target" "CNY") in
  exchange_rate_cache (get_exchange_rate args w).2 = exchange_rate_cache w ∨
  in_CURRENCY_DATA base_currency = true ∧
  in_CURRENCY_DATA target_currency = true ∧
  ∃ w0 result n,
    (get_exchange_rate_from_api base_currency target_currency w0).1 = Some result ∧
    exchange_rate_cache (get_exchange_rate args w).2
      = <[cache_key base_currency target_currency :=
            {| cache_rate := result_rate result;
               cache_source := result_source result;
               cache_timestamp := n |}]> (exchange_rate_cache w).
Proof.
  intros base_currency target_currency.
  destruct (in_CURRENCY_DATA base_currency) eqn:Hbase.
  2:{ left. unfold get_exchange_rate. fold base_currency. rewrite Hbase. cbn [negb].
      apply oblivious_cache, oblivious_unsupported. }
  destruct (in_CURRENCY_DATA target_currency) eqn:Htarget.
  2:{ left. unfold get_exchange_rate. fold base_currency target_currency.
      rewrite Hbase, Htarget. cbn [negb].
      apply oblivious_cache, oblivious_unsupported. }
  destruct (is_not_None (get_cached_rate base_currency target_currency w).1.1) eqn:Hhit.
  - left. by destruct (get_exchange_rate_hit args w Hbase Htarget Hhit) as (_ & ? & _).
  - destruct (get_exchange_rate_miss args w Hbase Htarget Hhit) as [_ Hrun].
    fold base_currency target_currency in Hrun.
    destruct (get_exchange_rate_from_api base_currency target_currency _).1
      as [result|] eqn:Hfetch.
    + right. do 2 (split; [done|]). destruct Hrun as [Hcache _].
      by eexists _, result, _.
    + left. by destruct Hrun as [_ ?].
Qed.

(** What a request does to the cache: nothing, or it empties it, or it
    stores the quote of a fetch under the key of a supported pair. *)
Lemma serve_cache request w :
  exchange_rate_cache (serve request w).2 = exchange_rate_cache w ∨
  exchange_rate_cache (serve request w).2 = ∅ ∨
  ∃ base_currency target_currency w0 result n,
    in_CURRENCY_DATA base_currency = true ∧
    in_CURRENCY_DATA target_currency = true ∧
    (get_exchange_rate_from_api base_currency target_currency w0).1 = Some result ∧
    exchange_rate_cache (serve request w).2
      = <[cache_key base_currency target_currency :=
            {| cache_rate := result_rate result;
               cache_source := result_source result;
               cache_timestamp := n |}]> (exchange_rate_cache w).
Proof.
  destruct request as [|args|args|args| | |path]; cbn [serve].
  - left. apply oblivious_cache, oblivious_get_currencies.
  - destruct (get_exchange_rate_cache args w)
      as [?|(Hbase & Htarget & w0 & result & n & Hfetch & Hcache)]; [by left|].
    right. right.
    exists (str_upper (args_get args "base" "USD")),
      (str_upper (args_get args "target" "CNY")), w0, result, n.
    split; [exact Hbase|]. split; [exact Htarget|]. split; [exact Hfetch|exact Hcache].
  - left. apply oblivious_cache, oblivious_get_historical_data.
  - left. apply oblivious_cache, oblivious_convert_amount.
  - by left.
  - right. by left.
  - left. apply oblivious_cache, oblivious_not_found.
Qed.

(** A property of the entries that holds of every quote stored, and
    held at the start, holds after any requests. *)
Lemma serve_all_cache (P : string → CacheEntry → Prop) requests w :
  (∀ base_currency target_currency w0 result n,
     in_CURRENCY_DATA base_currency = true →
     in_CURRENCY_DATA target_currency = true →
     (get_exchange_rate_from_api base_currency target_currency w0).1 = Some result →
     P (cache_key base_currency target_currency)
       {| cache_rate := result_rate result;
          cache_source := result_source result;
          cache_timestamp := n |}) →
  map_Forall P (exchange_rate_cache w) →
  map_Forall P (exchange_rate_cache (serve_all requests w).2).
Proof.
  intros Hput. revert w. induction requests as [|request rest IH]; intros w Hw; [done|].
  rewrite run_serve_all. cbn [snd]. apply IH.
  destruct (serve_cache request w)
    as [->|[->|(b & t & w0 & result & n & Hbase & Htarget & Hfetch & ->)]].
  - done.
  - apply map_Forall_empty.
  - apply map_Forall_insert_2; [|done]. by eapply Hput.
Qed.

Lemma size_list_to_set_le (l : list string) :
  (size (list_to_set l : gset string) ≤ length l)%nat.
Proof.
  induction l as [|x l IH]; [by rewrite list_to_set_nil, size_empty|].
  rewrite list_to_set_cons, size_union_alt, size_singleton. cbn [length].
  assert (list_to_set l ∖ {[x]} ⊆ (list_to_set l : gset string)) as Hsub
    by apply subseteq_difference_l, reflexivity.
  apply subseteq_size in Hsub. lia.
Qed.

Lemma supported_key base_currency target_currency :
  in_CURRENCY_DATA base_currency = true →
  in_CURRENCY_DATA target_currency = true →
  cache_key base_currency target_currency ∈ supported_keys.
Proof.
  rewrite !supported_elem_of. intros Hbase Htarget. unfold supported_keys.
  apply list_elem_of_bind. exists base_currency. split; [|done].
  apply list_elem_of_bind. exists target_currency. split; [|done].
  by apply list_elem_of_singleton.
Qed.

Lemma supported_key_inv key :
  key ∈ supported_keys →
  ∃ base_currency target_currency,
    in_CURRENCY_DATA base_currency = true ∧
    in_CURRENCY_DATA target_currency = true ∧
    key = cache_key base_currency target_currency.
Proof.
  unfold supported_keys. intros Hkey.
  apply list_elem_of_bind in Hkey as (b & Hkey & Hb).
  apply list_elem_of_bind in Hkey as (t & Hkey & Ht).
  apply list_elem_of_singleton in Hkey.
  exists b, t. by rewrite !supported_elem_of.
Qed.

(** X5. The cache of a server that started with an empty cache holds only
    keys of pairs of supported currencies, whatever requests it has
    served, so it never holds more than 20 × 20 entries; the health
    endpoint reports the number of entries it holds, expired ones
    included. *)
Theorem cache_bounded (requests : list Request) (w : World) :
  exchange_rate_cache w = ∅ →
  let w' := (serve_all requests w).2 in
  (∀ key, is_Some (exchange_rate_cache w' !! key) →
     ∃ base_currency target_currency,
       in_CURRENCY_DATA base_currency = true ∧
       in_CURRENCY_DATA target_currency = true ∧
       key = cache_key base_currency target_currency) ∧
  (size (exchange_rate_cache w') ≤ 400)%nat ∧
  ∃ json,
    (health_check w').1 = Reply 200 json ∧
    assoc_get json "cache_size"
      = Some (PInt (Z.of_nat (size (exchange_rate_cache w')))) ∧
    assoc_get json "supported_currencies" = Some (PInt 20).
Proof.
  intros Hempty w'.
  assert (map_Forall (λ key _, key ∈ supported_keys) (exchange_rate_cache w')) as Hkeys.
  { apply serve_all_cache.
    - intros b t w0 result n Hbase Htarget _. by apply supported_key.
    - rewrite Hempty. apply map_Forall_empty. }
  split; [|split].
  - intros key [e He]. apply supported_key_inv. by eapply (Hkeys key e).
  - rewrite <- (size_dom (D:=gset string)).
    trans (size (list_to_set supported_keys : gset string)).
    + apply subseteq_size. intros key Hkey. apply elem_of_dom in Hkey as [e He].
      apply elem_of_list_to_set. by eapply (Hkeys key e).
    + etrans; [apply size_list_to_set_le|]. done.
  - unfold health_check. rewrite !run_bind. cbn [now read_cache fst snd exchange_rate_cache].
    eexists. by repeat split.
Qed.

(** ** Rates in the cache and in the answers *)

(** A rate that the fetch returns is not zero, on a runtime where 6.99
    is not zero. *)
Lemma fetch_rate_ne_zero base_currency target_currency w result :
  ne_zero (PFloat (float_lit 699 (-2))) = true →
  (get_exchange_rate_from_api base_currency target_currency w).1 = Some result →
  ne_zero (result_rate result) = true.
Proof.
  intros H699 Hfetch.
  destruct (fetch_cases base_currency target_currency w)
    as [(k & api_config & rate & d & (_ & _ & Hans) & Hrun & _)|(_ & Hrun & _)];
    rewrite Hfetch in Hrun.
  - injection Hrun as ->. apply truthy_ne_zero. by eapply provider_answers_truthy.
  - destruct (is_USD_CNY _ _); [|done]. by injection Hrun as ->.
Qed.

Lemma inverse_of_ne_zero rate :
  ne_zero rate = true → inverse_of rate = one_over rate.
Proof. unfold inverse_of. by intros ->. Qed.

(** X6. On a server that started with an empty cache, the rate of a
    successful answer of the exchange-rate endpoint is never zero,
    whatever requests were served before: the inverse rate is always
    [1 / exchange_rate], and the alternative [0] is never reported.  The
    runtime has to tell 6.99 from zero. *)
Theorem exchange_rate_never_zero (requests : list Request) (w : World)
    (args : list (string * string)) (status : Z) (json : list (string * pyval)) :
  ne_zero (PFloat (float_lit 699 (-2))) = true →
  exchange_rate_cache w = ∅ →
  (get_exchange_rate args (serve_all requests w).2).1 = Reply status json →
  assoc_get json "success" = Some (PBool true) →
  ∃ rate inverse_rate,
    assoc_get json "exchange_rate" = Some rate ∧
    ne_zero rate = true ∧
    assoc_get json "inverse_rate" = Some inverse_rate ∧
    one_over rate = inr inverse_rate.
Proof.
  intros H699 Hempty. set (w' := (serve_all requests w).2). intros Hrun Hsuccess.
  assert (map_Forall (λ _ e, ne_zero (cache_rate e) = true) (exchange_rate_cache w'))
    as Hrates.
  { apply serve_all_cache.
    - intros b t w0 result n _ _ Hfetch. by eapply fetch_rate_ne_zero.
    - rewrite Hempty. apply map_Forall_empty. }
  set (base_currency := str_upper (args_get args "base" "USD")).
  set (target_currency := str_upper (args_get args "target" "CNY")).
  destruct (in_CURRENCY_DATA base_currency) eqn:Hbase.
  2:{ destruct (unsupported_code_refused args w' (or_introl Hbase) get_exchange_rate)
        as (json' & _ & _ & Hrun' & Hfalse & _); [by left|]. congruence. }
  destruct (in_CURRENCY_DATA target_currency) eqn:Htarget.
  2:{ destruct (unsupported_code_refused args w' (or_intror Htarget) get_exchange_rate)
        as (json' & _ & _ & Hrun' & Hfalse & _); [by left|]. congruence. }
  destruct (is_not_None (get_cached_rate base_currency target_currency w').1.1) eqn:Hhit.
  - destruct (get_cached_rate_some _ _ _ Hhit) as (e & He & Hlooked & _).
    pose proof (Hrates _ _ He) as Hne. cbn beta in Hne.
    destruct (get_exchange_rate_hit args w' Hbase Htarget Hhit) as [Hreply _].
    fold base_currency target_currency in Hreply.
    rewrite Hlooked in Hreply. cbn [fst snd] in Hreply.
    rewrite (inverse_of_ne_zero _ Hne) in Hreply.
    destruct (one_over (cache_rate e)) as [err|inverse_rate] eqn:Hover; [congruence|].
    destruct Hreply as (json' & Hrun' & _ & Hrate & Hinverse & _).
    assert (json' = json) as -> by congruence.
    by exists (cache_rate e), inverse_rate.
  - destruct (get_exchange_rate_miss args w' Hbase Htarget Hhit) as [_ Hreply].
    fold base_currency target_currency in Hreply.
    destruct (get_exchange_rate_from_api base_currency target_currency _).1
      as [result|] eqn:Hfetch.
    + destruct Hreply as [_ Hreply].
      pose proof (fetch_rate_ne_zero _ _ _ _ H699 Hfetch) as Hne.
      rewrite (inverse_of_ne_zero _ Hne) in Hreply.
      destruct (one_over (result_rate result)) as [err|inverse_rate] eqn:Hover.
      * destruct Hreply as (json' & Hrun' & Hfalse & _).
        assert (json' = json) as -> by congruence. congruence.
      * destruct Hreply as (json' & Hrun' & _ & Hrate & Hinverse & _).
        assert (json' = json) as -> by congruence.
        by exists (result_rate result), inverse_rate.
    + destruct Hreply as [(json' & Hrun' & Hfalse & _) _].
      assert (json' = json) as -> by congruence. congruence.
Qed.

(** X7. A quote whose rate has no inverse, as when a provider reports the
    rate as a string, is stored before the inverse is computed.  The
    request that fetched it is answered with status 500, and from then
    on, until the entry is 300 seconds old, every request for the pair
    finds the entry and raises outside the handler's [try], without a
    JSON answer and without asking any provider. *)
Theorem unusable_rate_stays_cached (args : list (string * string)) (w : World)
    (json : list (string * pyval)) :
  (get_exchange_rate args w).1 = Reply 500 json →
  let base_currency := str_upper (args_get args "base" "USD") in
  let target_currency := str_upper (args_get args "target" "CNY") in
  ∃ e error,
    exchange_rate_cache (get_exchange_rate args w).2
      !! cache_key base_currency target_currency = Some e ∧
    inverse_of (cache_rate e) = inl error ∧
    ∀ args' w',
      str_upper (args_get args' "base" "USD") = base_currency →
      str_upper (args_get args' "target" "CNY") = target_currency →
      exchange_rate_cache w' = exchange_rate_cache (get_exchange_rate args w).2 →
      clock w' (ticks w') - cache_timestamp e < timedelta_seconds 300 →
      (get_exchange_rate args' w').1 = Raised error ∧
      sent (get_exchange_rate args' w').2 = sent w'.
Proof.
  intros Hrun base_currency target_currency.
  destruct (in_CURRENCY_DATA base_currency) eqn:Hbase.
  2:{ destruct (unsupported_code_refused args w (or_introl Hbase) get_exchange_rate)
        as (json' & _ & _ & Hrun' & _); [by left|]. congruence. }
  destruct (in_CURRENCY_DATA target_currency) eqn:Htarget.
  2:{ destruct (unsupported_code_refused args w (or_intror Htarget) get_exchange_rate)
        as (json' & _ & _ & Hrun' & _); [by left|]. congruence. }
  destruct (is_not_None (get_cached_rate base_currency target_currency w).1.1) eqn:Hhit.
  { destruct (get_exchange_rate_hit args w Hbase Htarget Hhit) as [Hreply _].
    destruct (inverse_of _); [congruence|].
    destruct Hreply as (json' & Hrun' & _). congruence. }
  destruct (get_exchange_rate_miss args w Hbase Htarget Hhit) as [_ Hreply].
  fold base_currency target_currency in Hreply.
  destruct (get_exchange_rate_from_api base_currency target_currency _).1
    as [result|] eqn:Hfetch.
  2:{ destruct Hreply as [(json' & Hrun' & _) _]. congruence. }
  destruct Hreply as [Hcache Hreply].
  destruct (inverse_of (result_rate result)) as [error|inverse_rate] eqn:Hinverse.
  2:{ destruct Hreply as (json' & Hrun' & _). congruence. }
  pose proof (fetch_rate_not_None _ _ _ _ Hfetch) as Hsome.
  eexists _, error. split; [rewrite Hcache; apply lookup_insert_eq|].
  cbn [cache_rate cache_timestamp]. split; [done|].
  intros args' w' Hb Ht Hsame Hfresh.
  assert (get_cached_rate base_currency target_currency w'
          = ((result_rate result, PStr (result_source result)), (now w').2)) as Hlooked.
  { eapply (get_cached_rate_hit _ _ _ {| cache_rate := result_rate result |});
      [by rewrite Hsame, Hcache, lookup_insert_eq|done]. }
  rewrite <- Hb in Hbase. rewrite <- Ht in Htarget.
  destruct (get_exchange_rate_hit args' w' Hbase Htarget) as (Hreply' & _ & Hsent).
  { by rewrite Hb, Ht, Hlooked. }
  rewrite Hb, Ht, Hlooked in Hreply'. cbn [fst snd] in Hreply'.
  rewrite Hinverse in Hreply'. done.
Qed.

Lemma inverse_of_float (x : float) : ∃ inverse_rate, inverse_of (PFloat x) = inr inverse_rate.
Proof.
  unfold inverse_of, ne_zero, one_over.
  destruct (feqb x (float_lit 0 0)); by eexists.
Qed.

(** X8. The default quote is cached like the quote of a provider.  When
    every provider fails for USD to CNY and the cache does not serve the
    pair, the answer reports 6.99 from the default source and stores it;
    until the entry is 300 seconds old, every request for the pair is
    answered with 6.99 from the cache, and no provider is asked, whatever
    the providers would answer by then. *)
Theorem default_rate_is_cached (args : list (string * string)) (w : World) :
  str_upper (args_get args "base" "USD") = "USD" →
  str_upper (args_get args "target" "CNY") = "CNY" →
  is_not_None (get_cached_rate "USD" "CNY" w).1.1 = false →
  all_providers_fail w "USD" "CNY" →
  (∃ json,
     (get_exchange_rate args w).1 = Reply 200 json ∧
     assoc_get json "exchange_rate" = Some (PFloat (float_lit 699 (-2))) ∧
     assoc_get json "source" = Some (PStr "默认汇率(演示)") ∧
     assoc_get json "cached" = Some (PBool false)) ∧
  ∃ e,
    exchange_rate_cache (get_exchange_rate args w).2 !! cache_key "USD" "CNY" = Some e ∧
    cache_rate e = PFloat (float_lit 699 (-2)) ∧
    cache_source e = "默认汇率(演示)" ∧
    ∀ args' w',
      str_upper (args_get args' "base" "USD") = "USD" →
      str_upper (args_get args' "target" "CNY") = "CNY" →
      exchange_rate_cache w' = exchange_rate_cache (get_exchange_rate args w).2 →
      clock w' (ticks w') - cache_timestamp e < timedelta_seconds 300 →
      ∃ json',
        (get_exchange_rate args' w').1 = Reply 200 json' ∧
        assoc_get json' "exchange_rate" = Some (PFloat (float_lit 699 (-2))) ∧
        assoc_get json' "source" = Some (PStr "默认汇率(演示)") ∧
        assoc_get json' "cached" = Some (PBool true) ∧
        sent (get_exchange_rate args' w').2 = sent w'.
Proof.
  intros Hb Ht Hmiss Hall.
  assert (in_CURRENCY_DATA "USD" = true) as Hbase by done.
  assert (in_CURRENCY_DATA "CNY" = true) as Htarget by done.
  pose proof (get_exchange_rate_miss args w) as Hrun. cbv zeta in Hrun.
  rewrite Hb, Ht in Hrun. destruct (Hrun Hbase Htarget Hmiss) as [_ Hreply]. clear Hrun.
  destruct (get_cached_rate_frame "USD" "CNY" w) as [Hframe Hsent].
  destruct (fetch_all_fail "USD" "CNY" (get_cached_rate "USD" "CNY" w).2)
    as (w1 & Hfetch & _); [by eapply all_providers_fail_frame|].
  rewrite Hfetch in Hreply. change (is_USD_CNY "USD" "CNY") with true in Hreply.
  cbn [fst snd result_rate result_source result_date] in Hreply.
  destruct Hreply as [Hcache Hreply].
  destruct (inverse_of_float (float_lit 699 (-2))) as [inverse_rate Hinverse].
  rewrite Hinverse in Hreply.
  destruct Hreply as (json & Hjson & _ & Hrate & _ & _ & Hsource & Hcached).
  split; [by exists json|].
  eexists. split; [rewrite Hcache; apply lookup_insert_eq|].
  cbn [cache_rate cache_source cache_timestamp]. do 2 (split; [done|]).
  intros args' w' Hb' Ht' Hsame Hfresh.
  assert (get_cached_rate "USD" "CNY" w'
          = ((PFloat (float_lit 699 (-2)), PStr "默认汇率(演示)"), (now w').2)) as Hlooked.
  { eapply (get_cached_rate_hit _ _ _ {| cache_rate := PFloat (float_lit 699 (-2)) |});
      [by rewrite Hsame, Hcache, lookup_insert_eq|done]. }
  pose proof (get_exchange_rate_hit args' w') as Hrun'. cbv zeta in Hrun'.
  rewrite Hb', Ht', Hlooked in Hrun'. cbn [fst snd] in Hrun'.
  destruct (Hrun' Hbase Htarget eq_refl) as (Hreply' & _ & Hsent').
  rewrite Hinverse in Hreply'.
  destruct Hreply' as (json' & Hjson' & _ & Hrate' & _ & _ & Hsource' & Hcached').
  by exists json'.
Qed.

(** X9. The exchange-rate endpoint writes to the cache only when it has
    fetched a quote.  An answer with status 400 or 503, an answer from
    the cache, and a handler that raises leave the cache as it was, so a
    failed fetch is never cached; and no request changes or removes the
    entry of another key. *)
Theorem exchange_rate_cache_writes (args : list (string * string)) (w : World) :
  let base_currency := str_upper (args_get args "base" "USD") in
  let target_currency := str_upper (args_get args "target" "CNY") in
  let run := get_exchange_rate args w in
  (∀ status json,
     run.1 = Reply status json →
     status = 400 ∨ status = 503 ∨ assoc_get json "cached" = Some (PBool true) →
     exchange_rate_cache run.2 = exchange_rate_cache w) ∧
  (∀ e, run.1 = Raised e → exchange_rate_cache run.2 = exchange_rate_cache w) ∧
  (∀ key, key ≠ cache_key base_currency target_currency →
     exchange_rate_cache run.2 !! key = exchange_rate_cache w !! key) ∧
  (∀ key, is_Some (exchange_rate_cache w !! key) →
     is_Some (exchange_rate_cache run.2 !! key)).
Proof.
  intros base_currency target_currency run. subst run.
  assert ((exchange_rate_cache (get_exchange_rate args w).2 = exchange_rate_cache w) ∨
          ((∀ status json,
              (get_exchange_rate args w).1 = Reply status json →
              (status = 200 ∨ status = 500) ∧ assoc_get json "cached" ≠ Some (PBool true)) ∧
           (∀ e, (get_exchange_rate args w).1 ≠ Raised e) ∧
           ∃ entry, exchange_rate_cache (get_exchange_rate args w).2
                    = <[cache_key base_currency target_currency := entry]>
                        (exchange_rate_cache w))) as [Hsame|(Hreply & Hraised & entry & Hput)].
  { destruct (in_CURRENCY_DATA base_currency) eqn:Hbase.
    2:{ left. unfold get_exchange_rate. fold base_currency. rewrite Hbase. cbn [negb].
        apply oblivious_cache, oblivious_unsupported. }
    destruct (in_CURRENCY_DATA target_currency) eqn:Htarget.
    2:{ left. unfold get_exchange_rate. fold base_currency target_currency.
        rewrite Hbase, Htarget. cbn [negb].
        apply oblivious_cache, oblivious_unsupported. }
    destruct (is_not_None (get_cached_rate base_currency target_currency w).1.1) eqn:Hhit.
    { left. by destruct (get_exchange_rate_hit args w Hbase Htarget Hhit) as (_ & ? & _). }
    destruct (get_exchange_rate_miss args w Hbase Htarget Hhit) as [_ Hrun].
    fold base_currency target_currency in Hrun.
    destruct (get_exchange_rate_from_api base_currency target_currency _).1 as [result|].
    2:{ left. by destruct Hrun as [_ ?]. }
    right. destruct Hrun as [Hcache Hrun]. split; [|split; [|by eexists]].
    - intros status json Hjson.
      destruct (inverse_of (result_rate result)).
      + destruct Hrun as (json' & Hjson' & _ & Hcached).
        rewrite Hjson in Hjson'. injection Hjson' as -> ->. split; [by right|congruence].
      + destruct Hrun as (json' & Hjson' & _ & _ & _ & _ & _ & Hcached).
        rewrite Hjson in Hjson'. injection Hjson' as -> ->. split; [by left|congruence].
    - intros e He. destruct (inverse_of (result_rate result));
        destruct Hrun as (json' & Hjson' & _); congruence. }
  - rewrite Hsame. by repeat split.
  - split; [|split; [|split]].
    + intros status json Hjson Hstatus. destruct (Hreply _ _ Hjson) as [Hs Hc].
      destruct Hstatus as [->|[->|?]]; [by destruct Hs..|done].
    + intros e He. by destruct (Hraised e).
    + intros key Hkey. rewrite Hput. by apply lookup_insert_ne.
    + intros key Hkey. rewrite Hput.
      destruct (decide (cache_key base_currency target_currency = key)) as [<-|Hne].
      * rewrite lookup_insert_eq. by eexists.
      * by rewrite lookup_insert_ne.
Qed.

(** X10. The conversion and the historical endpoints pass the cache by: they
    answer the same whatever the cache holds, send the same requests, and
    leave the cache as it was.  A conversion with a valid amount asks
    the first provider even when the cache holds a fresh rate for the
    pair. *)
Theorem conversion_and_history_bypass_cache (args : list (string * string))
    (c : gmap string CacheEntry) (w : World) :
  (∀ handler, handler = convert_amount ∨ handler = get_historical_data →
     (handler args (write_cache c w).2).1 = (handler args w).1 ∧
     sent (handler args (write_cache c w).2).2 = sent (handler args w).2 ∧
     exchange_rate_cache (handler args w).2 = exchange_rate_cache w) ∧
  (∀ amount, amount_of args = Some amount → fleb amount (float_lit 0 0) = false →
     ∃ more,
       sent (convert_amount args w).2
         = sent w ++ ("https://api.exchangerate-api.com/v4/latest/"
                      +:+ str_upper (args_get args "base" "USD")) :: more).
Proof.
  split.
  - intros handler Hhandler.
    assert (cache_oblivious (handler args)) as Hpass.
    { destruct Hhandler as [-> | ->];
        [apply oblivious_convert_amount|apply oblivious_get_historical_data]. }
    split; [by rewrite Hpass|]. split; [by rewrite Hpass|]. by apply oblivious_cache.
  - intros amount Hamount Hpositive.
    unfold convert_amount. fold (amount_of args). rewrite Hamount, Hpositive, run_bind.
    destruct (fetch_asks_first_provider (str_upper (args_get args "base" "USD"))
                (str_upper (args_get args "target" "CNY")) w) as [more Hmore].
    exists more. rewrite <- Hmore.
    destruct (get_exchange_rate_from_api _ _ w) as [[api_result|] w1]; cbn [fst snd];
      [|done].
    by repeat case_match.
Qed.

(** ** The refusal of a currency code *)

(** X11. The exchange-rate and the historical endpoints check the base code
    first and the target code second.  A code outside the registry is
    answered with status 400 and a message that ends in the code, as it
    reads after upper-casing; the handler reads the clock once and does
    nothing else: no provider is asked, and the cache and the random
    numbers are left alone. *)
Theorem unsupported_codes_refused (args : list (string * string)) (w : World) :
  let base_currency := str_upper (args_get args "base" "USD") in
  let target_currency := str_upper (args_get args "target" "CNY") in
  (in_CURRENCY_DATA base_currency = false →
     get_exchange_rate args w
       = (refusal "不支持的基准货币: " base_currency (clock w (ticks w)), (now w).2) ∧
     get_historical_data args w
       = (refusal "不支持的基准货币: " base_currency (clock w (ticks w)), (now w).2)) ∧
  (in_CURRENCY_DATA base_currency = true →
   in_CURRENCY_DATA target_currency = false →
     get_exchange_rate args w
       = (refusal "不支持的目标货币: " target_currency (clock w (ticks w)), (now w).2) ∧
     get_historical_data args w
       = (refusal "不支持的目标货币: " target_currency (clock w (ticks w)), (now w).2)) ∧
  sent (now w).2 = sent w ∧
  exchange_rate_cache (now w).2 = exchange_rate_cache w ∧
  rolls (now w).2 = rolls w.
Proof.
  intros base_currency target_currency. split; [|split; [|done]].
  - intros Hbase. unfold get_exchange_rate, get_historical_data.
    fold base_currency. by rewrite Hbase.
  - intros Hbase Htarget. unfold get_exchange_rate, get_historical_data.
    fold base_currency target_currency. by rewrite Hbase, Htarget.
Qed.

(** ** The registry *)

(** X12. The currencies endpoint lists the twenty codes of the registry, each
    once, with its name and flag.  The codes it lists are exactly the
    codes that the validation of the handlers accepts, and the name it
    gives is the name the answers report for the code. *)
Theorem get_currencies_lists_registry (w : World) :
  ∃ listed,
    (get_currencies w).1
      = Reply 200 [("success", PBool true);
                   ("currencies", PDict listed);
                   ("timestamp", PStr (strftime "%Y-%m-%d %H:%M:%S" (clock w (ticks w))))] ∧
    length listed = 20%nat ∧
    NoDup listed.*1 ∧
    (∀ code, in_CURRENCY_DATA code = true ↔ code ∈ listed.*1) ∧
    (∀ code, in_CURRENCY_DATA code = true →
       ∃ name flag,
         items_get listed code = Some (PDict [("name", PStr name); ("flag", PStr flag)]) ∧
         name_of code = inr name) ∧
    exchange_rate_cache (get_currencies w).2 = exchange_rate_cache w ∧
    sent (get_currencies w).2 = sent w.
Proof.
  eexists. split; [reflexivity|].
  assert (((λ entry : string * CurrencyInfo, (entry.1, currency_json entry.2))
             <$> CURRENCY_DATA).*1 = CURRENCY_DATA.*1) as Hkeys.
  { rewrite <- list_fmap_compose. by apply list_fmap_ext. }
  split; [done|]. split; [|split; [|split; [|done]]].
  - rewrite Hkeys. apply (bool_decide_unpack _). by vm_compute.
  - intros code. by rewrite Hkeys, supported_elem_of.
  - intros code Hcode. unfold name_of, items_get.
    apply supported_elem_of in Hcode. revert Hcode.
    generalize CURRENCY_DATA. intros data Hcode.
    induction data as [|[code' info] data IH]; [by apply elem_of_nil in Hcode|].
    cbn [fmap list_fmap assoc_get fst snd].
    destruct (String.eqb_spec code' code) as [->|Hne].
    + by exists (currency_name info), (currency_flag info).
    + apply IH. rewrite fmap_cons in Hcode. apply elem_of_cons in Hcode as [?|?]; [|done].
      cbn in *. congruence.
Qed.

(** ** The envelope of the answers *)

Lemma failure_envelope status message w status' json :
  status = 400 ∨ status = 404 ∨ status = 500 ∨ status = 503 →
  (failure status message w).1 = Reply status' json →
  envelope status' json ∧ status' = status.
Proof.
  intros Hstatus. unfold failure. rewrite run_bind. cbn [now fst snd].
  intros [= <- <-]. split; [|done].
  split; [by eexists|]. right. split; [done|]. split; [done|]. by eexists.
Qed.

Lemma server_error_envelope message w status json :
  (server_error message w).1 = Reply status json →
  envelope status json ∧ status = 500.
Proof.
  unfold server_error. rewrite run_bind. cbn [now fst snd].
  intros [= <- <-]. split; [|done].
  split; [by eexists|]. right. split; [auto|]. split; [done|]. by eexists.
Qed.

Lemma unsupported_envelope what code w status json :
  (unsupported what code w).1 = Reply status json →
  envelope status json ∧ status = 400.
Proof.
  unfold unsupported. rewrite run_bind. cbn [now fst snd].
  intros [= <- <-]. split; [|done].
  split; [by eexists|]. right. split; [by left|]. split; [done|]. by eexists.
Qed.

Ltac refused_envelope :=
  let Hrun := fresh in
  intros Hrun; apply unsupported_envelope in Hrun as [? ->]; split; [done|]; auto.

Ltac failed_envelope status :=
  let Hrun := fresh in
  intros Hrun; apply (failure_envelope status) in Hrun as [? ->]; [|auto];
  split; [done|]; auto.

Ltac server_error_envelope :=
  let Hrun := fresh in
  intros Hrun; apply server_error_envelope in Hrun as [? ->]; split; [done|]; auto.

Ltac success_envelope :=
  rewrite ?run_bind; cbn [now fst snd]; intros [= <- <-];
  split; [|auto]; split; [by eexists|]; left; by repeat split.

Lemma get_exchange_rate_envelope args w status json :
  (get_exchange_rate args w).1 = Reply status json →
  envelope status json ∧
  (status = 200 ∨ status = 400 ∨ status = 500 ∨ status = 503).
Proof.
  unfold get_exchange_rate.
  set (base_currency := str_upper _). set (target_currency := str_upper _).
  destruct (in_CURRENCY_DATA base_currency); cbn [negb]; [|refused_envelope].
  destruct (in_CURRENCY_DATA target_currency); cbn [negb]; [|refused_envelope].
  rewrite run_bind.
  destruct (get_cached_rate base_currency target_currency w)
    as [[cached_rate cached_source] w0]. cbn [fst snd].
  destruct (is_not_None cached_rate).
  - destruct (inverse_of cached_rate); [done|].
    destruct (name_of base_currency); [done|].
    destruct (name_of target_currency); [done|].
    success_envelope.
  - rewrite run_bind.
    destruct (get_exchange_rate_from_api base_currency target_currency w0)
      as [[api_result|] w1]; cbn [fst snd].
    2:{ rewrite run_bind. cbn [now fst snd]. intros [= <- <-]. split; [|auto].
        split; [by eexists|]. right. split; [auto|]. split; [done|]. by eexists. }
    rewrite run_bind.
    destruct (set_cached_rate _ _ _ _ w1) as [[] w2]. cbn [fst snd].
    destruct (inverse_of (result_rate api_result)); [server_error_envelope|].
    destruct (name_of base_currency); [server_error_envelope|].
    destruct (name_of target_currency); [server_error_envelope|].
    success_envelope.
Qed.

Lemma get_historical_data_envelope args w status json :
  (get_historical_data args w).1 = Reply status json →
  envelope status json ∧ (status = 200 ∨ status = 400 ∨ status = 500).
Proof.
  unfold get_historical_data.
  set (base_currency := str_upper _). set (target_currency := str_upper _).
  destruct (in_CURRENCY_DATA base_currency); cbn [negb]; [|refused_envelope].
  destruct (in_CURRENCY_DATA target_currency); cbn [negb]; [|refused_envelope].
  rewrite run_bind.
  destruct (get_exchange_rate_from_api base_currency target_currency w)
    as [current_rate_data w1]. cbn [fst snd]. rewrite run_bind.
  destruct (generate_historical_data _ _ _ w1) as [[e|history] w2]; cbn [fst snd].
  - failed_envelope 500.
  - success_envelope.
Qed.

Lemma convert_amount_envelope args w status json :
  (convert_amount args w).1 = Reply status json →
  envelope status json ∧
  (status = 200 ∨ status = 400 ∨ status = 500 ∨ status = 503).
Proof.
  unfold convert_amount. fold (amount_of args).
  destruct (amount_of args) as [amount|]; [|failed_envelope 400].
  destruct (fleb amount (float_lit 0 0)); [failed_envelope 400|].
  rewrite run_bind.
  destruct (get_exchange_rate_from_api _ _ w) as [[api_result|] w1]; cbn [fst snd];
    [|failed_envelope 503].
  destruct (float_times amount (result_rate api_result)); [failed_envelope 500|].
  destruct (name_of _); [failed_envelope 500|].
  destruct (name_of _); [failed_envelope 500|].
  success_envelope.
Qed.

Lemma serve_envelope (request : Request) (w : World)
    (status : Z) (json : list (string * pyval)) :
  (serve request w).1 = Reply status json →
  (request ≠ GET_health → envelope status json) ∧
  (request = GET_health →
     status = 200 ∧ assoc_get json "status" = Some (PStr "healthy") ∧
     assoc_get json "success" = None ∧
     ∃ timestamp, assoc_get json "timestamp" = Some (PStr timestamp)) ∧
  (status = 404 ↔ ∃ path, request = GET_unknown path) ∧
  (status = 503 →
     ∃ args, request = GET_exchange_rate args ∨ request = GET_convert args).
Proof.
  destruct request as [|args|args|args| | |path]; cbn [serve]; intros Hrun.
  - revert Hrun. unfold get_currencies. rewrite run_bind. cbn [now fst snd].
    intros [= <- <-]. split; [|split; [done|split; [|done]]].
    + intros _. split; [by eexists|]. left. by repeat split.
    + split; [done|]. by intros [? ?].
  - destruct (get_exchange_rate_envelope _ _ _ _ Hrun) as [Henv Hstatus].
    do 2 (split; [done|]). split; [|intros _; exists args; by left].
    split; [|by intros [? ?]]. intros ->. by destruct Hstatus as [?|[?|[?|?]]].
  - destruct (get_historical_data_envelope _ _ _ _ Hrun) as [Henv Hstatus].
    do 2 (split; [done|]). split.
    + split; [|by intros [? ?]]. intros ->. by destruct Hstatus as [?|[?|?]].
    + intros ->. by destruct Hstatus as [?|[?|?]].
  - destruct (convert_amount_envelope _ _ _ _ Hrun) as [Henv Hstatus].
    do 2 (split; [done|]). split; [|intros _; exists args; by right].
    split; [|by intros [? ?]]. intros ->. by destruct Hstatus as [?|[?|[?|?]]].
  - revert Hrun. unfold health_check. rewrite !run_bind. cbn [now read_cache fst snd].
    intros [= <- <-]. split; [done|]. split; [|split; [|done]].
    + intros _. do 3 (split; [done|]). by eexists.
    + split; [done|]. by intros [? ?].
  - revert Hrun. unfold clear_cache, clear_cache_store. rewrite !run_bind.
    cbn [write_cache now fst snd]. intros [= <- <-].
    split; [|split; [done|split; [|done]]].
    + intros _. split; [by eexists|]. left. by repeat split.
    + split; [done|]. by intros [? ?].
  - apply failure_envelope in Hrun as [Henv ->]; [|auto].
    split; [done|]. split; [done|]. split; [|done]. split; [by eexists|done].
Qed.

(** X13. Every JSON answer of the server comes in the same envelope.  It has
    a timestamp; with status 200 it has [success] true and no [error];
    otherwise the status is 400, 404, 500 or 503, [success] is false and
    [error] is a message.  The health endpoint alone answers without
    [success]: it reports a [status] of its own.  Only a path without a
    route is answered with 404, and only the exchange-rate and the
    conversion endpoints, which need a rate, answer with 503.  The
    handler of the error 500 answers in the same envelope. *)
Theorem answers_share_envelope (request : Request) (w : World)
    (status : Z) (json : list (string * pyval)) :
  (serve request w).1 = Reply status json →
  (request ≠ GET_health → envelope status json) ∧
  (request = GET_health →
     status = 200 ∧ assoc_get json "status" = Some (PStr "healthy") ∧
     assoc_get json "success" = None ∧
     ∃ timestamp, assoc_get json "timestamp" = Some (PStr timestamp)) ∧
  (status = 404 ↔ ∃ path, request = GET_unknown path) ∧
  (status = 503 →
     ∃ args, request = GET_exchange_rate args ∨ request = GET_convert args) ∧
  ∃ json', (internal_error w).1 = Reply 500 json' ∧ envelope 500 json'.
Proof.
  intros Hrun.
  destruct (serve_envelope _ _ _ _ Hrun) as (Henvelope & Hhealth & Hunknown & Hrate).
  do 4 (split; [done|]).
  eexists. split; [reflexivity|].
  eapply (failure_envelope 500); [auto|reflexivity].
Qed.

(** ** Series that the provider's answer does not yield *)

Lemma history_entries_raises its target_currency history date entry e :
  (date, entry) ∈ its →
  history_entry date entry target_currency = inl e →
  ∃ e', history_entries its target_currency history = inl e'.
Proof.
  revert history. induction its as [|[date' entry'] its IH]; intros history Hin Hbad.
  - by apply elem_of_nil in Hin.
  - cbn [history_entries]. apply elem_of_cons in Hin as [[= <- <-]|Hin].
    + rewrite Hbad. by eexists.
    + destruct (history_entry date' entry' target_currency) as [e1|[p|]];
        [by eexists|by apply IH..].
Qed.

Lemma unusable_entry_raises target_currency date entry :
  unusable_entry target_currency entry ↔
  ∃ e, history_entry date entry target_currency = inl e.
Proof.
  destruct entry as [| | | | |l|r]; cbn [unusable_entry history_entry].
  - split; [by eexists|done].
  - split; [by eexists|done].
  - split; [by eexists|done].
  - split; [by eexists|done].
  - destruct (is_substring target_currency s); split; try done; try by eexists.
    by intros [? ?].
  - assert (existsb (λ v : pyval, match v with
                                  | PStr s => (s =? target_currency)%string
                                  | _ => false
                                  end) l = true ↔ PStr target_currency ∈ l) as Hin.
    { rewrite existsb_exists. split.
      - intros (v & Hv & Heq). destruct v; try done.
        apply String.eqb_eq in Heq as ->. by apply list_elem_of_In.
      - intros Hl. exists (PStr target_currency).
        split; [by apply list_elem_of_In|apply String.eqb_refl]. }
    destruct (existsb _ l).
    + split; [by eexists|]. intros _. by apply Hin.
    + split; [|by intros [? ?]]. intros Hl. by apply Hin in Hl.
  - destruct (items_get r target_currency) as [[]|]; cbn [py_round4];
      split; try done; try (by eexists); by intros [? ?].
Qed.

(** X14. The provider's series is taken whole or not at all.  When the entry
    of a single date is one that the loop over the dates cannot use, as
    an entry that is null, or one that gives null or a string as the rate
    of the target currency, the points of all the other dates are dropped
    with it: the answer yields no series, and the builder returns the
    simulated series instead. *)
Theorem malformed_entry_discards_series (target_currency : string)
    (data : pyval) (d rates : list (string * pyval))
    (date : string) (entry : pyval) :
  data = PDict d →
  items_get d "rates" = Some (PDict rates) →
  (date, entry) ∈ items rates →
  unusable_entry target_currency entry →
  parse_history data target_currency = None ∧
  ∀ base_currency days w status,
    (∀ url, network w (length (sent w)) url 15 = Response status (Json data)) →
    let primary := get_historical_data_from_api base_currency target_currency days w in
    primary.1 = None ∧
    generate_historical_data base_currency target_currency days w
      = simulated_history base_currency target_currency days primary.2.
Proof.
  intros -> Hrates Hin Hbad.
  apply (unusable_entry_raises _ date) in Hbad as [e Hbad].
  assert (parse_history (PDict d) target_currency = None) as Hparse.
  { unfold parse_history. rewrite Hrates.
    by destruct (history_entries_raises _ _ [] _ _ _ Hin Hbad) as [e' ->]. }
  split; [done|].
  intros base_currency days w status Hnet primary.
  assert (primary.1 = None) as Hnone.
  { unfold primary, get_historical_data_from_api. rewrite run_bind. cbn [now fst snd].
    destruct (datetime_minus_days _ _); [done|].
    rewrite run_bind. cbn [requests_get fst snd sent network]. rewrite Hnet.
    case_bool_decide; [done|]. by rewrite Hparse. }
  split; [done|].
  destruct (generate_historical_data_cases base_currency target_currency days w)
    as [(p & l & Hp & _)|[_ Hgen]]; [|done].
  fold primary in Hp. congruence.
Qed.

(** ** Days before today that are negative *)

(** X15. With a negative number of days the loop over the days runs no turn:
    the builder returns the series of the provider when that has a
    point, and the empty series otherwise, never an error; and the
    historical endpoint answers a supported pair with status 200, the
    number of days as given, and that series. *)
Theorem negative_days_empty_series (args : list (string * string)) (w : World) :
  let base_currency := str_upper (args_get args "base" "USD") in
  let target_currency := str_upper (args_get args "target" "CNY") in
  let days_int := default 30 (int_of_str (args_get args "days" "30")) in
  in_CURRENCY_DATA base_currency = true →
  in_CURRENCY_DATA target_currency = true →
  days_int < 0 →
  (∀ w1,
     let primary :=
       (get_historical_data_from_api base_currency target_currency days_int w1).1 in
     (generate_historical_data base_currency target_currency days_int w1).1
       = inr (match primary with Some (p :: l) => p :: l | _ => [] end)) ∧
  ∃ json history,
    (get_historical_data args w).1 = Reply 200 json ∧
    assoc_get json "success" = Some (PBool true) ∧
    assoc_get json "days" = Some (PInt days_int) ∧
    assoc_get json "historical_data" = Some (PList (point_json <$> history)) ∧
    (generate_historical_data base_currency target_currency days_int
       (get_exchange_rate_from_api base_currency target_currency w).2).1 = inr history.
Proof.
  intros base_currency target_currency days_int Hbase Htarget Hdays.
  assert (∀ w1,
    (generate_historical_data base_currency target_currency days_int w1).1
      = inr (match (get_historical_data_from_api base_currency target_currency
                      days_int w1).1 with
             | Some (p :: l) => p :: l
             | _ => []
             end)) as Hgen.
  { intros w1.
    destruct (generate_historical_data_cases base_currency target_currency days_int w1)
      as [(p & l & -> & ->)|[Hprimary ->]]; [done|].
    rewrite simulated_history_spec by (apply range_down_in_range; by left).
    rewrite range_down_negative by done. cbn [fst zip_with].
    by destruct Hprimary as [-> | ->]. }
  split; [exact Hgen|].
  unfold get_historical_data. fold base_currency target_currency days_int.
  rewrite Hbase, Htarget. cbn [negb]. rewrite run_bind.
  destruct (get_exchange_rate_from_api base_currency target_currency w)
    as [current_rate_data w1]. cbn [fst snd]. rewrite run_bind.
  specialize (Hgen w1).
  destruct (generate_historical_data base_currency target_currency days_int w1)
    as [[e|history] w2]; cbn [fst snd] in *; [done|].
  rewrite run_bind. cbn [now fst snd].
  eexists _, history. split; [reflexivity|]. by repeat split.
Qed.

(** ** Series that cannot be dated *)

(** X16. When the day [days] days before today is before the first date of
    the calendar, the historical endpoint answers a supported pair with
    status 500 and [success] false, whatever the providers answer: the
    series of the provider is not asked for, and the simulated series
    cannot date its first point. *)
Theorem historical_endpoint_overflow (args : list (string * string)) (w : World) :
  let base_currency := str_upper (args_get args "base" "USD") in
  let target_currency := str_upper (args_get args "target" "CNY") in
  let days_int := default 30 (int_of_str (args_get args "days" "30")) in
  in_CURRENCY_DATA base_currency = true →
  in_CURRENCY_DATA target_currency = true →
  0 ≤ days_int →
  (∀ n, (n ≤ ticks w + 2)%nat → clock w n < timedelta_days days_int) →
  (∃ json,
     (get_historical_data args w).1 = Reply 500 json ∧
     assoc_get json "success" = Some (PBool false)) ∧
  ∀ w1, clock w1 (ticks w1) < timedelta_days days_int →
    let primary := get_historical_data_from_api base_currency target_currency days_int w1 in
    primary.1 = None ∧ sent primary.2 = sent w1.
Proof.
  intros base_currency target_currency days_int Hbase Htarget Hdays Hearly.
  split; [exact (historical_days_out_of_range args w Hbase Htarget Hdays Hearly)|].
  intros w1 Hw1 primary. subst primary.
  unfold get_historical_data_from_api. rewrite run_bind. cbn [now fst snd].
  by destruct (datetime_minus_days_early _ _ Hw1) as [e ->].
Qed.

(** ** The answer from the cache *)

(** X17. A request for a supported pair whose entry in the cache is less
    than 300 seconds old is answered from the entry: the stored rate,
    its inverse and the stored source, with [cached] true.  As
    [last_updated] it reports the date of the request, not the date the
    provider had reported for the rate.  No provider is asked, and the
    cache is left as it was. *)
Theorem cache_hit_answer (args : list (string * string)) (w : World)
    (e : CacheEntry) (inverse_rate : pyval) :
  let base_currency := str_upper (args_get args "base" "USD") in
  let target_currency := str_upper (args_get args "target" "CNY") in
  in_CURRENCY_DATA base_currency = true →
  in_CURRENCY_DATA target_currency = true →
  exchange_rate_cache w !! cache_key base_currency target_currency = Some e →
  clock w (ticks w) - cache_timestamp e < timedelta_seconds 300 →
  inverse_of (cache_rate e) = inr inverse_rate →
  (∃ json,
     (get_exchange_rate args w).1 = Reply 200 json ∧
     assoc_get json "success" = Some (PBool true) ∧
     assoc_get json "exchange_rate" = Some (cache_rate e) ∧
     assoc_get json "inverse_rate" = Some inverse_rate ∧
     assoc_get json "source" = Some (PStr (cache_source e)) ∧
     assoc_get json "last_updated"
       = Some (PStr (strftime "%Y-%m-%d" (clock w (S (ticks w))))) ∧
     assoc_get json "cached" = Some (PBool true)) ∧
  sent (get_exchange_rate args w).2 = sent w ∧
  exchange_rate_cache (get_exchange_rate args w).2 = exchange_rate_cache w.
Proof.
  intros base_currency target_currency Hbase Htarget Hlook Hfresh Hinverse.
  pose proof (get_cached_rate_hit _ _ _ _ Hlook Hfresh) as Hlooked.
  pose proof (get_exchange_rate_hit args w) as Hrun. cbv zeta in Hrun.
  fold base_currency target_currency in Hrun. rewrite Hlooked in Hrun.
  cbn [fst snd] in Hrun.
  destruct (Hrun Hbase Htarget (inverse_of_not_None _ _ Hinverse))
    as (Hreply & Hcache & Hsent).
  rewrite Hinverse in Hreply.
  destruct Hreply as (json & Hjson & Hsuccess & Hrate & Hinv & Hdate & Hsource & Hcached).
  split; [|done]. exists json. by repeat split.
Qed.

(** ** Requests to the providers, counted *)

Lemma sends_none (w w' : World) : sent w' = sent w → sends_at_most 0 w w'.
Proof. intros Hsent. exists []. by rewrite app_nil_r. Qed.

Lemma sends_more n m (w w' : World) :
  (n ≤ m)%nat → sends_at_most n w w' → sends_at_most m w w'.
Proof. intros Hle (more & Hsent & Hlen). exists more. split; [done|lia]. Qed.

Lemma sends_trans n m (w1 w2 w3 : World) :
  sends_at_most n w1 w2 → sends_at_most m w2 w3 → sends_at_most (n + m) w1 w3.
Proof.
  intros (more1 & Hsent1 & Hlen1) (more2 & Hsent2 & Hlen2).
  exists (more1 ++ more2). split; [by rewrite Hsent2, Hsent1, app_assoc|].
  rewrite length_app. lia.
Qed.

Lemma fetch_sends base_currency target_currency w :
  sends_at_most 3 w (get_exchange_rate_from_api base_currency target_currency w).2.
Proof.
  assert (∀ apis, (length (urls_of apis base_currency target_currency) ≤ length apis)%nat)
    as Hurls.
  { intros apis. unfold urls_of. induction apis as [|a apis IH]; [done|].
    cbn [omap list_omap length]. destruct (api_request_url _ _ _); cbn [length]; lia. }
  unfold sends_at_most.
  destruct (fetch_cases base_currency target_currency w)
    as [(k & api_config & rate & d & _ & _ & ->)|(_ & _ & ->)].
  - eexists. split; [done|]. etrans; [apply Hurls|].
    rewrite length_take. change (length EXCHANGE_RATE_APIS) with 3%nat. lia.
  - eexists. split; [done|]. apply (Hurls EXCHANGE_RATE_APIS).
Qed.

Lemma history_api_sends base_currency target_currency days w :
  sends_at_most 1 w (get_historical_data_from_api base_currency target_currency days w).2.
Proof.
  unfold get_historical_data_from_api. rewrite run_bind. cbn [now fst snd].
  destruct (datetime_minus_days _ _); [by apply (sends_more 0); [lia|apply sends_none]|].
  rewrite run_bind. cbn [requests_get fst snd].
  assert (∀ A (a : A) w', (∃ url, sent w' = sent w ++ [url]) →
            sends_at_most 1 w ((mret a : M A) w').2) as Hret.
  { intros A a w' [url Hsent]. by exists [url]. }
  destruct (network _ _ _ _) as [| | | |status body];
    try (apply Hret; by eexists).
  case_bool_decide; [apply Hret; by eexists|].
  destruct body; apply Hret; by eexists.
Qed.

Lemma simulate_sent today indices base_rate history w :
  sent (simulate today indices base_rate history w).2 = sent w.
Proof.
  revert base_rate history w.
  induction indices as [|i rest IH]; intros base_rate history w; [done|].
  cbn [simulate]. destruct (datetime_minus_days today i); [done|].
  rewrite run_bind, IH. done.
Qed.

Lemma simulated_history_sent base_currency target_currency days w :
  sent (simulated_history base_currency target_currency days w).2 = sent w.
Proof.
  unfold simulated_history. rewrite !run_bind, simulate_sent. cbn [now snd sent].
  by destruct (_ && _).
Qed.

Lemma generate_sends base_currency target_currency days w :
  sends_at_most 1 w (generate_historical_data base_currency target_currency days w).2.
Proof.
  pose proof (history_api_sends base_currency target_currency days w) as Hprimary.
  destruct (generate_historical_data_cases base_currency target_currency days w)
    as [(p & l & _ & ->)|[_ ->]]; [done|].
  destruct Hprimary as (more & Hsent & Hlen). exists more.
  by rewrite simulated_history_sent.
Qed.

Lemma unsupported_sent what code w : sent (unsupported what code w).2 = sent w.
Proof. done. Qed.

(** X18. No request to the server costs more than four requests to the
    providers.  The exchange-rate and the conversion endpoints send at
    most the three requests of one fetch; the historical endpoint sends
    at most those and the one request for the series; the currencies,
    health and clear-cache endpoints and the handler of unknown paths
    send none.  The log of the requests sent only grows. *)
Theorem upstream_request_budget (request : Request) (w : World) :
  sends_at_most
    match request with
    | GET_exchange_rate _ | GET_convert _ => 3
    | GET_historical _ => 4
    | _ => 0
    end w (serve request w).2 ∧
  ∀ requests,
    sends_at_most (4 * length requests) w (serve_all requests w).2.
Proof.
  assert (∀ request w,
    sends_at_most
      match request with
      | GET_exchange_rate _ | GET_convert _ => 3
      | GET_historical _ => 4
      | _ => 0
      end w (serve request w).2) as Hone.
  { clear. intros request w.
    destruct request as [|args|args|args| | |path]; cbn [serve]; try by apply sends_none.
    - set (base_currency := str_upper (args_get args "base" "USD")).
      set (target_currency := str_upper (args_get args "target" "CNY")).
      destruct (in_CURRENCY_DATA base_currency) eqn:Hbase.
      2:{ apply (sends_more 0); [lia|]. apply sends_none.
          unfold get_exchange_rate. fold base_currency. by rewrite Hbase. }
      destruct (in_CURRENCY_DATA target_currency) eqn:Htarget.
      2:{ apply (sends_more 0); [lia|]. apply sends_none.
          unfold get_exchange_rate. fold base_currency target_currency.
          by rewrite Hbase, Htarget. }
      destruct (is_not_None (get_cached_rate base_currency target_currency w).1.1) eqn:Hhit.
      + apply (sends_more 0); [lia|]. apply sends_none.
        by destruct (get_exchange_rate_hit args w Hbase Htarget Hhit) as (_ & _ & ?).
      + destruct (get_exchange_rate_miss args w Hbase Htarget Hhit) as [Hsent _].
        fold base_currency target_currency in Hsent.
        destruct (fetch_sends base_currency target_currency
                    (get_cached_rate base_currency target_currency w).2)
          as (more & Hmore & Hlen).
        exists more. split; [|done].
        rewrite Hsent, Hmore.
        by destruct (get_cached_rate_frame base_currency target_currency w) as [_ ->].
    - unfold get_historical_data.
      set (base_currency := str_upper (args_get args "base" "USD")).
      set (target_currency := str_upper (args_get args "target" "CNY")).
      destruct (in_CURRENCY_DATA base_currency); cbn [negb];
        [|by apply (sends_more 0); [lia|apply sends_none]].
      destruct (in_CURRENCY_DATA target_currency); cbn [negb];
        [|by apply (sends_more 0); [lia|apply sends_none]].
      rewrite run_bind.
      pose proof (fetch_sends base_currency target_currency w) as Hfetch.
      destruct (get_exchange_rate_from_api base_currency target_currency w)
        as [current_rate_data w1]. cbn [fst snd] in *. rewrite run_bind.
      match goal with |- context [generate_historical_data ?b ?t ?d w1] =>
        pose proof (generate_sends b t d w1) as Hgen;
        destruct (generate_historical_data b t d w1) as [[e|history] w2]
      end; cbn [fst snd] in *.
      + apply (sends_trans 3 1 _ w1); [done|].
        destruct Hgen as (more & Hsent & Hlen). by exists more.
      + rewrite run_bind. cbn [now fst snd].
        apply (sends_trans 3 1 _ w1); [done|].
        destruct Hgen as (more & Hsent & Hlen). by exists more.
    - unfold convert_amount. fold (amount_of args).
      destruct (amount_of args) as [amount|];
        [|by apply (sends_more 0); [lia|apply sends_none]].
      destruct (fleb amount (float_lit 0 0));
        [by apply (sends_more 0); [lia|apply sends_none]|].
      rewrite run_bind.
      pose proof (fetch_sends (str_upper (args_get args "base" "USD"))
                    (str_upper (args_get args "target" "CNY")) w) as Hfetch.
      destruct (get_exchange_rate_from_api _ _ w) as [[api_result|] w1];
        cbn [fst snd] in *; [|done].
      by repeat case_match. }
  split; [apply Hone|].
  intros requests. revert w.
  induction requests as [|request' rest IH]; intros w; [by apply sends_none|].
  rewrite run_serve_all. cbn [snd length].
  replace (4 * S (length rest))%nat with (4 + 4 * length rest)%nat by lia.
  eapply sends_trans; [|apply IH].
  eapply sends_more; [|apply Hone]. by destruct request'; lia.
Qed.

(** ** Random numbers, counted *)

Lemma get_exchange_rate_rolls args w : rolls (get_exchange_rate args w).2 = rolls w.
Proof.
  unfold get_exchange_rate.
  set (base_currency := str_upper _). set (target_currency := str_upper _).
  destruct (in_CURRENCY_DATA base_currency); cbn [negb]; [|done].
  destruct (in_CURRENCY_DATA target_currency); cbn [negb]; [|done].
  rewrite run_bind.
  destruct (get_cached_rate_frame base_currency target_currency w)
    as [(_ & _ & _ & _ & Hrolls0) _].
  destruct (get_cached_rate base_currency target_currency w)
    as [[cached_rate cached_source] w0]. cbn [fst snd] in *.
  destruct (is_not_None cached_rate).
  - repeat case_match; rewrite ?run_bind; cbn; congruence.
  - rewrite run_bind.
    destruct (fetch_frame base_currency target_currency w0) as (_ & _ & _ & _ & Hrolls1).
    destruct (get_exchange_rate_from_api base_currency target_currency w0)
      as [[api_result|] w1]; cbn [fst snd] in *;
      [|rewrite run_bind; cbn; congruence].
    rewrite run_bind.
    assert (rolls (set_cached_rate base_currency target_currency (result_rate api_result)
                     (result_source api_result) w1).2 = rolls w1) as Hrolls2 by done.
    destruct (set_cached_rate _ _ _ _ w1) as [[] w2]. cbn [fst snd] in *.
    repeat case_match; unfold server_error; rewrite ?run_bind; cbn; congruence.
Qed.

Lemma convert_amount_rolls args w : rolls (convert_amount args w).2 = rolls w.
Proof.
  unfold convert_amount. fold (amount_of args).
  destruct (amount_of args) as [amount|]; [|done].
  destruct (fleb amount (float_lit 0 0)); [done|].
  rewrite run_bind.
  destruct (fetch_frame (str_upper (args_get args "base" "USD"))
              (str_upper (args_get args "target" "CNY")) w) as (_ & _ & _ & _ & Hrolls).
  destruct (get_exchange_rate_from_api _ _ w) as [[api_result|] w1];
    cbn [fst snd] in *; [|done].
  repeat case_match; unfold failure; rewrite ?run_bind; cbn; congruence.
Qed.

(** X19. Random numbers are drawn only for the simulated series.  Every
    endpoint but the historical one leaves the random number generator
    alone; the historical endpoint draws only through the series
    builder; and the builder draws nothing when it returns the series of
    the provider, and otherwise, when the dates exist, one number a day
    for [days + 1] days, after one more for the starting rate of a pair
    other than USD to CNY. *)
Theorem random_numbers_only_for_simulation (request : Request) (w : World) :
  ((∀ args, request ≠ GET_historical args) → rolls (serve request w).2 = rolls w) ∧
  (∀ args, request = GET_historical args →
     let base_currency := str_upper (args_get args "base" "USD") in
     let target_currency := str_upper (args_get args "target" "CNY") in
     let days_int := default 30 (int_of_str (args_get args "days" "30")) in
     let w1 := (get_exchange_rate_from_api base_currency target_currency w).2 in
     rolls w1 = rolls w ∧
     (in_CURRENCY_DATA base_currency = false ∨ in_CURRENCY_DATA target_currency = false →
        rolls (serve request w).2 = rolls w) ∧
     (in_CURRENCY_DATA base_currency = true → in_CURRENCY_DATA target_currency = true →
        rolls (serve request w).2
          = rolls (generate_historical_data base_currency target_currency
                     days_int w1).2)) ∧
  (∀ base_currency target_currency days w1,
     let primary :=
       get_historical_data_from_api base_currency target_currency days w1 in
     let today := clock primary.2 (ticks primary.2) in
     let built := generate_historical_data base_currency target_currency days w1 in
     (∀ p l, primary.1 = Some (p :: l) → rolls built.2 = rolls w1) ∧
     (primary.1 = None ∨ primary.1 = Some [] →
      days < 0 ∨ (timedelta_days days ≤ today ∧ today < datetime_end) →
      rolls built.2
        = (Z.to_nat (days + 1) + seed_draws base_currency target_currency
           + rolls w1)%nat)).
Proof.
  split; [|split].
  - intros Hother.
    destruct request as [|args|args|args| | |path]; cbn [serve]; try done.
    + apply get_exchange_rate_rolls.
    + by destruct (Hother args).
    + apply convert_amount_rolls.
  - intros args -> base_currency target_currency days_int w1.
    destruct (fetch_frame base_currency target_currency w) as (_ & _ & _ & _ & Hrolls).
    fold w1 in Hrolls. split; [done|]. cbn [serve]. unfold get_historical_data.
    fold base_currency target_currency days_int. split.
    + intros [-> | Htarget]; cbn [negb]; [done|].
      rewrite Htarget. by destruct (in_CURRENCY_DATA base_currency).
    + intros -> ->. cbn [negb]. rewrite run_bind. fold w1.
      destruct (get_exchange_rate_from_api base_currency target_currency w).1;
        rewrite run_bind;
        destruct (generate_historical_data base_currency target_currency days_int w1)
          as [[e|history] w2]; done.
  - intros base_currency target_currency days w1 primary today built.
    subst built today primary.
    pose proof (history_api_frame base_currency target_currency days w1)
      as (_ & _ & _ & _ & Hrolls).
    split.
    + intros p l Hp.
      destruct (generate_historical_data_cases base_currency target_currency days w1)
        as [(p' & l' & _ & ->)|[[Hnone|Hnil] _]]; [done|congruence..].
    + intros Hprimary Hdates.
      destruct (generate_historical_data_cases base_currency target_currency days w1)
        as [(p' & l' & Hp' & _)|[_ ->]]; [destruct Hprimary; congruence|].
      rewrite simulated_history_spec by (by apply range_down_in_range).
      cbn [snd rolled now rolls]. rewrite range_down_length, Hrolls. lia.
Qed.

(** *** Amounts that are converted *)


End Properties.

(** * Rounding in binary64

    The operations of binary64 round the exact result to a double; a
    double that bounds the exact result bounds the rounded one as well.
    This is proved from the specification of the operations in
    [SpecFloat], and gives the bounds of the simulated series. *)

Lemma pow2_pos k : 0 ≤ k → 0 < 2 ^ k.
Proof. intros. by apply Z.pow_pos_nonneg. Qed.

Lemma pow2_split a b : 0 ≤ a → 0 ≤ b → 2 ^ (a + b) = 2 ^ a * 2 ^ b.
Proof. intros. by apply Z.pow_add_r. Qed.

Lemma scaled_mono m1 m2 e : -2200 ≤ e → m1 ≤ m2 → scaled m1 e ≤ scaled m2 e.
Proof.
  intros He Hm. unfold scaled.
  apply Z.mul_le_mono_nonneg_r; [|done]. apply Z.lt_le_incl, pow2_pos. lia.
Qed.

Lemma scaled_mono_inv m1 m2 e : -2200 ≤ e → scaled m1 e ≤ scaled m2 e → m1 ≤ m2.
Proof.
  intros He. unfold scaled. apply Z.mul_le_mono_pos_r, pow2_pos. lia.
Qed.

Lemma scaled_shift m e k : -2200 ≤ e → 0 ≤ k → scaled m (e + k) = scaled (m * 2 ^ k) e.
Proof.
  intros He Hk. unfold scaled.
  replace (e + k + 2200) with (k + (e + 2200)) by lia.
  rewrite pow2_split by lia. lia.
Qed.

Lemma scaled_floor m e k :
  -2200 ≤ e → 0 ≤ k → 0 ≤ m → scaled (m / 2 ^ k) (e + k) ≤ scaled m e.
Proof.
  intros He Hk Hm. rewrite scaled_shift by done. apply scaled_mono; [done|].
  rewrite Z.mul_comm. apply Z.mul_div_le, pow2_pos. done.
Qed.

Lemma digits2_pos_bounds (m : positive) :
  2 ^ (Zpos (digits2_pos m) - 1) ≤ Zpos m < 2 ^ Zpos (digits2_pos m).
Proof.
  induction m as [m IH|m IH|]; cbn [digits2_pos].
  - rewrite Pos2Z.inj_succ, (Pos2Z.inj_xI m).
    replace (Z.succ (Zpos (digits2_pos m)) - 1)
      with (Z.succ (Zpos (digits2_pos m) - 1)) by lia.
    rewrite !Z.pow_succ_r by lia.
    generalize dependent (2 ^ (Zpos (digits2_pos m) - 1)).
    generalize dependent (2 ^ Zpos (digits2_pos m)). intros a b [? ?]. split; lia.
  - rewrite Pos2Z.inj_succ, (Pos2Z.inj_xO m).
    replace (Z.succ (Zpos (digits2_pos m)) - 1)
      with (Z.succ (Zpos (digits2_pos m) - 1)) by lia.
    rewrite !Z.pow_succ_r by lia.
    generalize dependent (2 ^ (Zpos (digits2_pos m) - 1)).
    generalize dependent (2 ^ Zpos (digits2_pos m)). intros a b [? ?]. split; lia.
  - by cbn.
Qed.

Lemma fexp_eq x : fexp prec emax x = Z.max (x - 53) (-1074).
Proof. reflexivity. Qed.

Lemma bounded_facts m e :
  bounded prec emax m e = true →
  -1074 ≤ e ≤ 971 ∧ Zpos m < 2 ^ 53 ∧ (-1074 < e → 2 ^ 52 ≤ Zpos m).
Proof.
  unfold bounded, canonical_mantissa.
  rewrite andb_true_iff, Z.eqb_eq, Z.leb_le, fexp_eq.
  change (emax - prec) with 971.
  intros [Hc He]. pose proof (digits2_pos_bounds m) as [Hlo Hhi].
  set (d := Zpos (digits2_pos m)) in *.
  assert (d ≤ 53) by lia.
  split; [lia|]. split.
  - eapply Z.lt_le_trans; [exact Hhi|]. apply Z.pow_le_mono_r; lia.
  - intros. assert (d = 53) as Hd by lia. by rewrite Hd in Hlo.
Qed.

Lemma scaled_below m e :
  bounded prec emax m e = true → scaled (Zpos m) e < 2 ^ (53 + (e + 2200)).
Proof.
  intros (He & Hm & _)%bounded_facts. unfold scaled.
  rewrite (pow2_split 53) by lia. apply Z.mul_lt_mono_pos_r; [apply pow2_pos; lia|done].
Qed.

Lemma scaled_above m e :
  -2200 ≤ e → 2 ^ 52 ≤ m → 2 ^ (52 + (e + 2200)) ≤ scaled m e.
Proof.
  intros He Hm. unfold scaled. rewrite (pow2_split 52) by lia.
  apply Z.mul_le_mono_nonneg_r; [apply Z.lt_le_incl, pow2_pos; lia|done].
Qed.

Lemma scaled_lt_exponent m1 e1 m2 e2 :
  bounded prec emax m1 e1 = true → bounded prec emax m2 e2 = true →
  e1 < e2 → scaled (Zpos m1) e1 < scaled (Zpos m2) e2.
Proof.
  intros H1 H2 Hlt.
  pose proof (scaled_below _ _ H1) as Hb.
  apply bounded_facts in H1 as (He1 & _ & _).
  apply bounded_facts in H2 as (He2 & _ & Hm2).
  eapply Z.lt_le_trans; [exact Hb|].
  etrans; [|apply scaled_above; [lia|apply Hm2; lia]].
  apply Z.pow_le_mono_r; lia.
Qed.

Lemma SFleb_positive m1 e1 m2 e2 :
  bounded prec emax m1 e1 = true → bounded prec emax m2 e2 = true →
  SFleb (S754_finite false m1 e1) (S754_finite false m2 e2) = true
  ↔ scaled (Zpos m1) e1 ≤ scaled (Zpos m2) e2.
Proof.
  intros H1 H2. unfold SFleb, SFcompare.
  pose proof (bounded_facts _ _ H1) as (He1 & _ & _).
  destruct (Z.compare_spec e1 e2) as [->|Hlt|Hgt].
  - change (Pos.compare_cont Eq m1 m2) with (Pos.compare m1 m2).
    destruct (Pos.compare_spec m1 m2) as [->|Hm|Hm].
    + done.
    + split; [intros _|done]. apply scaled_mono; lia.
    + split; [done|]. intros Hle%scaled_mono_inv; lia.
  - split; [intros _|done]. by apply Z.lt_le_incl, scaled_lt_exponent.
  - split; [done|]. intros Hle.
    pose proof (scaled_lt_exponent _ _ _ _ H2 H1 Hgt). lia.
Qed.

Lemma SFleb_negative m1 e1 m2 e2 :
  bounded prec emax m1 e1 = true → bounded prec emax m2 e2 = true →
  SFleb (S754_finite true m1 e1) (S754_finite true m2 e2) = true
  ↔ scaled (Zpos m2) e2 ≤ scaled (Zpos m1) e1.
Proof.
  intros H1 H2. unfold SFleb, SFcompare.
  pose proof (bounded_facts _ _ H1) as (He1 & _ & _).
  destruct (Z.compare_spec e1 e2) as [->|Hlt|Hgt].
  - change (Pos.compare_cont Eq m1 m2) with (Pos.compare m1 m2).
    destruct (Pos.compare_spec m1 m2) as [->|Hm|Hm]; cbn [CompOpp].
    + done.
    + split; [done|]. intros Hle%scaled_mono_inv; lia.
    + split; [intros _|done]. apply scaled_mono; lia.
  - split; [done|]. intros Hle.
    pose proof (scaled_lt_exponent _ _ _ _ H1 H2 Hlt). lia.
  - split; [intros _|done]. by apply Z.lt_le_incl, scaled_lt_exponent.
Qed.

Lemma shr_1_spec mrs :
  0 ≤ shr_m mrs →
  shr_m (shr_1 mrs) = shr_m mrs / 2 ∧
  shr_r (shr_1 mrs) = Z.odd (shr_m mrs) ∧
  shr_s (shr_1 mrs) = shr_r mrs || shr_s mrs.
Proof.
  rewrite <- Z.div2_div.
  destruct mrs as [[|[p|p|]|p] r s]; cbn; intros; done || lia.
Qed.

Lemma iter_pos_invariant {A} (f : A → A) (P : Z → A → Prop) :
  (∀ k x, 0 ≤ k → P k x → P (k + 1) (f x)) →
  ∀ p k x, 0 ≤ k → P k x → P (k + Zpos p) (SpecFloat.iter_pos f p x).
Proof.
  intros Hstep. induction p as [p IH|p IH|]; intros k x Hk HP; cbn [SpecFloat.iter_pos].
  - replace (k + Zpos p~1) with (k + 1 + Zpos p + Zpos p) by lia.
    apply IH; [lia|]. apply IH; [lia|]. by apply Hstep.
  - replace (k + Zpos p~0) with (k + Zpos p + Zpos p) by lia.
    apply IH; [lia|]. by apply IH.
  - by apply Hstep.
Qed.

Lemma shifted_step M k mrs :
  0 ≤ M → 0 ≤ k → shifted M k mrs → shifted M (k + 1) (shr_1 mrs).
Proof.
  intros HM Hk [Hm Hexact].
  assert (0 < 2 ^ k) as Hpos by (by apply pow2_pos).
  assert (0 ≤ shr_m mrs) as Hnonneg by (rewrite Hm; apply Z.div_pos; lia).
  destruct (shr_1_spec mrs Hnonneg) as (Hm' & Hr' & Hs').
  unfold shifted. rewrite pow2_split by lia. change (2 ^ 1) with 2. split.
  - rewrite Hm', Hm. rewrite Z.div_div by lia. done.
  - intros Hmod.
    assert (M = 2 ^ k * (2 * (M / (2 ^ k * 2)))) as HM2.
    { pose proof (Z.div_mod M (2 ^ k * 2)). lia. }
    assert (M mod 2 ^ k = 0) as Hmodk.
    { rewrite HM2, Z.mul_comm. apply Z.mod_mul. lia. }
    assert (M / 2 ^ k = 2 * (M / (2 ^ k * 2))) as Hdiv.
    { rewrite HM2 at 1. rewrite Z.mul_comm. apply Z.div_mul. lia. }
    specialize (Hexact Hmodk).
    destruct mrs as [m r s]. cbn [shr_m shr_r shr_s] in *.
    assert (r = false ∧ s = false) as [-> ->] by (by destruct r, s).
    destruct (shr_1 _) as [m' r' s']. cbn [shr_m shr_r shr_s] in *.
    rewrite Hm, Hdiv, Z.odd_mul in Hr'. cbn in Hr', Hs'. by subst.
Qed.

Lemma shr_spec M e n :
  0 ≤ M →
  let k := Z.max n 0 in
  let r := shr (Build_shr_record M false false) e n in
  shifted M k r.1 ∧ r.2 = e + k.
Proof.
  intros HM k r. subst k r. destruct n as [|p|p]; cbn [shr fst snd].
  - change (Z.max 0 0) with 0. split; [|lia]. split; cbn; [|done].
    by rewrite Z.div_1_r.
  - replace (Z.max (Zpos p) 0) with (Zpos p) by lia. split; [|done].
    change (Zpos p) with (0 + Zpos p).
    apply (iter_pos_invariant shr_1 (shifted M)); [|done|].
    + intros. by apply shifted_step.
    + split; cbn; [|done]. by rewrite Z.div_1_r.
  - replace (Z.max (Zneg p) 0) with 0 by lia. split; [|lia]. split; cbn; [|done].
    by rewrite Z.div_1_r.
Qed.

Lemma round_nearest_even_spec m l :
  m ≤ round_nearest_even m l ≤ m + 1 ∧
  (l = loc_Exact → round_nearest_even m l = m).
Proof.
  destruct l as [|[]]; cbn; try destruct (Z.even m); (split; [lia|done]).
Qed.

Lemma shr_fexp_spec M e :
  0 ≤ M →
  let r := shr_fexp prec emax M e loc_Exact in
  shifted M (dropped M e) r.1 ∧ r.2 = e + dropped M e.
Proof. intros HM. by apply shr_spec. Qed.

Lemma Zdigits2_bounds m :
  0 < m → 2 ^ (Zdigits2 m - 1) ≤ m < 2 ^ Zdigits2 m.
Proof. destruct m as [|p|p]; [lia| |lia]. intros _. apply digits2_pos_bounds. Qed.

(** Rounding down keeps a double below. *)
Lemma floor_keeps_lower m e mB eB :
  0 < m → -2200 ≤ e → bounded prec emax mB eB = true →
  scaled (Zpos mB) eB ≤ scaled m e →
  scaled (Zpos mB) eB ≤ scaled (m / 2 ^ dropped m e) (e + dropped m e).
Proof.
  intros Hm He HB Hle.
  pose proof (Zdigits2_bounds m Hm) as [Hlo Hhi].
  pose proof (bounded_facts _ _ HB) as (HeB & HmB & _).
  unfold dropped in *. rewrite fexp_eq.
  set (d := Zdigits2 m) in *.
  set (k := Z.max (Z.max (d + e - 53) (-1074) - e) 0).
  assert (0 ≤ k) as Hk by lia.
  assert (0 < 2 ^ k) as Hpk by (by apply pow2_pos).
  destruct (Z.eq_dec k 0) as [Hk0|Hk0].
  { rewrite Hk0, Z.div_1_r, Z.add_0_r. done. }
  destruct (Z.le_gt_cases (e + k) eB) as [Hcase|Hcase].
  - replace eB with (e + k + (eB - (e + k))) in * by lia.
    set (j := eB - (e + k)) in *.
    rewrite (scaled_shift (Zpos mB) (e + k) j), (scaled_shift _ e k) in Hle by lia.
    apply scaled_mono_inv in Hle; [|done].
    rewrite (scaled_shift (Zpos mB) (e + k) j) by lia.
    apply scaled_mono; [lia|].
    apply Z.div_le_lower_bound; [done|]. lia.
  - assert (k = d - 53) as Hkd by lia.
    assert (2 ^ 52 ≤ m / 2 ^ k) as Hnormal.
    { apply Z.div_le_lower_bound; [done|].
      rewrite <- pow2_split by lia. replace (k + 52) with (d - 1) by lia. done. }
    apply Z.lt_le_incl. eapply Z.lt_le_trans; [by apply scaled_below|].
    etrans; [|apply scaled_above; [lia|done]].
    apply Z.pow_le_mono_r; lia.
Qed.

(** Rounding up, when places are lost, keeps a double above. *)
Lemma ceil_keeps_upper m e mB eB :
  0 < m → -2200 ≤ e → bounded prec emax mB eB = true →
  scaled m e ≤ scaled (Zpos mB) eB →
  m mod 2 ^ dropped m e ≠ 0 →
  scaled (m / 2 ^ dropped m e + 1) (e + dropped m e) ≤ scaled (Zpos mB) eB.
Proof.
  intros Hm He HB Hle Hrem.
  pose proof (Zdigits2_bounds m Hm) as [Hlo Hhi].
  pose proof (bounded_facts _ _ HB) as (HeB & HmB & _).
  unfold dropped in *. rewrite fexp_eq in *.
  set (d := Zdigits2 m) in *.
  set (k := Z.max (Z.max (d + e - 53) (-1074) - e) 0) in *.
  assert (0 ≤ k) as Hk by lia.
  assert (0 < 2 ^ k) as Hpk by (by apply pow2_pos).
  pose proof (Z.div_mod m (2 ^ k)) as Hdm.
  pose proof (Z.mod_pos_bound m (2 ^ k) Hpk) as Hmod.
  destruct (Z.eq_dec k 0) as [Hk0|Hk0].
  { rewrite Hk0, Z.mod_1_r in Hrem. done. }
  destruct (Z.le_gt_cases (e + k) eB) as [Hcase|Hcase].
  - replace eB with (e + k + (eB - (e + k))) in * by lia.
    set (j := eB - (e + k)) in *.
    rewrite (scaled_shift (Zpos mB) (e + k) j), (scaled_shift _ e k) in Hle by lia.
    apply scaled_mono_inv in Hle; [|done].
    rewrite (scaled_shift (Zpos mB) (e + k) j) by lia.
    apply scaled_mono; [lia|].
    destruct (Z.lt_ge_cases (m / 2 ^ k) (Zpos mB * 2 ^ j)) as [|Hge]; [lia|].
    apply (Z.mul_le_mono_nonneg_l _ _ (2 ^ k)) in Hge; lia.
  - assert (k = d - 53) as Hkd by lia.
    assert (2 ^ 52 ≤ m / 2 ^ k) as Hnormal.
    { apply Z.div_le_lower_bound; [done|].
      rewrite <- pow2_split by lia. replace (k + 52) with (d - 1) by lia. done. }
    exfalso.
    pose proof (scaled_below _ _ HB) as Hbelow.
    pose proof (scaled_above (m / 2 ^ k) (e + k) ltac:(lia) Hnormal) as Habove.
    pose proof (scaled_floor m e k He Hk ltac:(lia)) as Hfloor.
    assert (2 ^ (53 + (eB + 2200)) ≤ 2 ^ (52 + (e + k + 2200)))
      by (apply Z.pow_le_mono_r; lia).
    lia.
Qed.

Lemma scaled_pos m e : -2200 ≤ e → 0 < m → 0 < scaled m e.
Proof. intros. apply Z.mul_pos_pos; [done|]. apply pow2_pos. lia. Qed.

Lemma scaled_pos_inv m e : -2200 ≤ e → 0 < scaled m e → 0 < m.
Proof.
  intros He Hs. destruct (Z.lt_ge_cases 0 m) as [|Hm]; [done|].
  pose proof (scaled_mono m 0 e He Hm) as Hle. unfold scaled in Hle at 2. lia.
Qed.

Lemma round_aux_upper s (m : positive) e mB eB :
  -2200 ≤ e → bounded prec emax mB eB = true → eB ≤ 900 →
  scaled (Zpos m) e ≤ scaled (Zpos mB) eB →
  let r := binary_round_aux prec emax s (Zpos m) e loc_Exact in
  r = S754_zero s ∨
  ∃ mr er, r = S754_finite s mr er ∧ scaled (Zpos mr) er ≤ scaled (Zpos mB) eB.
Proof.
  intros He HB HeB Hle r. subst r. unfold binary_round_aux.
  pose proof (shr_fexp_spec (Zpos m) e ltac:(lia)) as [[Hm1 Hloc1] He1].
  destruct (shr_fexp prec emax (Zpos m) e loc_Exact) as [mrs1 e1].
  cbn [fst snd] in Hm1, Hloc1, He1.
  set (k := dropped (Zpos m) e) in *.
  assert (0 ≤ k) as Hk by (unfold k, dropped; lia).
  pose proof (round_nearest_even_spec (shr_m mrs1) (loc_of_shr_record mrs1))
    as [Hrange Hexact].
  set (m2 := round_nearest_even (shr_m mrs1) (loc_of_shr_record mrs1)) in *.
  assert (0 ≤ shr_m mrs1) as Hm1pos
    by (rewrite Hm1; apply Z.div_pos; [lia|by apply pow2_pos]).
  assert (scaled m2 e1 ≤ scaled (Zpos mB) eB) as Hup.
  { rewrite He1. destruct (Z.eq_dec (Zpos m mod 2 ^ k) 0) as [Hrem|Hrem].
    - rewrite (Hexact (Hloc1 Hrem)), Hm1.
      etrans; [apply scaled_floor; lia|done].
    - etrans; [apply (scaled_mono _ (Zpos m / 2 ^ k + 1)); lia|].
      by apply ceil_keeps_upper. }
  pose proof (shr_fexp_spec m2 e1 ltac:(lia)) as [[Hm3 _] He3].
  destruct (shr_fexp prec emax m2 e1 loc_Exact) as [mrs3 e3].
  cbn [fst snd] in Hm3, He3.
  set (k3 := dropped m2 e1) in *.
  assert (0 ≤ k3) as Hk3 by (unfold k3, dropped; lia).
  assert (scaled (shr_m mrs3) e3 ≤ scaled (Zpos mB) eB) as Hup3.
  { rewrite Hm3, He3. etrans; [apply scaled_floor; lia|done]. }
  assert (0 ≤ shr_m mrs3) as Hm3pos
    by (rewrite Hm3; apply Z.div_pos; [lia|by apply pow2_pos]).
  destruct (shr_m mrs3) as [|mr|mr]; [by left| |lia].
  right. change (emax - prec) with 971.
  destruct (Z.leb_spec e3 971) as [_|Hbig]; [by exists mr, e3|].
  exfalso.
  pose proof (scaled_below _ _ HB) as Hbelow.
  assert (2 ^ (53 + (eB + 2200)) ≤ 2 ^ (e3 + 2200)) as Hpow
    by (apply Z.pow_le_mono_r; lia).
  assert (1 * 2 ^ (e3 + 2200) ≤ scaled (Zpos mr) e3)
    by (apply Z.mul_le_mono_nonneg_r; [apply Z.lt_le_incl, pow2_pos|]; lia).
  lia.
Qed.

Lemma round_aux_lower s (m : positive) e mB eB :
  -2200 ≤ e → bounded prec emax mB eB = true →
  scaled (Zpos mB) eB ≤ scaled (Zpos m) e →
  let r := binary_round_aux prec emax s (Zpos m) e loc_Exact in
  r = S754_infinity s ∨
  ∃ mr er, r = S754_finite s mr er ∧ scaled (Zpos mB) eB ≤ scaled (Zpos mr) er.
Proof.
  intros He HB Hle r. subst r. unfold binary_round_aux.
  pose proof (bounded_facts _ _ HB) as (HeB & _ & _).
  pose proof (scaled_pos (Zpos mB) eB ltac:(lia) ltac:(lia)) as HBpos.
  pose proof (shr_fexp_spec (Zpos m) e ltac:(lia)) as [[Hm1 _] He1].
  destruct (shr_fexp prec emax (Zpos m) e loc_Exact) as [mrs1 e1].
  cbn [fst snd] in Hm1, He1.
  set (k := dropped (Zpos m) e) in *.
  assert (0 ≤ k) as Hk by (unfold k, dropped; lia).
  pose proof (round_nearest_even_spec (shr_m mrs1) (loc_of_shr_record mrs1))
    as [Hrange _].
  set (m2 := round_nearest_even (shr_m mrs1) (loc_of_shr_record mrs1)) in *.
  assert (scaled (Zpos mB) eB ≤ scaled m2 e1) as Hlow.
  { rewrite He1. etrans; [apply (floor_keeps_lower (Zpos m) e); done|].
    fold k. rewrite <- Hm1. apply scaled_mono; lia. }
  assert (0 < m2) as Hm2pos by (apply (scaled_pos_inv m2 e1); lia).
  pose proof (shr_fexp_spec m2 e1 ltac:(lia)) as [[Hm3 _] He3].
  destruct (shr_fexp prec emax m2 e1 loc_Exact) as [mrs3 e3].
  cbn [fst snd] in Hm3, He3.
  set (k3 := dropped m2 e1) in *.
  assert (0 ≤ k3) as Hk3 by (unfold k3, dropped; lia).
  assert (scaled (Zpos mB) eB ≤ scaled (shr_m mrs3) e3) as Hlow3.
  { rewrite Hm3, He3. apply floor_keeps_lower; [done|lia|done|done]. }
  assert (0 < shr_m mrs3) as Hm3pos by (apply (scaled_pos_inv _ e3); lia).
  destruct (shr_m mrs3) as [|mr|mr]; [lia| |lia].
  destruct (e3 <=? emax - prec); [right; by exists mr, e3|by left].
Qed.

Lemma iter_xO m d : Zpos (Pos.iter xO m d) = Zpos m * 2 ^ Zpos d.
Proof.
  induction d as [|d IH] using Pos.peano_ind.
  - cbn [Pos.iter]. rewrite (Pos2Z.inj_xO m). change (2 ^ 1) with 2. lia.
  - rewrite Pos.iter_succ, (Pos2Z.inj_xO (Pos.iter xO m d)), IH, Pos2Z.inj_succ.
    rewrite Z.pow_succ_r by lia. lia.
Qed.

Lemma shl_align_spec m e e' :
  -2200 ≤ e → -2200 ≤ e' →
  scaled (Zpos (shl_align m e e').1) (shl_align m e e').2 = scaled (Zpos m) e ∧
  (shl_align m e e').2 = Z.min e e'.
Proof.
  intros He He'. unfold shl_align.
  destruct (e' - e) as [|d|d] eqn:Hd; cbn [fst snd]; [split; [done|lia]..|].
  split; [|lia]. replace e with (e' + Zpos d) by lia.
  by rewrite scaled_shift, iter_xO by lia.
Qed.

Lemma binary_round_upper s m e mB eB :
  -2200 ≤ e → bounded prec emax mB eB = true → eB ≤ 900 →
  scaled (Zpos m) e ≤ scaled (Zpos mB) eB →
  let r := binary_round prec emax s m e in
  r = S754_zero s ∨
  ∃ mr er, r = S754_finite s mr er ∧ scaled (Zpos mr) er ≤ scaled (Zpos mB) eB.
Proof.
  intros He HB HeB Hle r. subst r. unfold binary_round.
  pose proof (shl_align_spec m e (fexp prec emax (Zpos (digits2_pos m) + e))
                He ltac:(rewrite fexp_eq; lia)) as [Hv Hmin].
  destruct (shl_align _ _ _) as [mz ez]. cbn [fst snd] in Hv, Hmin.
  apply round_aux_upper; [rewrite fexp_eq in Hmin; lia|done|done|by rewrite Hv].
Qed.

Lemma binary_round_lower s m e mB eB :
  -2200 ≤ e → bounded prec emax mB eB = true →
  scaled (Zpos mB) eB ≤ scaled (Zpos m) e →
  let r := binary_round prec emax s m e in
  r = S754_infinity s ∨
  ∃ mr er, r = S754_finite s mr er ∧ scaled (Zpos mB) eB ≤ scaled (Zpos mr) er.
Proof.
  intros He HB Hle r. subst r. unfold binary_round.
  pose proof (shl_align_spec m e (fexp prec emax (Zpos (digits2_pos m) + e))
                He ltac:(rewrite fexp_eq; lia)) as [Hv Hmin].
  destruct (shl_align _ _ _) as [mz ez]. cbn [fst snd] in Hv, Hmin.
  apply round_aux_lower; [rewrite fexp_eq in Hmin; lia|done|by rewrite Hv].
Qed.

Lemma scaled_nonneg m e : 0 ≤ m → 0 ≤ scaled m e.
Proof. intros. apply Z.mul_nonneg_nonneg; [done|]. by apply Z.pow_nonneg. Qed.

Lemma finite_positive s m e :
  valid_binary (S754_finite s m e) = true → 0 < scaled (Zpos m) e.
Proof. intros (He & _)%bounded_facts. apply scaled_pos; lia. Qed.

Lemma SFleb_value x y :
  valid_binary x = true → valid_binary y = true →
  finite_or_zero x = true → finite_or_zero y = true →
  SFleb x y = true ↔ value x ≤ value y.
Proof.
  intros Hx Hy Hfx Hfy.
  destruct x as [sx| | |sx mx ex], y as [sy| | |sy my ey]; try done.
  - pose proof (finite_positive _ _ _ Hy). by destruct sy; cbn; split; try lia.
  - pose proof (finite_positive _ _ _ Hx). by destruct sx; cbn; split; try lia.
  - pose proof (finite_positive _ _ _ Hx). pose proof (finite_positive _ _ _ Hy).
    destruct sx, sy.
    + rewrite SFleb_negative by done. cbn. lia.
    + cbn. split; [lia|done].
    + cbn. split; [done|lia].
    + by rewrite SFleb_positive.
Qed.

Lemma SFleb_between lo x hi :
  finite_or_zero lo = true → finite_or_zero hi = true →
  SFleb lo x = true → SFleb x hi = true → finite_or_zero x = true.
Proof.
  destruct lo as [?| | |[] ? ?], hi as [?| | |[] ? ?], x as [?|[]| |[] ? ?]; done.
Qed.

Lemma scaled_mul m1 e1 m2 e2 :
  -2200 ≤ e1 + e2 → -2200 ≤ e1 → -2200 ≤ e2 →
  scaled (m1 * m2) (e1 + e2) * 2 ^ 2200 = scaled m1 e1 * scaled m2 e2.
Proof.
  intros. unfold scaled.
  rewrite <- Z.mul_assoc, <- pow2_split by lia.
  replace (e1 + e2 + 2200 + 2200) with ((e1 + 2200) + (e2 + 2200)) by lia.
  rewrite pow2_split by lia. lia.
Qed.

(** A product of two doubles whose exact value is at most a double, in
    absolute value, is rounded to at most this double. *)
Lemma SFmul_value x y mB eB :
  valid_binary x = true → valid_binary y = true →
  finite_or_zero x = true → finite_or_zero y = true →
  bounded prec emax mB eB = true → eB ≤ 900 →
  Z.abs (value x) * Z.abs (value y) ≤ scaled (Zpos mB) eB * 2 ^ 2200 →
  let r := SFmul prec emax x y in
  finite_or_zero r = true ∧ Z.abs (value r) ≤ scaled (Zpos mB) eB ∧
  (0 ≤ value x → 0 ≤ value y → 0 ≤ value r).
Proof.
  intros Hx Hy Hfx Hfy HB HeB Hle r. subst r.
  pose proof (bounded_facts _ _ HB) as (HeB' & _ & _).
  pose proof (scaled_pos (Zpos mB) eB ltac:(lia) ltac:(lia)) as HBpos.
  destruct x as [sx| | |sx mx ex], y as [sy| | |sy my ey]; try done;
    try (cbn; repeat split; lia).
  pose proof (finite_positive _ _ _ Hx) as Hxpos.
  pose proof (finite_positive _ _ _ Hy) as Hypos.
  pose proof (bounded_facts _ _ Hx) as (Hex & _ & _).
  pose proof (bounded_facts _ _ Hy) as (Hey & _ & _).
  assert (scaled (Zpos (mx * my)) (ex + ey) ≤ scaled (Zpos mB) eB) as Hexact.
  { apply (Z.mul_le_mono_pos_r _ _ (2 ^ 2200)); [done|].
    rewrite Pos2Z.inj_mul, scaled_mul by lia.
    etrans; [|exact Hle]. cbn [value]. destruct sx, sy; lia. }
  cbn [SFmul].
  destruct (round_aux_upper (xorb sx sy) (mx * my) (ex + ey) mB eB
              ltac:(lia) HB HeB Hexact) as [->|(mr & er & -> & Hr)].
  - cbn. repeat split; lia.
  - pose proof (scaled_nonneg (Zpos mr) er ltac:(lia)) as Hsign.
    cbn [finite_or_zero value]. split; [done|]. split.
    + destruct (xorb sx sy); lia.
    + destruct sx, sy; cbn [xorb]; lia.
Qed.

Lemma scaled_opp m e : scaled (- m) e = - scaled m e.
Proof. unfold scaled. lia. Qed.

Lemma aligned_value s m e e' :
  -2200 ≤ e → -2200 ≤ e' → e' ≤ e →
  scaled (cond_Zopp s (Zpos (shl_align m e e').1)) e' = value (S754_finite s m e).
Proof.
  intros He He' Hle.
  destruct (shl_align_spec m e e' He He') as [Hv Hmin].
  replace (Z.min e e') with e' in Hmin by lia. rewrite Hmin in Hv.
  cbn [value]. destruct s; cbn [cond_Zopp]; [rewrite scaled_opp|]; by rewrite Hv.
Qed.

Lemma normalize_value M e mB eB :
  -2200 ≤ e → bounded prec emax mB eB = true → eB ≤ 900 →
  Z.abs (scaled M e) ≤ scaled (Zpos mB) eB →
  let r := binary_normalize prec emax M e false in
  finite_or_zero r = true ∧ Z.abs (value r) ≤ scaled (Zpos mB) eB.
Proof.
  intros He HB HeB Hle r. subst r.
  pose proof (scaled_nonneg (Zpos mB) eB ltac:(lia)) as HBpos.
  destruct M as [|m|m]; cbn [binary_normalize].
  - by cbn.
  - pose proof (scaled_nonneg (Zpos m) e ltac:(lia)).
    destruct (binary_round_upper false m e mB eB He HB HeB ltac:(lia))
      as [->|(mr & er & -> & Hr)]; [by cbn|].
    pose proof (scaled_nonneg (Zpos mr) er ltac:(lia)). cbn. split; [done|lia].
  - pose proof (scaled_nonneg (Zpos m) e ltac:(lia)).
    rewrite <- Pos2Z.opp_pos, scaled_opp in Hle.
    destruct (binary_round_upper true m e mB eB He HB HeB ltac:(lia))
      as [->|(mr & er & -> & Hr)]; [by cbn|].
    pose proof (scaled_nonneg (Zpos mr) er ltac:(lia)). cbn. split; [done|lia].
Qed.

Lemma normalize_between M e mL eL mH eH :
  -2200 ≤ e →
  bounded prec emax mL eL = true → bounded prec emax mH eH = true → eH ≤ 900 →
  scaled (Zpos mL) eL ≤ scaled M e ≤ scaled (Zpos mH) eH →
  let r := binary_normalize prec emax M e false in
  finite_or_zero r = true ∧ scaled (Zpos mL) eL ≤ value r ≤ scaled (Zpos mH) eH.
Proof.
  intros He HL HH HeH [Hlo Hhi] r. subst r.
  pose proof (bounded_facts _ _ HL) as (HeL & _ & _).
  pose proof (scaled_pos (Zpos mL) eL ltac:(lia) ltac:(lia)) as HLpos.
  assert (0 < M) as HM by (apply (scaled_pos_inv M e); lia).
  destruct M as [|m|m]; [lia| |lia]. cbn [binary_normalize].
  destruct (binary_round_upper false m e mH eH He HH HeH Hhi)
    as [Hr|(mr & er & Hr & Hup)];
  destruct (binary_round_lower false m e mL eL He HL Hlo)
    as [Hr'|(mr' & er' & Hr' & Hlow)];
    rewrite Hr in Hr'; try done.
  injection Hr' as <- <-. rewrite Hr. by cbn.
Qed.

(** A difference of two doubles whose exact value is at most a double, in
    absolute value, is rounded to at most this double. *)
Lemma SFsub_value x y mB eB :
  valid_binary x = true → valid_binary y = true →
  finite_or_zero x = true → finite_or_zero y = true →
  bounded prec emax mB eB = true → eB ≤ 900 →
  Z.abs (value x - value y) ≤ scaled (Zpos mB) eB →
  let r := SFsub prec emax x y in
  finite_or_zero r = true ∧ Z.abs (value r) ≤ scaled (Zpos mB) eB.
Proof.
  intros Hx Hy Hfx Hfy HB HeB Hle r. subst r.
  pose proof (scaled_nonneg (Zpos mB) eB ltac:(lia)) as HBpos.
  destruct x as [sx| | |sx mx ex], y as [sy| | |sy my ey]; try done.
  - by destruct sx, sy; cbn.
  - cbn in *. split; [done|]. destruct sy; cbn; lia.
  - cbn in *. split; [done|]. lia.
  - pose proof (bounded_facts _ _ Hx) as (Hex & _ & _).
    pose proof (bounded_facts _ _ Hy) as (Hey & _ & _).
    cbn [SFsub]. cbv zeta. apply normalize_value; [lia|done|done|].
    unfold Z.sub at 1. unfold scaled at 1.
    rewrite Z.mul_add_distr_r, Z.mul_opp_l.
    fold (scaled (cond_Zopp sx (Zpos (shl_align mx ex (Z.min ex ey)).1)) (Z.min ex ey)).
    fold (scaled (cond_Zopp sy (Zpos (shl_align my ey (Z.min ex ey)).1)) (Z.min ex ey)).
    rewrite !aligned_value by lia. done.
Qed.

(** A sum of two doubles whose exact value is between two doubles is
    rounded to a double between them. *)
Lemma SFadd_between x y mL eL mH eH :
  valid_binary x = true → valid_binary y = true →
  finite_or_zero x = true → finite_or_zero y = true →
  bounded prec emax mL eL = true → bounded prec emax mH eH = true → eH ≤ 900 →
  scaled (Zpos mL) eL ≤ value x + value y ≤ scaled (Zpos mH) eH →
  let r := SFadd prec emax x y in
  finite_or_zero r = true ∧ scaled (Zpos mL) eL ≤ value r ≤ scaled (Zpos mH) eH.
Proof.
  intros Hx Hy Hfx Hfy HL HH HeH Hle r. subst r.
  pose proof (bounded_facts _ _ HL) as (HeL & _ & _).
  pose proof (scaled_pos (Zpos mL) eL ltac:(lia) ltac:(lia)) as HLpos.
  destruct x as [sx| | |sx mx ex], y as [sy| | |sy my ey]; try done.
  - cbn in Hle. lia.
  - cbn in *. split; [done|lia].
  - pose proof (bounded_facts _ _ Hx) as (Hex & _ & _).
    pose proof (bounded_facts _ _ Hy) as (Hey & _ & _).
    cbn [SFadd]. cbv zeta. apply normalize_between; [lia|done|done|done|].
    unfold scaled at 2 3.
    rewrite Z.mul_add_distr_r.
    fold (scaled (cond_Zopp sx (Zpos (shl_align mx ex (Z.min ex ey)).1)) (Z.min ex ey)).
    fold (scaled (cond_Zopp sy (Zpos (shl_align my ey (Z.min ex ey)).1)) (Z.min ex ey)).
    rewrite !aligned_value by lia. done.
Qed.

(** ** Binary64 *)

Lemma leb_value (x y : float) :
  finite_or_zero (Prim2SF x) = true → finite_or_zero (Prim2SF y) = true →
  (x <=? y)%float = true ↔ value (Prim2SF x) ≤ value (Prim2SF y).
Proof.
  intros Hx Hy. rewrite leb_spec.
  apply SFleb_value; auto using Prim2SF_valid.
Qed.

Lemma leb_between (lo x hi : float) :
  finite_or_zero (Prim2SF lo) = true → finite_or_zero (Prim2SF hi) = true →
  (lo <=? x)%float = true → (x <=? hi)%float = true →
  finite_or_zero (Prim2SF x) = true ∧
  value (Prim2SF lo) ≤ value (Prim2SF x) ≤ value (Prim2SF hi).
Proof.
  intros Hlo Hhi Hlox Hxhi.
  assert (finite_or_zero (Prim2SF x) = true) as Hx.
  { rewrite leb_spec in Hlox, Hxhi. by apply (SFleb_between (Prim2SF lo) _ (Prim2SF hi)). }
  split; [done|]. split; by apply leb_value.
Qed.

(** [(u - 0.5) * 0.05] is between -0.025 and 0.025 for every [u] between
    0 and 1. *)
Lemma binary64_variation_small (u : float) :
  (0 <=? u)%float = true → (u <=? 1)%float = true →
  (-0.025 <=? (u - 0.5) * 0.05)%float = true ∧
  ((u - 0.5) * 0.05 <=? 0.025)%float = true.
Proof.
  intros Hlo Hhi.
  destruct (leb_between 0 u 1) as (Hu & Hu0 & Hu1); [done..|].
  change (value (Prim2SF 0)) with 0 in Hu0.
  assert (value (Prim2SF 1) = 2 ^ 2200) as E1 by (by vm_compute).
  rewrite E1 in Hu1.
  assert (Prim2SF 0.5 = S754_finite false 4503599627370496 (-53)) as Ehalf
    by (by vm_compute).
  assert (Prim2SF 0.05 = S754_finite false 7205759403792794 (-57)) as Estep
    by (by vm_compute).
  destruct (SFsub_value (Prim2SF u) (Prim2SF 0.5) 4503599627370496 (-53)
              (Prim2SF_valid _) (Prim2SF_valid _) Hu)
    as [Hd Hdv]; [by vm_compute..| |].
  { rewrite Ehalf.
    change (value (S754_finite false 4503599627370496 (-53))) with (2 ^ 2199).
    change (scaled 4503599627370496 (-53)) with (2 ^ 2199).
    replace (2 ^ 2200) with (2 * 2 ^ 2199) in Hu1 by (by vm_compute).
    generalize dependent (2 ^ 2199). lia. }
  cbv zeta in Hd, Hdv. fold SF64sub in Hd, Hdv. rewrite <- sub_spec in Hd, Hdv.
  destruct (SFmul_value (Prim2SF (u - 0.5)) (Prim2SF 0.05) 7205759403792794 (-58)
              (Prim2SF_valid _) (Prim2SF_valid _) Hd)
    as (Hv & Hvv & _); [by vm_compute..| |].
  { rewrite Estep.
    etrans; [apply Z.mul_le_mono_nonneg_r; [lia|exact Hdv]|].
    by vm_compute. }
  cbv zeta in Hv, Hvv. fold SF64mul in Hv, Hvv. rewrite <- mul_spec in Hv, Hvv.
  rewrite !leb_value by done.
  change (value (Prim2SF (-0.025))) with (- scaled 7205759403792794 (-58)).
  change (value (Prim2SF 0.025)) with (scaled 7205759403792794 (-58)).
  lia.
Qed.

(** [0.8 + (1.2 - 0.8) * u] is between 0.8 and 1.2 for every [u] between
    0 and 1. *)
Lemma binary64_uniform_in_range (u : float) :
  (0 <=? u)%float = true → (u <=? 1)%float = true →
  (0.8 <=? 0.8 + (1.2 - 0.8) * u)%float = true ∧
  (0.8 + (1.2 - 0.8) * u <=? 1.2)%float = true.
Proof.
  intros Hlo Hhi.
  destruct (leb_between 0 u 1) as (Hu & Hu0 & Hu1); [done..|].
  change (value (Prim2SF 0)) with 0 in Hu0.
  assert (value (Prim2SF 1) = 2 ^ 2200) as E1 by (by vm_compute).
  rewrite E1 in Hu1.
  assert ((1.2 - 0.8)%float = 0x1.9999999999998p-2%float) as Ewidth by (by vm_compute).
  assert (Prim2SF 0x1.9999999999998p-2 = S754_finite false 7205759403792792 (-54))
    as Ew by (by vm_compute).
  assert (Prim2SF 0.8 = S754_finite false 7205759403792794 (-53)) as Ebase
    by (by vm_compute).
  rewrite Ewidth.
  destruct (SFmul_value (Prim2SF 0x1.9999999999998p-2) (Prim2SF u)
              7205759403792792 (-54) (Prim2SF_valid _) (Prim2SF_valid _)
              ltac:(by vm_compute) Hu)
    as (Hp & Hpv & Hp0); [by vm_compute..| |].
  { rewrite Ew. cbn [value]. rewrite Z.abs_eq by (by vm_compute).
    apply Z.mul_le_mono_nonneg_l; [by vm_compute|lia]. }
  cbv zeta in Hp, Hpv, Hp0. fold SF64mul in Hp, Hpv, Hp0.
  rewrite <- mul_spec in Hp, Hpv, Hp0.
  specialize (Hp0 ltac:(rewrite Ew; by vm_compute) Hu0).
  destruct (SFadd_between (Prim2SF 0.8) (Prim2SF (0x1.9999999999998p-2 * u))
              7205759403792794 (-53) 5404319552844595 (-52)
              (Prim2SF_valid _) (Prim2SF_valid _) ltac:(by vm_compute) Hp)
    as (Hs & Hsv); [by vm_compute..| |].
  { rewrite Ebase. cbn [value].
    assert (scaled 7205759403792794 (-53) + scaled 7205759403792792 (-54)
            = scaled 5404319552844595 (-52)) as <- by (by vm_compute).
    lia. }
  cbv zeta in Hs, Hsv. fold SF64add in Hs, Hsv. rewrite <- add_spec in Hs, Hsv.
  rewrite !leb_value by done.
  change (value (Prim2SF 0.8)) with (scaled 7205759403792794 (-53)).
  change (value (Prim2SF 1.2)) with (scaled 5404319552844595 (-52)).
  lia.
Qed.

(** * Worked requests in binary64 *)

Section Binary64.
Import Runtime.
#[local] Existing Instance binary64.

Lemma offline_all_fail (base_currency target_currency : string) :
  all_providers_fail (started offline) base_currency target_currency.
Proof.
  intros k api_config Hk.
  destruct k as [|[|[|k]]]; try done; injection Hk as <-.
  - exists ("https://api.exchangerate-api.com/v4/latest/" +:+ base_currency).
    split; [|done].
    rewrite <- (append_empty_r base_currency) at 2. reflexivity.
  - exists ("https://api.frankfurter.app/latest?from=" +:+ base_currency
            +:+ "&to=" +:+ target_currency).
    split; [|done].
    rewrite <- (append_empty_r target_currency) at 2. reflexivity.
  - exists ("https://open.er-api.com/v6/latest/" +:+ base_currency).
    split; [|done].
    rewrite <- (append_empty_r base_currency) at 2. reflexivity.
Qed.

(** C1 fails as stated: the first provider's answer contains the rate 0
    for the target currency, present and not null, yet the fetch goes on
    to the second provider and returns its rate. *)
Lemma fetch_skips_zero_rate :
  let w := started zero_then_rate in
  reported_rate (network w 0 "https://api.exchangerate-api.com/v4/latest/USD" 10) "CNY"
    = Some (PInt 0) ∧
  (get_exchange_rate_from_api "USD" "CNY" w).1
    = Some {| result_rate := PFloat 7.1%float;
              result_date := PStr "2026-11-02";
              result_source := "Frankfurter" |} ∧
  sent (get_exchange_rate_from_api "USD" "CNY" w).2
    = ["https://api.exchangerate-api.com/v4/latest/USD";
       "https://api.frankfurter.app/latest?from=USD&to=CNY"].
Proof. vm_compute. by repeat split. Qed.

(** The first provider times out and the second answers. *)
Lemma fetch_returns_first_true_rate_witness :
  (get_exchange_rate_from_api "USD" "CNY" (started timeout_then_rate)).1
    = Some {| result_rate := PFloat 7.1%float;
              result_date := PStr "2026-11-02";
              result_source := "Frankfurter" |} ∧
  sent (get_exchange_rate_from_api "USD" "CNY" (started timeout_then_rate)).2
    = ["https://api.exchangerate-api.com/v4/latest/USD";
       "https://api.frankfurter.app/latest?from=USD&to=CNY"].
Proof.
  pose proof (fetch_returns_first_true_rate "USD" "CNY" (started timeout_then_rate) 1
    {| api_name := "Frankfurter";
       api_url := "https://api.frankfurter.app/latest?from={base}&to={target}";
       api_requires_key := false; api_rate_limit := 1000; api_timeout := 10 |}
    (PFloat 7.1%float)
    [("date", PStr "2026-11-02"); ("rates", PDict [("CNY", PFloat 7.1%float)])]) as Hthm.
  destruct Hthm as (_ & _ & _ & Hresult & _ & Hsent).
  - reflexivity.
  - intros j api_config Hj Hlook. destruct j as [|j]; [|lia].
    injection Hlook as <-.
    exists "https://api.exchangerate-api.com/v4/latest/USD". by vm_compute.
  - exists "https://api.frankfurter.app/latest?from=USD&to=CNY". by vm_compute.
  - split; [exact Hresult|exact Hsent].
Defined.

(** Every provider fails for USD to EUR. *)
Lemma all_providers_fail_fallback_witness :
  (get_exchange_rate_from_api "USD" "EUR" (started offline)).1 = None ∧
  ∃ json,
    (get_exchange_rate [("base", "usd"); ("target", "eur")] (started offline)).1
      = Reply 503 json ∧
    assoc_get json "success" = Some (PBool false).
Proof.
  destruct (all_providers_fail_fallback "USD" "EUR" (started offline)
              (offline_all_fail "USD" "EUR")) as [_ Hother].
  destruct Hother as [Hnone Hendpoint]; [by intros [_ [=]]|].
  split; [exact Hnone|].
  apply Hendpoint; by vm_compute.
Defined.

(** C3 at the conversion endpoint, for the request
    [/api/convert?base=XYZ&target=CNY&amount=1]: XYZ is not in the
    registry, yet the endpoint asks the providers; it answers 503 when
    they all fail, and 500 when one of them reports a rate, never 400. *)
Theorem convert_amount_skips_validation :
  let args := [("base", "XYZ"); ("target", "CNY"); ("amount", "1")] in
  in_CURRENCY_DATA "XYZ" = false ∧
  (convert_amount args (started offline)).1
    = Reply 503 [("success", PBool false);
                 ("error", PStr "无法获取汇率数据");
                 ("timestamp", PStr "2026-11-03 12:00:00")] ∧
  sent (convert_amount args (started offline)).2
    = ["https://api.exchangerate-api.com/v4/latest/XYZ";
       "https://api.frankfurter.app/latest?from=XYZ&to=CNY";
       "https://open.er-api.com/v6/latest/XYZ"] ∧
  (convert_amount args (started always_answers)).1
    = Reply 500 [("success", PBool false);
                 ("error", PStr "转换失败: 'XYZ'");
                 ("timestamp", PStr "2026-11-03 12:00:01")] ∧
  sent (convert_amount args (started always_answers)).2
    = ["https://api.exchangerate-api.com/v4/latest/XYZ"].
Proof. vm_compute. by repeat split. Qed.

(** A second request, four seconds after the first. *)
Lemma cached_after_fetch_witness :
  ∃ json,
    (get_exchange_rate [] (get_exchange_rate [] (started first_answers)).2).1
      = Reply 200 json ∧
    assoc_get json "exchange_rate" = Some (PFloat 7.1%float) ∧
    assoc_get json "cached" = Some (PBool true).
Proof.
  destruct (proj2 cached_after_fetch [] (started first_answers) 200 fresh_reply)
    as (e & n & _ & Hn & Hts & Hrate & Hnext); [by vm_compute..|].
  destruct (Hnext [] (get_exchange_rate [] (started first_answers)).2
              eq_refl eq_refl eq_refl) as [Hfresh _].
  destruct Hfresh as (json & Hrun & _ & Hsame & Hcached & _).
  { rewrite Hts.
    change (clock (started first_answers) n) with (noon + Z.of_nat n * 1000000).
    assert (clock (get_exchange_rate [] (started first_answers)).2
              (ticks (get_exchange_rate [] (started first_answers)).2)
            = noon + 4 * 1000000) as -> by (by vm_compute).
    unfold timedelta_seconds. lia. }
  exists json. split; [exact Hrun|]. split; [|exact Hcached].
  rewrite Hsame. f_equal.
  assert (assoc_get fresh_reply "exchange_rate" = Some (PFloat 7.1%float)) as Hfirst
    by (by vm_compute).
  congruence.
Defined.

(** A first answer with the rate 7.1, freshly fetched, reports the
    inverse rate [1 / 7.1]; an answer from a cache that holds the rate
    0.0 reports the inverse rate [0]. *)
Lemma inverse_rate_spec_witness :
  (assoc_get fresh_reply "exchange_rate" = Some (PFloat 7.1%float) ∧
   assoc_get fresh_reply "inverse_rate" = Some (PFloat (1 / 7.1)%float) ∧
   assoc_get fresh_reply "cached" = Some (PBool false)) ∧
  (assoc_get cached_zero_reply "exchange_rate" = Some (PFloat 0%float) ∧
   assoc_get cached_zero_reply "inverse_rate" = Some (PInt 0) ∧
   assoc_get cached_zero_reply "cached" = Some (PBool true)).
Proof.
  split.
  - destruct (inverse_rate_spec [] (started first_answers) 200 fresh_reply)
      as (exchange_rate & inverse_rate & Hrate & Hinverse & Hcases & _);
      [by vm_compute..|].
    assert (exchange_rate = PFloat 7.1%float) as ->
      by (vm_compute in Hrate; congruence).
    split; [by vm_compute|]. split; [|by vm_compute].
    rewrite Hinverse, Hcases. by vm_compute.
  - destruct (inverse_rate_spec [] zero_in_cache 200 cached_zero_reply)
      as (exchange_rate & inverse_rate & Hrate & Hinverse & Hcases & _);
      [by vm_compute..|].
    assert (exchange_rate = PFloat 0%float) as ->
      by (vm_compute in Hrate; congruence).
    split; [by vm_compute|]. split; [|by vm_compute].
    rewrite Hinverse, Hcases. by vm_compute.
Defined.

(** C6 fails as stated: asked for 7 days, the builder returns the one
    point that the provider reported, not 8. *)
Lemma history_shorter_than_days :
  let result :=
    (generate_historical_data "USD" "CNY" 7 (started one_day_of_history)).1 in
  result = inr [{| point_date := "2026-11-02";
                   point_rate := PFloat 7.1235%float;
                   point_timestamp := "2026-11-02 12:00:00" |}] ∧
  ∀ history, result = inr history → Z.of_nat (length history) ≠ 7 + 1.
Proof.
  assert ((generate_historical_data "USD" "CNY" 7 (started one_day_of_history)).1
          = inr [{| point_date := "2026-11-02";
                    point_rate := PFloat 7.1235%float;
                    point_timestamp := "2026-11-02 12:00:00" |}]) as Hrun
    by (by vm_compute).
  cbv zeta. rewrite Hrun. split; [done|].
  by intros history [= <-].
Qed.

(** Two days of simulated history when no provider can be reached. *)
Lemma historical_series_shape_witness :
  ∃ history,
    (generate_historical_data "USD" "EUR" 2 (started offline)).1 = inr history ∧
    Z.of_nat (length history) = 2 + 1 ∧
    point_date <$> history = ["2026-11-01"; "2026-11-02"; "2026-11-03"].
Proof.
  destruct (historical_series_shape "USD" "EUR" 2 (started offline)) as [_ Hsim];
    [lia|].
  destruct Hsim as (history & Hrun & Hlen & Hdates & _);
    [left; by vm_compute|by vm_compute..|].
  exists history. split; [exact Hrun|]. split; [exact Hlen|].
  rewrite Hdates. by vm_compute.
Defined.

(** C10 fails as stated: with every provider failing and a supported
    pair, a request for a million days of history is answered with
    status 500 and [success] false. *)
Lemma historical_fails_for_distant_days :
  let args := [("base", "USD"); ("target", "EUR"); ("days", "1000000")] in
  in_CURRENCY_DATA "USD" = true ∧ in_CURRENCY_DATA "EUR" = true ∧
  all_providers_fail (started offline) "USD" "EUR" ∧
  ∃ json,
    (get_historical_data args (started offline)).1 = Reply 500 json ∧
    assoc_get json "success" = Some (PBool false).
Proof.
  cbv zeta. do 2 (split; [by vm_compute|]). split; [apply offline_all_fail|].
  apply historical_days_out_of_range; [by vm_compute..|].
  intros n Hn. change (clock (started offline) n) with (noon + Z.of_nat n * 1000000).
  change (ticks (started offline)) with 0%nat in Hn.
  assert (default 30 (int_of_str (args_get [("base", "USD"); ("target", "EUR");
                                            ("days", "1000000")] "days" "30"))
          = 1000000) as -> by (by vm_compute).
  unfold timedelta_days, noon. lia.
Qed.

(** Two days of history for USD to EUR when every provider fails. *)
Lemma historical_reports_default_rate_witness :
  ∃ json,
    (get_historical_data [("base", "usd"); ("target", "eur"); ("days", "2")]
       (started offline)).1 = Reply 200 json ∧
    assoc_get json "success" = Some (PBool true) ∧
    assoc_get json "current_rate" = Some (PFloat 1%float).
Proof.
  destruct (historical_reports_default_rate
              [("base", "usd"); ("target", "eur"); ("days", "2")] (started offline))
    as (json & Hrun & Hsuccess & Hrate); [by vm_compute..| | |].
  - exact (offline_all_fail "USD" "EUR").
  - right. intros n Hn.
    change (clock (started offline) n) with (noon + Z.of_nat n * 1000000).
    change (ticks (started offline)) with 0%nat in Hn.
    assert (default 30 (int_of_str (args_get [("base", "usd"); ("target", "eur");
                                              ("days", "2")] "days" "30"))
            = 2) as -> by (by vm_compute).
    unfold timedelta_days, datetime_end, noon. lia.
  - exists json. split; [exact Hrun|]. split; [exact Hsuccess|].
    rewrite Hrate. by vm_compute.
Defined.

(** In binary64 the values at the ends of the draws are within the
    bounds of the simulated series: [(0 - 0.5) * 0.05] is [-0.025],
    [(1 - 0.5) * 0.05] is [0.025], and [0.8 + (1.2 - 0.8) * u] is [0.8]
    at 0 and [1.2] at 1. *)
Lemma binary64_ends_within_bounds :
  ((0 - 0.5) * 0.05 = -0.025)%float ∧
  ((1 - 0.5) * 0.05 = 0.025)%float ∧
  (0.8 + (1.2 - 0.8) * 0 = 0.8)%float ∧
  (0.8 + (1.2 - 0.8) * 1 = 1.2)%float ∧
  fleb (float_lit (-25) (-3))
       (fmul (fsub (float_lit 0 0) (float_lit 5 (-1))) (float_lit 5 (-2))) = true ∧
  fleb (fmul (fsub (float_lit 1 0) (float_lit 5 (-1))) (float_lit 5 (-2)))
       (float_lit 25 (-3)) = true ∧
  fleb (float_lit 8 (-1))
       (fadd (float_lit 8 (-1))
          (fmul (fsub (float_lit 12 (-1)) (float_lit 8 (-1))) (float_lit 0 0))) = true ∧
  fleb (fadd (float_lit 8 (-1))
          (fmul (fsub (float_lit 12 (-1)) (float_lit 8 (-1))) (float_lit 1 0)))
       (float_lit 12 (-1)) = true.
Proof. vm_compute. by repeat split. Qed.

End Binary64.

(** * The conversion endpoint, on every runtime and in binary64 *)


Section Binary64Conversion.
#[local] Existing Instance Runtime.binary64.



End Binary64Conversion.

(** * The simulated series in binary64 *)

Section Binary64Series.
Import Runtime.
#[local] Existing Instance binary64.

(** In binary64 the change of a day is between -0.025 and +0.025. *)
Lemma variation_small (u : PrimFloat.float) :
  unit_draw u →
  small_change (fmul (fsub u (float_lit 5 (-1))) (float_lit 5 (-2))).
Proof.
  intros [Hlo Hhi]. unfold small_change.
  assert (float_lit 0 0 = 0%float) as E0 by (by vm_compute).
  assert (float_lit 1 0 = 1%float) as E1 by (by vm_compute).
  assert (float_lit 5 (-1) = 0.5%float) as E2 by (by vm_compute).
  assert (float_lit 5 (-2) = 0.05%float) as E3 by (by vm_compute).
  assert (float_lit (-25) (-3) = (-0.025)%float) as E4 by (by vm_compute).
  assert (float_lit 25 (-3) = 0.025%float) as E5 by (by vm_compute).
  rewrite E0 in Hlo. rewrite E1 in Hhi. rewrite E2, E3, E4, E5.
  by apply binary64_variation_small.
Qed.

(** In binary64 the start of the walk is between 0.8 and 1.2. *)
Lemma uniform_in_range (u : PrimFloat.float) :
  unit_draw u →
  let x := fadd (float_lit 8 (-1))
             (fmul (fsub (float_lit 12 (-1)) (float_lit 8 (-1))) u) in
  fleb (float_lit 8 (-1)) x = true ∧ fleb x (float_lit 12 (-1)) = true.
Proof.
  intros [Hlo Hhi]. cbv zeta.
  assert (float_lit 0 0 = 0%float) as E0 by (by vm_compute).
  assert (float_lit 1 0 = 1%float) as E1 by (by vm_compute).
  assert (float_lit 8 (-1) = 0.8%float) as E2 by (by vm_compute).
  assert (float_lit 12 (-1) = 1.2%float) as E3 by (by vm_compute).
  rewrite E0 in Hlo. rewrite E1 in Hhi. rewrite E2, E3.
  by apply binary64_uniform_in_range.
Qed.

(** C7. The simulated series is used only when the provider gives no
    series or an empty one; then, when the dates exist, its rates are the
    rounded values of a walk that starts from 6.99 for USD to CNY and
    from [0.8 + (1.2 - 0.8) * random()], between 0.8 and 1.2, for every
    other pair, and that moves each day by [(random() - 0.5) * 0.05],
    between -0.025 and +0.025, from the unrounded rate of the day
    before; there are [days + 1] rates.  The arithmetic is binary64, and
    the draws of [random()] are between 0 and 1. *)
Theorem simulated_series_is_random_walk
    (base_currency target_currency : string) (days : Z)
    (w : @World PrimFloat.float) :
  (∀ n, unit_draw (dice w n)) →
  let primary := get_historical_data_from_api base_currency target_currency days w in
  let w1 := primary.2 in
  let today := clock w1 (ticks w1) in
  (∀ p l, primary.1 = Some (p :: l) →
     generate_historical_data base_currency target_currency days w
       = (inr (p :: l), w1) ∧
     rolls w1 = rolls w) ∧
  (primary.1 = None ∨ primary.1 = Some [] →
   days < 0 ∨ (timedelta_days days ≤ today ∧ today < datetime_end) →
   ∃ seed variations,
     (generate_historical_data base_currency target_currency days w).1
       = inr (zip_with (simulated_point today) (range_down days)
                (random_walk seed variations)) ∧
     length variations = length (range_down days) ∧
     length variations = Z.to_nat (days + 1) ∧
     point_rate <$> zip_with (simulated_point today) (range_down days)
                      (random_walk seed variations)
       = (λ rate, PFloat (round4 rate)) <$> random_walk seed variations ∧
     (base_currency = "USD" ∧ target_currency = "CNY" →
        seed = float_lit 699 (-2) ∧
        ∀ j v, variations !! j = Some v →
          v = fmul (fsub (dice w (j + rolls w)%nat) (float_lit 5 (-1))) (float_lit 5 (-2))) ∧
     (¬ (base_currency = "USD" ∧ target_currency = "CNY") →
        seed = fadd (float_lit 8 (-1))
                 (fmul (fsub (float_lit 12 (-1)) (float_lit 8 (-1))) (dice w (rolls w))) ∧
        fleb (float_lit 8 (-1)) seed = true ∧ fleb seed (float_lit 12 (-1)) = true ∧
        ∀ j v, variations !! j = Some v →
          v = fmul (fsub (dice w (j + S (rolls w))%nat) (float_lit 5 (-1)))
                (float_lit 5 (-2))) ∧
     Forall small_change variations).
Proof.
  intros Hdice primary w1 today.
  pose proof (history_api_frame base_currency target_currency days w)
    as (_ & _ & _ & Hd & Hr). fold primary in Hd, Hr. fold w1 in Hd, Hr.
  split.
  - intros p l Hp.
    destruct (generate_historical_data_cases base_currency target_currency days w)
      as [(p' & l' & Hp' & Hgen)|[[Hnone|Hnil] _]];
      unfold primary in *; try congruence.
    split; [|done]. rewrite Hgen. repeat f_equal; congruence.
  - intros Hprimary Hrange.
    destruct (generate_historical_data_cases base_currency target_currency days w)
      as [(p' & l' & Hp' & Hgen)|[_ Hgen]];
      unfold primary in *; [destruct Hprimary; congruence|].
    rewrite Hgen. fold w1.
    rewrite simulated_history_spec by (by apply range_down_in_range).
    cbn [fst].
    exists (seed_rate base_currency target_currency w1),
      (variation (rolled (seed_draws base_currency target_currency) w1)
         <$> seq 0 (length (range_down days))).
    split; [done|]. split; [by rewrite length_fmap, length_seq|].
    split; [by rewrite length_fmap, length_seq, range_down_length|].
    split.
    { apply simulated_rates.
      by rewrite random_walk_length, length_fmap, length_seq. }
    unfold seed_rate, seed_draws.
    split; [|split].
    + intros Hpair. apply is_USD_CNY_true in Hpair. rewrite Hpair.
      split; [done|]. intros j v Hj.
      rewrite list_lookup_fmap in Hj.
      destruct (seq 0 _ !! j) as [k|] eqn:Hk; [|done].
      apply lookup_seq in Hk as [-> _]. injection Hj as <-.
      unfold variation, rolled. cbn. by rewrite Hd, Hr.
    + intros Hpair. rewrite <- is_USD_CNY_true in Hpair.
      apply not_true_is_false in Hpair. rewrite Hpair, Hd, Hr.
      split; [done|].
      destruct (uniform_in_range (dice w (rolls w)) (Hdice _)) as [Hlo Hhi].
      do 2 (split; [done|]). intros j v Hj.
      rewrite list_lookup_fmap in Hj.
      destruct (seq 0 _ !! j) as [k|] eqn:Hk; [|done].
      apply lookup_seq in Hk as [-> _]. injection Hj as <-.
      unfold variation, rolled. cbn. rewrite Hd, Hr.
      by replace (j + S (rolls w))%nat with (j + (1 + rolls w))%nat by lia.
    + apply Forall_fmap, Forall_forall. intros j _. unfold variation.
      apply variation_small. cbn [dice rolled]. rewrite Hd. apply Hdice.
Qed.

(** Two days of simulated history for USD to EUR, with the draws 0.25,
    0.75, 0.1 and 1: the walk starts from 0.9 and moves by 0.0125, by
    -0.02 and by 0.025. *)
Lemma simulated_series_is_random_walk_witness :
  let primary := get_historical_data_from_api "USD" "EUR" 2 rolling in
  let today := clock primary.2 (ticks primary.2) in
  ∃ seed variations,
    (generate_historical_data "USD" "EUR" 2 rolling).1
      = inr (zip_with (simulated_point today) (range_down 2)
               (random_walk seed variations)) ∧
    seed = (0.8 + (1.2 - 0.8) * 0.25)%float ∧
    variations = [((0.75 - 0.5) * 0.05)%float; ((0.1 - 0.5) * 0.05)%float;
                  ((1 - 0.5) * 0.05)%float] ∧
    fleb (float_lit 8 (-1)) seed = true ∧ fleb seed (float_lit 12 (-1)) = true ∧
    Forall small_change variations ∧
    point_rate <$> zip_with (simulated_point today) (range_down 2)
                     (random_walk seed variations)
      = [PFloat 0.9125%float; PFloat 0.8925%float; PFloat 0.9175%float].
Proof.
  destruct (simulated_series_is_random_walk "USD" "EUR" 2 rolling) as [_ Hsim].
  { intros [|[|[|[|n]]]]; by vm_compute. }
  destruct Hsim as (seed & variations & Hrun & _ & Hlen & _ & _ & Hother & Hsmall).
  { left. by vm_compute. }
  { right. by vm_compute. }
  destruct Hother as (Hseed & Hlo & Hhi & Hvariations); [by intros [_ [=]]|].
  exists seed, variations.
  assert (seed = (0.8 + (1.2 - 0.8) * 0.25)%float) as Eseed
    by (rewrite Hseed; by vm_compute).
  assert (variations = [((0.75 - 0.5) * 0.05)%float; ((0.1 - 0.5) * 0.05)%float;
                        ((1 - 0.5) * 0.05)%float]) as Evariations.
  { clear Hrun Hsmall.
    change (Z.to_nat (2 + 1)) with 3%nat in Hlen.
    destruct variations as [|a [|b [|c [|d rest]]]]; try discriminate Hlen.
    rewrite (Hvariations 0%nat a eq_refl), (Hvariations 1%nat b eq_refl),
      (Hvariations 2%nat c eq_refl).
    by vm_compute. }
  do 5 (split; [done|]). split; [done|].
  rewrite Eseed, Evariations. by vm_compute.
Defined.

End Binary64Series.

(** * The bounds of the simulated series in exact arithmetic *)

Section Exact.
#[local] Existing Instance Runtime.rational.

(** In exact arithmetic the change of a day and the start of the walk
    are within the same bounds. *)
Lemma rational_draws_bounded (u : Q) :
  unit_draw u →
  small_change (fmul (fsub u (float_lit 5 (-1))) (float_lit 5 (-2))) ∧
  fleb (float_lit 8 (-1))
       (fadd (float_lit 8 (-1))
          (fmul (fsub (float_lit 12 (-1)) (float_lit 8 (-1))) u)) = true ∧
  fleb (fadd (float_lit 8 (-1))
          (fmul (fsub (float_lit 12 (-1)) (float_lit 8 (-1))) u))
       (float_lit 12 (-1)) = true.
Proof.
  unfold unit_draw, small_change.
  cbn [fleb fsub fmul fadd Runtime.rational].
  change (float_lit 0 0) with (0 # 1)%Q. change (float_lit 1 0) with (1 # 1)%Q.
  change (float_lit 5 (-1)) with (5 # 10)%Q.
  change (float_lit 5 (-2)) with (5 # 100)%Q.
  change (float_lit (-25) (-3)) with (-25 # 1000)%Q.
  change (float_lit 25 (-3)) with (25 # 1000)%Q.
  change (float_lit 8 (-1)) with (8 # 10)%Q.
  change (float_lit 12 (-1)) with (12 # 10)%Q.
  rewrite !Qle_bool_iff. intros [Hlo Hhi]. repeat split; lra.
Qed.

End Exact.

(** * More worked requests in binary64 *)

Section Binary64Requests.
Import Runtime.
#[local] Existing Instance binary64.

(** A rate stored for USD to CNY leaves USD to EUR without an entry. *)
Lemma put_leaves_other_pairs_witness :
  exchange_rate_cache
    (set_cached_rate "USD" "CNY" (PFloat 7.1%float) "Frankfurter" (started offline)).2
    !! cache_key "USD" "EUR" = None.
Proof.
  destruct (put_leaves_other_pairs "USD" "CNY" "USD" "EUR" (PFloat 7.1%float)
              "Frankfurter" (started offline)) as (_ & Hlook & _);
    [by vm_compute..|by intros [=]|].
  rewrite Hlook. reflexivity.
Defined.

(** An exchange-rate request, a conversion and a look at the health of
    the server. *)
Lemma cache_bounded_witness :
  (size (exchange_rate_cache
           (serve_all [GET_exchange_rate []; GET_convert []; GET_health]
              (started first_answers)).2) ≤ 400)%nat.
Proof.
  destruct (cache_bounded [GET_exchange_rate []; GET_convert []; GET_health]
              (started first_answers)) as (_ & Hsize & _); [reflexivity|].
  exact Hsize.
Defined.

(** The second request for USD to CNY, answered from the cache. *)
Lemma exchange_rate_never_zero_witness :
  ∃ rate inverse_rate,
    assoc_get second_reply "exchange_rate" = Some rate ∧
    ne_zero rate = true ∧
    assoc_get second_reply "inverse_rate" = Some inverse_rate ∧
    one_over rate = inr inverse_rate.
Proof.
  apply (exchange_rate_never_zero [GET_exchange_rate []] (started first_answers) []
           200 second_reply); by vm_compute.
Defined.

(** The providers report the rate of USD to CNY as the string "7.1": the
    first request is answered with status 500, and the second raises. *)
Lemma unusable_rate_stays_cached_witness :
  (get_exchange_rate [] (started string_rate)).1 = Reply 500 string_rate_reply ∧
  ∃ error,
    (get_exchange_rate [] (get_exchange_rate [] (started string_rate)).2).1
      = Raised error.
Proof.
  assert ((get_exchange_rate [] (started string_rate)).1 = Reply 500 string_rate_reply)
    as Hfirst by (by vm_compute).
  split; [exact Hfirst|].
  destruct (unusable_rate_stays_cached [] (started string_rate) string_rate_reply Hfirst)
    as (e & error & Hlook & _ & Hnext).
  exists error.
  apply (Hnext [] (get_exchange_rate [] (started string_rate)).2 eq_refl eq_refl eq_refl).
  assert (exchange_rate_cache (get_exchange_rate [] (started string_rate)).2
            !! cache_key (str_upper (args_get [] "base" "USD"))
                 (str_upper (args_get [] "target" "CNY"))
          = Some {| cache_rate := PStr "7.1"; cache_source := "ExchangeRate-API";
                    cache_timestamp := noon + 1000000 |}) as Hentry by (by vm_compute).
  rewrite Hentry in Hlook. injection Hlook as <-. by vm_compute.
Defined.

(** No provider can be reached for the first request for USD to CNY;
    by the second request every provider would answer 7.1, and the
    answer is 6.99 from the cache. *)
Lemma default_rate_is_cached_witness :
  ∃ json',
    (get_exchange_rate []
       (write_cache (exchange_rate_cache (get_exchange_rate [] (started offline)).2)
          (started always_answers)).2).1 = Reply 200 json' ∧
    assoc_get json' "exchange_rate" = Some (PFloat 6.99%float) ∧
    assoc_get json' "cached" = Some (PBool true).
Proof.
  destruct (default_rate_is_cached [] (started offline)) as [_ (e & Hlook & _ & _ & Hnext)];
    [by vm_compute..|exact (offline_all_fail "USD" "CNY")|].
  destruct (Hnext []
              (write_cache (exchange_rate_cache (get_exchange_rate [] (started offline)).2)
                 (started always_answers)).2)
    as (json' & Hrun & Hrate & _ & Hcached & _); [by vm_compute..|reflexivity| |].
  - assert (exchange_rate_cache (get_exchange_rate [] (started offline)).2
              !! cache_key "USD" "CNY"
            = Some {| cache_rate := PFloat 6.99%float; cache_source := "默认汇率(演示)";
                      cache_timestamp := noon + 1000000 |}) as Hentry by (by vm_compute).
    rewrite Hentry in Hlook. injection Hlook as <-. by vm_compute.
  - exists json'. split; [exact Hrun|]. split; [|exact Hcached].
    rewrite Hrate. by vm_compute.
Defined.

(** The code XYZ, in lower case, is refused by both endpoints. *)
Lemma unsupported_codes_refused_witness :
  let refused :=
    Reply 400 [("success", PBool false);
               ("error", PStr "不支持的基准货币: XYZ");
               ("timestamp", PStr "2026-11-03 12:00:00")] in
  (get_exchange_rate [("base", "xyz")] (started offline)).1 = refused ∧
  (get_historical_data [("base", "xyz")] (started offline)).1 = refused.
Proof.
  destruct (unsupported_codes_refused [("base", "xyz")] (started offline))
    as [Hbase _].
  destruct Hbase as [-> ->]; [by vm_compute|]. by vm_compute.
Defined.

(** A path without a route. *)
Lemma answers_share_envelope_witness :
  @envelope PrimFloat.float 404
    [("success", PBool false);
     ("error", PStr "请求的资源不存在");
     ("timestamp", PStr "2026-11-03 12:00:00")].
Proof.
  destruct (answers_share_envelope (GET_unknown "/api/rates") (started offline) 404
              [("success", PBool false);
               ("error", PStr "请求的资源不存在");
               ("timestamp", PStr "2026-11-03 12:00:00")]) as [Henvelope _];
    [by vm_compute|].
  by apply Henvelope.
Defined.

(** The series with a null rate yields no series, and the builder
    returns two simulated points for one day of history. *)
Lemma malformed_entry_discards_series_witness :
  parse_history series_with_null "CNY" = None ∧
  ∃ history,
    (generate_historical_data "USD" "CNY" 1 (started null_in_series)).1 = inr history ∧
    point_date <$> history = ["2026-11-02"; "2026-11-03"].
Proof.
  destruct (malformed_entry_discards_series "CNY" series_with_null
              [("base", PStr "USD");
               ("rates", PDict [("2026-11-01", PDict [("CNY", PFloat 7.1%float)]);
                                ("2026-11-02", PDict [("CNY", PNone)])])]
              [("2026-11-01", PDict [("CNY", PFloat 7.1%float)]);
               ("2026-11-02", PDict [("CNY", PNone)])]
              "2026-11-02" (PDict [("CNY", PNone)])) as [Hparse Hbuilder].
  - reflexivity.
  - reflexivity.
  - apply list_elem_of_further, list_elem_of_here.
  - exact I.
  - split; [exact Hparse|].
    destruct (Hbuilder "USD" 1 (started null_in_series) 200) as [_ Hgen];
      [by intros url|].
    rewrite Hgen. eexists. split; [by vm_compute|]. by vm_compute.
Defined.

(** Five days into the future: an empty series. *)
Lemma negative_days_empty_series_witness :
  ∃ json,
    (get_historical_data [("days", "-5")] (started offline)).1 = Reply 200 json ∧
    assoc_get json "days" = Some (PInt (-5)) ∧
    assoc_get json "historical_data" = Some (PList []).
Proof.
  assert (default 30 (int_of_str (args_get [("days", "-5")] "days" "30")) = -5)
    as Hdays by (by vm_compute).
  destruct (negative_days_empty_series [("days", "-5")] (started offline))
    as [Hbuilder (json & history & Hrun & _ & Hecho & Hseries & Hhistory)];
    [by vm_compute..|rewrite Hdays; lia|].
  rewrite Hbuilder in Hhistory.
  assert (history = []) as -> by (vm_compute in Hhistory; congruence).
  exists json. split; [exact Hrun|]. rewrite Hecho, Hdays. by split.
Defined.

(** A million days of history, while every provider answers. *)
Lemma historical_endpoint_overflow_witness :
  ∃ json,
    (get_historical_data [("days", "1000000")] (started always_answers)).1
      = Reply 500 json ∧
    assoc_get json "success" = Some (PBool false).
Proof.
  assert (default 30 (int_of_str (args_get [("days", "1000000")] "days" "30")) = 1000000)
    as Hdays by (by vm_compute).
  destruct (historical_endpoint_overflow [("days", "1000000")] (started always_answers))
    as [Hreply _]; [by vm_compute..|rewrite Hdays; lia| |exact Hreply].
  intros n Hn. rewrite Hdays.
  change (clock (started always_answers) n) with (noon + Z.of_nat n * 1000000).
  change (ticks (started always_answers)) with 0%nat in Hn.
  unfold timedelta_days, noon. lia.
Defined.

(** The second request for USD to CNY finds the rate that the first one
    stored. *)
Lemma cache_hit_answer_witness :
  ∃ json,
    (get_exchange_rate []
       (serve_all [GET_exchange_rate []] (started first_answers)).2).1 = Reply 200 json ∧
    assoc_get json "exchange_rate" = Some (PFloat 7.1%float) ∧
    assoc_get json "source" = Some (PStr "ExchangeRate-API") ∧
    assoc_get json "last_updated" = Some (PStr "2026-11-03") ∧
    assoc_get json "cached" = Some (PBool true).
Proof.
  destruct (cache_hit_answer []
              (serve_all [GET_exchange_rate []] (started first_answers)).2
              {| cache_rate := PFloat 7.1%float; cache_source := "ExchangeRate-API";
                 cache_timestamp := noon + 1000000 |}
              (PFloat (1 / 7.1)%float))
    as [(json & Hrun & _ & Hrate & _ & Hsource & Hdate & Hcached) _]; [by vm_compute..|].
  exists json. split; [exact Hrun|]. split; [exact Hrate|]. split; [exact Hsource|].
  split; [|exact Hcached]. rewrite Hdate. by vm_compute.
Defined.

End Binary64Requests.
